(** * checkedthreads: the Valgrind race detector (valgrind/checkedthreads_main.c)

    A shallow embedding of the detector's core: the three-level page table
    that records one owner id per byte, the command protocol carried by
    tagged memory writes, and the per-access monitor.  Globals of the C
    file become fields of [ct_state]; heap nodes obtained from
    [VG_(calloc)] live in typed stores indexed by their address, so that
    the slot arrays and the allocation lists alias the same nodes as they
    do in C. *)

From Stdlib Require Import ZArith Lia Ascii String List Bool.
From stdpp Require Import base option list gmap.

Open Scope Z_scope.

(** ** Machine integers *)

(** [Addr] and [SizeT] are 64-bit unsigned words on the amd64 host the page
    table comment speaks of (48-bit virtual addresses). *)
Definition wrap64 (x : Z) : Z := x mod 2 ^ 64.

(** Valgrind's [UInt] is [unsigned int]: the cast [(UInt)addr] keeps the
    low 32 bits. *)
Definition to_UInt (x : Z) : Z := x mod 2 ^ 32.

(** [Int], [int] and [int32_t]: 32-bit two's complement. *)
Definition to_Int (x : Z) : Z := (x + 2 ^ 31) mod 2 ^ 32 - 2 ^ 31.

(** Storing into an [unsigned char]. *)
Definition to_uchar (x : Z) : Z := x mod 2 ^ 8.

(** ** Constants and address slicing *)

Definition MAGIC : Z := 0x12345678.
Definition CONST_MAGIC : string := "Valgrind command".
Definition MAX_CMD : Z := 128.

(** Layout of [ct_cmd]: [uint32_t stored_magic; char const_magic[16];
    char payload[MAX_CMD]]. *)
Definition oft_const_magic : Z := 4.
Definition oft_payload : Z := 4 + 16.
Definition sizeof_ct_cmd : Z := 4 + 16 + MAX_CMD.

Definition L2_PAGETAB (addr : Z) : Z :=
  Z.land (Z.shiftr (Z.shiftr (to_UInt addr) 24) 12) 0xfff.
Definition L1_PAGETAB (addr : Z) : Z :=
  Z.land (Z.shiftr (to_UInt addr) 24) 0xfff.
Definition PAGE (addr : Z) : Z :=
  Z.land (Z.shiftr (to_UInt addr) 12) 0xfff.
Definition BYTE_IN_PAGE (addr : Z) : Z :=
  Z.land (to_UInt addr) 0xfff.

(** ** Page-table nodes

    Every array of the C structs is zero-initialised by [VG_(calloc)] and
    only ever indexed by a 12-bit slice of an address; it is kept as a
    finite map from the slot index to the value stored there, an absent
    slot reading as 0 (the null pointer, or "owned by none"). *)

Definition slot (m : gmap Z Z) (i : Z) : Z := default 0 (m !! i).

Record ct_page := Build_ct_page {
  owning_thread : gmap Z Z;
  prev_alloc_page : Z;
  index : Z
}.

Record ct_pagetab_L1 := Build_ct_pagetab_L1 {
  pages : gmap Z Z;
  last_alloc_page : Z;
  prev_alloc_pagetab_L1 : Z
}.

Record ct_pagetab_L2 := Build_ct_pagetab_L2 {
  pagetabs_L1 : gmap Z Z;
  last_alloc_pagetab_L1 : Z;
  prev_alloc_pagetab_L2 : Z
}.

Record ct_pagetab_L3 := Build_ct_pagetab_L3 {
  pagetabs_L2 : gmap Z Z;
  last_alloc_pagetab_L2 : Z
}.

(** ** Diagnostics written with [VG_(printf)] *)

Inductive ct_msg :=
  | MsgRace (thread addr base size owner : Z)
      (* "checkedthreads: error - thread %d accessed %p [%p,%d], owned by %d",
         then the stack trace *)
  | MsgUnknownCommand
      (* "checkedthreads: WARNING - unknown command!", then the stack trace *)
  | MsgBeginFor
  | MsgEndFor
  | MsgIter (n : Z)
  | MsgDone (n : Z)
  | MsgStackbot (bot stackend : Z).

Definition is_race (m : ct_msg) : bool :=
  match m with MsgRace _ _ _ _ _ => true | _ => false end.

(** ** Detector state: the file's globals, the allocator and the output *)

Record ct_state := Build_ct_state {
  clo_print_commands : bool;
  g_ct_last_cmd : Z;
  g_ct_active : bool;
  g_ct_curr_thread : Z;
  g_ct_pagetab_L3 : ct_pagetab_L3;
  g_ct_stackbot : Z;
  g_ct_stackend : Z;
  heap_L2 : gmap Z ct_pagetab_L2;
  heap_L1 : gmap Z ct_pagetab_L1;
  heap_page : gmap Z ct_page;
  heap_next : Z;
  ct_out : list ct_msg
}.

(** What a hook sees of the instrumented program when it runs: the guest
    memory and the low end of the running thread's stack
    ([ct_stack_end()]). *)
Record ct_env := Build_ct_env {
  mem : Z -> ascii;
  stack_end : Z
}.

Definition ct_init (print_commands : bool) : ct_state :=
  {| clo_print_commands := print_commands;
     g_ct_last_cmd := 0;
     g_ct_active := false;
     g_ct_curr_thread := 0;
     g_ct_pagetab_L3 := {| pagetabs_L2 := ∅; last_alloc_pagetab_L2 := 0 |};
     g_ct_stackbot := 0;
     g_ct_stackend := 0;
     heap_L2 := ∅;
     heap_L1 := ∅;
     heap_page := ∅;
     heap_next := 1;
     ct_out := [] |}.

Definition set_table (l3 : ct_pagetab_L3) (h2 : gmap Z ct_pagetab_L2)
    (h1 : gmap Z ct_pagetab_L1) (hp : gmap Z ct_page) (nxt : Z)
    (s : ct_state) : ct_state :=
  {| clo_print_commands := clo_print_commands s;
     g_ct_last_cmd := g_ct_last_cmd s;
     g_ct_active := g_ct_active s;
     g_ct_curr_thread := g_ct_curr_thread s;
     g_ct_pagetab_L3 := l3;
     g_ct_stackbot := g_ct_stackbot s;
     g_ct_stackend := g_ct_stackend s;
     heap_L2 := h2;
     heap_L1 := h1;
     heap_page := hp;
     heap_next := nxt;
     ct_out := ct_out s |}.

Definition set_control (cmd : Z) (act : bool) (thr bot send : Z)
    (s : ct_state) : ct_state :=
  {| clo_print_commands := clo_print_commands s;
     g_ct_last_cmd := cmd;
     g_ct_active := act;
     g_ct_curr_thread := thr;
     g_ct_pagetab_L3 := g_ct_pagetab_L3 s;
     g_ct_stackbot := bot;
     g_ct_stackend := send;
     heap_L2 := heap_L2 s;
     heap_L1 := heap_L1 s;
     heap_page := heap_page s;
     heap_next := heap_next s;
     ct_out := ct_out s |}.

Definition emit (m : ct_msg) (s : ct_state) : ct_state :=
  {| clo_print_commands := clo_print_commands s;
     g_ct_last_cmd := g_ct_last_cmd s;
     g_ct_active := g_ct_active s;
     g_ct_curr_thread := g_ct_curr_thread s;
     g_ct_pagetab_L3 := g_ct_pagetab_L3 s;
     g_ct_stackbot := g_ct_stackbot s;
     g_ct_stackend := g_ct_stackend s;
     heap_L2 := heap_L2 s;
     heap_L1 := heap_L1 s;
     heap_page := heap_page s;
     heap_next := heap_next s;
     ct_out := ct_out s ++ [m] |}.

(** ** ct_get_page

    [VG_(calloc)] hands out a zeroed node at an address not in use; the
    allocator is a counter of addresses never handed out before. *)

(** First block of [ct_get_page]: the L2 table under the L3 slot. *)
Definition ct_get_pagetab_L2 (a : Z) (s : ct_state) : Z * ct_state :=
  let pagetab_L3 := g_ct_pagetab_L3 s in
  let pt2_index := L2_PAGETAB a in
  let pagetab_L2 := slot (pagetabs_L2 pagetab_L3) pt2_index in
  if pagetab_L2 =? 0 then
    let p := heap_next s in
    let n := {| pagetabs_L1 := ∅; last_alloc_pagetab_L1 := 0;
                prev_alloc_pagetab_L2 := last_alloc_pagetab_L2 pagetab_L3 |} in
    (p, set_table
          {| pagetabs_L2 := <[pt2_index := p]> (pagetabs_L2 pagetab_L3);
             last_alloc_pagetab_L2 := p |}
          (<[p := n]> (heap_L2 s)) (heap_L1 s) (heap_page s) (p + 1) s)
  else (pagetab_L2, s).

(** Second block: the L1 table under the L2 slot. *)
Definition ct_get_pagetab_L1 (a pagetab_L2 : Z) (s : ct_state)
    : option (Z * ct_state) :=
  n2 ← heap_L2 s !! pagetab_L2;
  let pt1_index := L1_PAGETAB a in
  let pagetab_L1 := slot (pagetabs_L1 n2) pt1_index in
  if pagetab_L1 =? 0 then
    let p := heap_next s in
    let n := {| pages := ∅; last_alloc_page := 0;
                prev_alloc_pagetab_L1 := last_alloc_pagetab_L1 n2 |} in
    Some (p, set_table (g_ct_pagetab_L3 s)
               (<[pagetab_L2 :=
                    {| pagetabs_L1 := <[pt1_index := p]> (pagetabs_L1 n2);
                       last_alloc_pagetab_L1 := p;
                       prev_alloc_pagetab_L2 := prev_alloc_pagetab_L2 n2 |}]>
                  (heap_L2 s))
               (<[p := n]> (heap_L1 s)) (heap_page s) (p + 1) s)
  else Some (pagetab_L1, s).

(** Third block: the page under the L1 slot. *)
Definition ct_get_page_L1 (a pagetab_L1 : Z) (s : ct_state)
    : option (Z * ct_state) :=
  n1 ← heap_L1 s !! pagetab_L1;
  let page_index := PAGE a in
  let page := slot (pages n1) page_index in
  if page =? 0 then
    let p := heap_next s in
    let n := {| owning_thread := ∅; prev_alloc_page := last_alloc_page n1;
                index := 0 |} in
    Some (p, set_table (g_ct_pagetab_L3 s) (heap_L2 s)
               (<[pagetab_L1 :=
                    {| pages := <[page_index := p]> (pages n1);
                       last_alloc_page := p;
                       prev_alloc_pagetab_L1 := prev_alloc_pagetab_L1 n1 |}]>
                  (heap_L1 s))
               (<[p := n]> (heap_page s)) (p + 1) s)
  else Some (page, s).

Definition ct_get_page (a : Z) (s : ct_state) : option (Z * ct_state) :=
  let '(pagetab_L2, s) := ct_get_pagetab_L2 a s in
  '(pagetab_L1, s) ← ct_get_pagetab_L1 a pagetab_L2 s;
  ct_get_page_L1 a pagetab_L1 s.

(** ** ct_clear_pagetab

    The three nested [while] loops follow the allocation lists; a list that
    does not end is cut off by the fuel and reads as [None]. *)

Fixpoint free_pages (fuel : nat) (page : Z) (hp : gmap Z ct_page)
    : option (gmap Z ct_page) :=
  if page =? 0 then Some hp else
  match fuel with
  | O => None
  | S fuel' =>
      pg ← hp !! page;
      free_pages fuel' (prev_alloc_page pg) (delete page hp)
  end.

Fixpoint free_pagetabs_L1 (fuel : nat) (pagetab_L1 : Z)
    (h1 : gmap Z ct_pagetab_L1) (hp : gmap Z ct_page)
    : option (gmap Z ct_pagetab_L1 * gmap Z ct_page) :=
  if pagetab_L1 =? 0 then Some (h1, hp) else
  match fuel with
  | O => None
  | S fuel' =>
      n1 ← h1 !! pagetab_L1;
      hp' ← free_pages (size hp) (last_alloc_page n1) hp;
      free_pagetabs_L1 fuel' (prev_alloc_pagetab_L1 n1)
        (delete pagetab_L1 h1) hp'
  end.

Fixpoint free_pagetabs_L2 (fuel : nat) (pagetab_L2 : Z)
    (h2 : gmap Z ct_pagetab_L2) (h1 : gmap Z ct_pagetab_L1)
    (hp : gmap Z ct_page)
    : option (gmap Z ct_pagetab_L2 * gmap Z ct_pagetab_L1 * gmap Z ct_page) :=
  if pagetab_L2 =? 0 then Some (h2, h1, hp) else
  match fuel with
  | O => None
  | S fuel' =>
      n2 ← h2 !! pagetab_L2;
      '(h1', hp') ← free_pagetabs_L1 (size h1) (last_alloc_pagetab_L1 n2) h1 hp;
      free_pagetabs_L2 fuel' (prev_alloc_pagetab_L2 n2)
        (delete pagetab_L2 h2) h1' hp'
  end.

Definition ct_clear_pagetab (s : ct_state) : option ct_state :=
  let pagetab_L3 := g_ct_pagetab_L3 s in
  '(h2, h1, hp) ← free_pagetabs_L2 (size (heap_L2 s))
                     (last_alloc_pagetab_L2 pagetab_L3)
                     (heap_L2 s) (heap_L1 s) (heap_page s);
  Some (set_table {| pagetabs_L2 := ∅; last_alloc_pagetab_L2 := 0 |}
          h2 h1 hp (heap_next s) s).

(** ** ct_suppress

    Pointers are compared as addresses; [g_ct_last_cmd+1] is the address
    one [ct_cmd] further on. *)

Definition set_stackend (send : Z) (s : ct_state) : ct_state :=
  set_control (g_ct_last_cmd s) (g_ct_active s) (g_ct_curr_thread s)
    (g_ct_stackbot s) send s.

Definition in_last_cmd (p : Z) (s : ct_state) : bool :=
  (g_ct_last_cmd s <=? p) && (p <? g_ct_last_cmd s + sizeof_ct_cmd).

Definition ct_suppress (env : ct_env) (addr : Z) (s : ct_state)
    : bool * ct_state :=
  let p := addr in
  if (g_ct_stackend s <=? p) && (p <? g_ct_stackbot s) then (true, s)
  else if p <? g_ct_stackend s then
    let s := set_stackend (stack_end env) s in
    if (g_ct_stackend s <=? p) && (p <? g_ct_stackbot s) then (true, s)
    else (in_last_cmd p s, s)
  else (in_last_cmd p s, s).

(** ** ct_on_access *)

Definition set_owner_byte (page : Z) (pg : ct_page) (i v : Z)
    (s : ct_state) : ct_state :=
  set_table (g_ct_pagetab_L3 s) (heap_L2 s) (heap_L1 s)
    (<[page := {| owning_thread := <[i := to_uchar v]> (owning_thread pg);
                  prev_alloc_page := prev_alloc_page pg;
                  index := index pg |}]> (heap_page s))
    (heap_next s) s.

Definition race_msg (base size addr owner : Z) (s : ct_state) : ct_msg :=
  MsgRace (to_Int (g_ct_curr_thread s - 1)) addr base (to_Int size)
          (to_Int (owner - 1)).

(** One pass through the body of the [for] loop, for the byte at offset
    [i]; the flag tells whether the pass ended in [break]. *)
Definition ct_on_access_byte (env : ct_env) (base size : Z) (store : bool)
    (i : Z) (s : ct_state) : option (bool * ct_state) :=
  let addr := wrap64 (base + i) in
  '(page, s) ← ct_get_page addr s;
  pg ← heap_page s !! page;
  let index_in_page := BYTE_IN_PAGE addr in
  let owner := slot (owning_thread pg) index_in_page in
  let '(stop, s) :=
    if negb (owner =? 0) && negb (owner =? g_ct_curr_thread s) then
      let '(sup, s) := ct_suppress env addr s in
      if sup then (false, s)
      else (true, emit (race_msg base size addr owner s) s)
    else (false, s) in
  if stop then Some (true, s)
  else
    Some (false,
          if store
          then set_owner_byte page pg index_in_page (g_ct_curr_thread s) s
          else s).

(** The loop runs the body for [i = 0 .. size-1]; [n] counts the passes
    still to run. *)
Fixpoint ct_on_access_loop (env : ct_env) (base size : Z) (store : bool)
    (n : nat) (i : Z) (s : ct_state) : option ct_state :=
  match n with
  | O => Some s
  | S n' =>
      match ct_on_access_byte env base size store i s with
      | None => None
      | Some (true, s) => Some s
      | Some (false, s) => ct_on_access_loop env base size store n' (i + 1) s
      end
  end.

Definition ct_on_access (env : ct_env) (base size : Z) (store : bool)
    (s : ct_state) : option ct_state :=
  ct_on_access_loop env base size store (Z.to_nat size) 0 s.

(** ** Reading the command object *)

Definition byte_at (m : Z -> ascii) (a : Z) : Z := Z.of_N (N_of_ascii (m a)).

(** Little-endian words, as on the amd64 host. *)
Definition read_u32 (m : Z -> ascii) (a : Z) : Z :=
  byte_at m a + 2 ^ 8 * byte_at m (a + 1) + 2 ^ 16 * byte_at m (a + 2)
  + 2 ^ 24 * byte_at m (a + 3).

Definition read_u64 (m : Z -> ascii) (a : Z) : Z :=
  read_u32 m a + 2 ^ 32 * read_u32 m (a + 4).

Fixpoint ct_str_is_from (m : Z -> ascii) (variable : Z) (constant : string)
    (i : Z) : bool :=
  match constant with
  | EmptyString => true
  | String c rest =>
      if Ascii.eqb (m (variable + i)) c
      then ct_str_is_from m variable rest (i + 1)
      else false
  end.

Definition ct_str_is (m : Z -> ascii) (variable : Z) (constant : string)
    : bool :=
  ct_str_is_from m variable constant 0.

Definition ct_cmd_ptr (m : Z -> ascii) (cmd oft : Z) : Z :=
  read_u64 m (cmd + oft_payload + oft).

Definition ct_cmd_int (m : Z -> ascii) (cmd oft : Z) : Z :=
  to_Int (read_u32 m (cmd + oft_payload + oft)).

(** ** ct_process_command *)

Definition echo (m : ct_msg) (s : ct_state) : ct_state :=
  if clo_print_commands s then emit m s else s.

Definition set_last_cmd (cmd : Z) (s : ct_state) : ct_state :=
  set_control cmd (g_ct_active s) (g_ct_curr_thread s) (g_ct_stackbot s)
    (g_ct_stackend s) s.

Definition set_active (b : bool) (s : ct_state) : ct_state :=
  set_control (g_ct_last_cmd s) b (g_ct_curr_thread s) (g_ct_stackbot s)
    (g_ct_stackend s) s.

Definition set_curr_thread (t : Z) (s : ct_state) : ct_state :=
  set_control (g_ct_last_cmd s) (g_ct_active s) t (g_ct_stackbot s)
    (g_ct_stackend s) s.

Definition set_stack (bot send : Z) (s : ct_state) : ct_state :=
  set_control (g_ct_last_cmd s) (g_ct_active s) (g_ct_curr_thread s)
    bot send s.

Definition ct_process_command (env : ct_env) (cmd : Z) (s : ct_state)
    : option ct_state :=
  let m := mem env in
  let payload := cmd + oft_payload in
  if negb (ct_str_is m (cmd + oft_const_magic) CONST_MAGIC) then Some s
  else
    s ←
      (if ct_str_is m payload "begin_for" then
         Some (echo MsgBeginFor s)
       else if ct_str_is m payload "end_for" then
         s ← ct_clear_pagetab (echo MsgEndFor s);
         Some (set_curr_thread 0 s)
       else if ct_str_is m payload "iter" then
         Some (set_active true (echo (MsgIter (ct_cmd_int m cmd 4)) s))
       else if ct_str_is m payload "done" then
         Some (set_active false (echo (MsgDone (ct_cmd_int m cmd 4)) s))
       else if ct_str_is m payload "thrd" then
         Some (set_curr_thread (to_Int (ct_cmd_int m cmd 4 + 1)) s)
       else if ct_str_is m payload "stackbot" then
         let s := set_stack (ct_cmd_ptr m cmd 8) (stack_end env) s in
         Some (echo (MsgStackbot (g_ct_stackbot s) (g_ct_stackend s)) s)
       else
         Some (emit MsgUnknownCommand s));
    Some (set_last_cmd cmd s).

(** ** The hooks called by the instrumented code *)

Definition trace_load (env : ct_env) (addr size : Z) (s : ct_state)
    : option ct_state :=
  if g_ct_active s then ct_on_access env addr size false s else Some s.

Definition ct_on_store (env : ct_env) (addr size : Z) (s : ct_state)
    : option ct_state :=
  let p := addr in
  s ← (if read_u32 (mem env) p =? MAGIC
       then ct_process_command env p s else Some s);
  if g_ct_active s then ct_on_access env addr size true s else Some s.

Definition trace_store (env : ct_env) (addr size : Z) (s : ct_state)
    : option ct_state :=
  ct_on_store env addr size s.

Definition trace_modify (env : ct_env) (addr size : Z) (s : ct_state)
    : option ct_state :=
  ct_on_store env addr size s.

(** ** The event stream

    [flushEvents] adds a helper call for every load, store and modify of
    the instrumented code, and none for an instruction fetch. *)

Inductive ct_event :=
  | Load (addr size : Z)
  | Store (addr size : Z)
  | Modify (addr size : Z).

Definition ct_step (e : ct_env * ct_event) (s : ct_state) : option ct_state :=
  match e.2 with
  | Load addr size => trace_load e.1 addr size s
  | Store addr size => trace_store e.1 addr size s
  | Modify addr size => trace_modify e.1 addr size s
  end.

Fixpoint ct_run (evs : list (ct_env * ct_event)) (s : ct_state)
    : option ct_state :=
  match evs with
  | [] => Some s
  | e :: evs' => s' ← ct_step e s; ct_run evs' s'
  end.

(** ** Ownership as the monitor reads it

    [owner_of] follows the slot arrays without allocating; a missing node
    reads as "owned by none", which is what a freshly zeroed page holds.
    On a well-formed table it is the value [ct_on_access] reads from the
    page that [ct_get_page] returns ([ct_get_page_spec]). *)

Definition l2_of (s : ct_state) (a : Z) : Z :=
  slot (pagetabs_L2 (g_ct_pagetab_L3 s)) (L2_PAGETAB a).

Definition l1_of (s : ct_state) (a : Z) : Z :=
  match heap_L2 s !! l2_of s a with
  | None => 0
  | Some n2 => slot (pagetabs_L1 n2) (L1_PAGETAB a)
  end.

Definition page_of (s : ct_state) (a : Z) : Z :=
  match heap_L1 s !! l1_of s a with
  | None => 0
  | Some n1 => slot (pages n1) (PAGE a)
  end.

Definition owner_of (s : ct_state) (a : Z) : Z :=
  match heap_page s !! page_of s a with
  | None => 0
  | Some pg => slot (owning_thread pg) (BYTE_IN_PAGE a)
  end.

Definition allocated_nodes (s : ct_state) : nat :=
  size (heap_page s) + size (heap_L1 s) + size (heap_L2 s).

(** ** Building guest memory for concrete runs *)

Fixpoint string_at (str : string) (n : nat) : ascii :=
  match str, n with
  | EmptyString, _ => Ascii.zero
  | String c _, O => c
  | String _ rest, S n' => string_at rest n'
  end.

Definition le_bytes (k : nat) (v : Z) : string :=
  (fix go (k : nat) (v : Z) : string :=
     match k with
     | O => EmptyString
     | S k' => String (ascii_of_N (Z.to_N (v mod 256))) (go k' (v / 256))
     end) k v.

Fixpoint pad (n : nat) (str : string) : string :=
  match n with
  | O => EmptyString
  | S n' =>
      match str with
      | EmptyString => String Ascii.zero (pad n' EmptyString)
      | String c rest => String c (pad n' rest)
      end
  end.

(** The image of a command object: the magic, the marker, then the payload
    holding the opcode name, with a 32-bit argument at offset 4 after a
    four-letter name and a pointer argument at offset 8 after a name of up
    to eight letters. *)
Definition cmd_image (name : string) (arg : Z) (parg : Z) : string :=
  (le_bytes 4 MAGIC ++ CONST_MAGIC
   ++ (if (String.length name <=? 4)%nat
       then pad 4 name ++ le_bytes 4 arg ++ le_bytes 8 parg
       else if (String.length name <=? 8)%nat
       then pad 8 name ++ le_bytes 8 parg
       else name))%string.

Definition mem_with (base : Z) (img : string) : Z -> ascii :=
  fun a =>
    if (base <=? a) && (a <? base + Z.of_nat (String.length img))
    then string_at img (Z.to_nat (a - base)) else Ascii.zero.

Definition cmd_env (cmd : Z) (name : string) (arg parg send : Z) : ct_env :=
  {| mem := mem_with cmd (cmd_image name arg parg); stack_end := send |}.

Definition plain_env : ct_env :=
  {| mem := fun _ => Ascii.zero; stack_end := 0 |}.

(** * Specification vocabulary *)

(** ** Where an owner byte lives *)

(** The slot path to the page of address [a]. *)
Definition pkey (a : Z) : Z * Z * Z := (L2_PAGETAB a, L1_PAGETAB a, PAGE a).

(** The storage location of the owner id of address [a]: the three table
    indices and the index in the page. *)
Definition ct_loc (a : Z) : Z * Z * Z * Z :=
  (L2_PAGETAB a, L1_PAGETAB a, PAGE a, BYTE_IN_PAGE a).

(** The same slices taken from a word [u] as it is, without the cast. *)
Definition slices (u : Z) : Z * Z * Z * Z :=
  (Z.land (Z.shiftr (Z.shiftr u 24) 12) 0xfff,
   Z.land (Z.shiftr u 24) 0xfff,
   Z.land (Z.shiftr u 12) 0xfff,
   Z.land u 0xfff).

(** ** The page-table invariant *)

(** [chain prev h p l]: following [prev] from [p] through the nodes of [h]
    visits exactly the addresses [l] and ends at the null pointer. *)
Fixpoint chain {A : Type} (prev : A -> Z) (h : gmap Z A) (p : Z)
    (l : list Z) : Prop :=
  match l with
  | [] => p = 0
  | q :: l' =>
      p = q /\ q <> 0 /\ exists n, h !! q = Some n /\ chain prev h (prev n) l'
  end.

(** The allocation lists hold every node of the stores once: [c2] is the
    list of L2 tables, [f1 q] the L1 tables allocated under the L2 table
    [q], [fp r] the pages allocated under the L1 table [r]. *)
Record chains_ok (s : ct_state) (c2 : list Z) (f1 fp : Z -> list Z) : Prop := {
  ch_L2 : chain prev_alloc_pagetab_L2 (heap_L2 s)
            (last_alloc_pagetab_L2 (g_ct_pagetab_L3 s)) c2;
  ch_L2_nodup : NoDup c2;
  ch_L2_all : forall q, is_Some (heap_L2 s !! q) -> q ∈ c2;
  ch_L1 : forall q n, heap_L2 s !! q = Some n ->
            chain prev_alloc_pagetab_L1 (heap_L1 s) (last_alloc_pagetab_L1 n)
              (f1 q) /\ NoDup (f1 q);
  ch_L1_all : forall r, is_Some (heap_L1 s !! r) ->
                exists q, is_Some (heap_L2 s !! q) /\ r ∈ f1 q;
  ch_L1_disj : forall q q' r, is_Some (heap_L2 s !! q) ->
                 is_Some (heap_L2 s !! q') -> r ∈ f1 q -> r ∈ f1 q' -> q = q';
  ch_page : forall r n, heap_L1 s !! r = Some n ->
              chain prev_alloc_page (heap_page s) (last_alloc_page n) (fp r)
              /\ NoDup (fp r);
  ch_page_all : forall x, is_Some (heap_page s !! x) ->
                  exists r, is_Some (heap_L1 s !! r) /\ x ∈ fp r;
  ch_page_disj : forall r r' x, is_Some (heap_L1 s !! r) ->
                   is_Some (heap_L1 s !! r') -> x ∈ fp r -> x ∈ fp r' -> r = r'
}.

(** Allocated nodes lie below the allocator's counter and none at the null
    address; a non-null slot points to an allocated node of the next level;
    distinct slot paths lead to distinct nodes; and the allocation lists
    account for every node. *)
Record ct_wf (s : ct_state) : Prop := {
  wf_next : 0 < heap_next s;
  wf_dom2 : forall p, is_Some (heap_L2 s !! p) -> 0 < p < heap_next s;
  wf_dom1 : forall p, is_Some (heap_L1 s !! p) -> 0 < p < heap_next s;
  wf_domp : forall p, is_Some (heap_page s !! p) -> 0 < p < heap_next s;
  wf_slot3 : forall i p, pagetabs_L2 (g_ct_pagetab_L3 s) !! i = Some p ->
               is_Some (heap_L2 s !! p);
  wf_slot2 : forall q n i p, heap_L2 s !! q = Some n ->
               pagetabs_L1 n !! i = Some p -> is_Some (heap_L1 s !! p);
  wf_slot1 : forall r n i p, heap_L1 s !! r = Some n ->
               pages n !! i = Some p -> is_Some (heap_page s !! p);
  wf_inj2 : forall a b, l2_of s a <> 0 -> l2_of s a = l2_of s b ->
              L2_PAGETAB a = L2_PAGETAB b;
  wf_inj1 : forall a b, l1_of s a <> 0 -> l1_of s a = l1_of s b ->
              L2_PAGETAB a = L2_PAGETAB b /\ L1_PAGETAB a = L1_PAGETAB b;
  wf_injp : forall a b, page_of s a <> 0 -> page_of s a = page_of s b ->
              pkey a = pkey b;
  wf_chains : exists c2 f1 fp, chains_ok s c2 f1 fp
}.

(** ** Frames: what a step leaves alone *)

Definition same_table (s s' : ct_state) : Prop :=
  g_ct_pagetab_L3 s' = g_ct_pagetab_L3 s /\ heap_L2 s' = heap_L2 s
  /\ heap_L1 s' = heap_L1 s /\ heap_page s' = heap_page s
  /\ heap_next s' = heap_next s.

Definition same_control (s s' : ct_state) : Prop :=
  clo_print_commands s' = clo_print_commands s
  /\ g_ct_last_cmd s' = g_ct_last_cmd s
  /\ g_ct_active s' = g_ct_active s
  /\ g_ct_curr_thread s' = g_ct_curr_thread s
  /\ g_ct_stackbot s' = g_ct_stackbot s
  /\ g_ct_stackend s' = g_ct_stackend s.

(** What an access may change of the control state: only the recorded
    stack end, which [ct_suppress] refreshes from the running thread. *)
Definition ctl_frame (env : ct_env) (s s' : ct_state) : Prop :=
  clo_print_commands s' = clo_print_commands s
  /\ g_ct_last_cmd s' = g_ct_last_cmd s
  /\ g_ct_active s' = g_ct_active s
  /\ g_ct_curr_thread s' = g_ct_curr_thread s
  /\ g_ct_stackbot s' = g_ct_stackbot s
  /\ (g_ct_stackend s' = g_ct_stackend s \/ g_ct_stackend s' = stack_end env).

(** ** Conflicts and suppression *)

(** The test of [ct_on_access]: the byte has an owner other than the
    current worker. *)
Definition conflictb (s : ct_state) (a : Z) : bool :=
  negb (owner_of s a =? 0) && negb (owner_of s a =? g_ct_curr_thread s).

Definition suppressed (env : ct_env) (p : Z) (s : ct_state) : bool :=
  (ct_suppress env p s).1.

(** [ct_suppress] may refresh the recorded stack end in the middle of an
    access.  An address in the stack window of the refreshed bound, or in
    the last command object, is suppressed before and after the refresh;
    an address outside both stack windows and outside the command object is
    suppressed neither before nor after. *)
Definition always_suppressed (env : ct_env) (s : ct_state) (p : Z) : Prop :=
  (stack_end env <= p < g_ct_stackbot s)
  \/ (g_ct_last_cmd s <= p < g_ct_last_cmd s + sizeof_ct_cmd).

Definition never_suppressed (env : ct_env) (s : ct_state) (p : Z) : Prop :=
  ~ (g_ct_stackend s <= p < g_ct_stackbot s)
  /\ ~ (stack_end env <= p < g_ct_stackbot s)
  /\ ~ (g_ct_last_cmd s <= p < g_ct_last_cmd s + sizeof_ct_cmd).

(** ** Commands *)

(** The marker after the magic passes the check of [ct_process_command]. *)
Definition tagged (env : ct_env) (cmd : Z) : Prop :=
  ct_str_is (mem env) (cmd + oft_const_magic) CONST_MAGIC = true.

(** The payload passes the check against [name]. *)
Definition opcode_is (env : ct_env) (cmd : Z) (name : string) : Prop :=
  ct_str_is (mem env) (cmd + oft_payload) name = true.

Definition opcodes : list string :=
  ["begin_for"; "end_for"; "iter"; "done"; "thrd"; "stackbot"]%string.

(** The bytes at [v] start with the characters of [c]. *)
Definition begins_with (m : Z -> ascii) (v : Z) (c : string) : Prop :=
  forall i ch, String.get i c = Some ch -> m (v + Z.of_nat i) = ch.

(** The four bytes at [a] hold the 32-bit two's-complement integer [N], low
    byte first. *)
Definition holds_int32 (m : Z -> ascii) (a N : Z) : Prop :=
  - 2 ^ 31 <= N < 2 ^ 31
  /\ byte_at m a = N mod 2 ^ 8
  /\ byte_at m (a + 1) = (N / 2 ^ 8) mod 2 ^ 8
  /\ byte_at m (a + 2) = (N / 2 ^ 16) mod 2 ^ 8
  /\ byte_at m (a + 3) = (N / 2 ^ 24) mod 2 ^ 8.

Definition is_end_for (env : ct_env) (addr : Z) : Prop :=
  read_u32 (mem env) addr = MAGIC /\ tagged env addr
  /\ opcode_is env addr "end_for".

(** Events that leave the owner of [a] alone: a load; or a store or modify
    that carries no [end_for] command and covers no byte kept in the owner
    byte of [a]. *)
Definition keeps (a : Z) (e : ct_env * ct_event) : Prop :=
  match e.2 with
  | Load _ _ => True
  | Store addr size | Modify addr size =>
      ~ is_end_for e.1 addr
      /\ forall i, 0 <= i < size -> ct_loc (wrap64 (addr + i)) <> ct_loc a
  end.

(** Events that carry no [end_for] command. *)
Definition no_end_for (e : ct_env * ct_event) : Prop :=
  match e.2 with
  | Load _ _ => True
  | Store addr _ | Modify addr _ => ~ is_end_for e.1 addr
  end.

Definition event_size (e : ct_env * ct_event) : Z :=
  match e.2 with
  | Load _ size | Store _ size | Modify _ size => size
  end.

(** The part of the recorded stack window that lies below the stack end of
    the running thread: addresses that [ct_suppress] takes for stack until
    it refreshes [g_ct_stackend], and no longer after. *)
Definition stale_window (env : ct_env) (s : ct_state) (p : Z) : Prop :=
  g_ct_stackend s <= p < g_ct_stackbot s /\ p < stack_end env.

(** The lines that do not depend on [--print-commands]. *)
Definition report_or_warning (m : ct_msg) : Prop :=
  is_race m = true \/ m = MsgUnknownCommand.

(** ** Concrete runs *)

Definition state_after (evs : list (ct_env * ct_event)) : ct_state :=
  default (ct_init false) (ct_run evs (ct_init false)).

(** Command objects, each at its own address. *)
Definition env_thrd0 : ct_env := cmd_env 1000 "thrd" 0 0 0.
Definition env_iter : ct_env := cmd_env 2000 "iter" 5 0 0.
Definition env_thrd1 : ct_env := cmd_env 3000 "thrd" 1 0 0.
Definition env_done : ct_env := cmd_env 3000 "done" 5 0 0.
Definition env_thrd6 : ct_env := cmd_env 3000 "thrd" 6 0 0.
Definition env_end_for : ct_env := cmd_env 4000 "end_for" 0 0 0.
Definition env_iteration : ct_env := cmd_env 1000 "iteration" 0 0 0.
Definition env_bogus : ct_env := cmd_env 1000 "bogus" 0 0 0.
Definition env_thrd255 : ct_env := cmd_env 1000 "thrd" 255 0 0.
Definition env_thrd256 : ct_env := cmd_env 1000 "thrd" 256 0 0.

(** [thrd] commands with an argument of more than one byte, and with the
    largest [Int]. *)
Definition env_thrd70000 : ct_env := cmd_env 1000 "thrd" 70000 0 0.
Definition env_thrd_max : ct_env := cmd_env 1000 "thrd" (2 ^ 31 - 1) 0 0.


(** Worker 0 is announced while the detector is still inactive: the
    current worker is 1. *)
Definition demo_inactive : list (ct_env * ct_event) :=
  [ (env_thrd0, Store 1000 4) ].

(** Tracking is then turned on. *)
Definition demo_start : list (ct_env * ct_event) :=
  demo_inactive ++ [ (env_iter, Store 2000 4) ].

(** Worker 1 touches three pages under two L1 tables. *)
Definition demo_touch : list (ct_env * ct_event) :=
  demo_start ++
  [ (plain_env, Store 5000 4);
    (plain_env, Store 70000 2);
    (plain_env, Load 0x2000000 1) ].

(** Worker 1 writes four bytes at 5000, then worker 1 of the caller's
    numbering (owner id 2) is announced. *)
Definition demo_two_workers : list (ct_env * ct_event) :=
  demo_start ++
  [ (plain_env, Store 5000 4);
    (env_thrd1, Store 3000 4) ].

(** A worker whose owner id is 256, and writes one byte; and one whose
    owner id is 257. *)
Definition demo_worker_256 : list (ct_env * ct_event) :=
  [ (env_thrd255, Store 1000 4);
    (env_iter, Store 2000 4);
    (plain_env, Store 5000 1) ].

Definition demo_worker_257 : list (ct_env * ct_event) :=
  [ (env_thrd256, Store 1000 4);
    (env_iter, Store 2000 4) ].

(** Events after a write to 5000 that neither write there nor end the
    region. *)
Definition demo_later : list (ct_env * ct_event) :=
  [ (plain_env, Load 5000 4);
    (plain_env, Store 6000 2);
    (env_thrd1, Store 3000 4);
    (plain_env, Load 5000 1) ].

(** ** Tactics *)

(** Reduce the projections of a state built by one of the setters, and
    nothing else. *)
Ltac st_simpl :=
  cbn [fst snd clo_print_commands g_ct_last_cmd g_ct_active g_ct_curr_thread
       g_ct_pagetab_L3 g_ct_stackbot g_ct_stackend heap_L2 heap_L1 heap_page
       heap_next ct_out set_table set_control emit set_last_cmd set_active
       set_curr_thread set_stack set_stackend
       pagetabs_L2 last_alloc_pagetab_L2 pagetabs_L1 last_alloc_pagetab_L1
       prev_alloc_pagetab_L2 pages last_alloc_page prev_alloc_pagetab_L1
       owning_thread prev_alloc_page index].

Tactic Notation "st_simpl" "in" hyp(H) :=
  cbn [fst snd clo_print_commands g_ct_last_cmd g_ct_active g_ct_curr_thread
       g_ct_pagetab_L3 g_ct_stackbot g_ct_stackend heap_L2 heap_L1 heap_page
       heap_next ct_out set_table set_control emit set_last_cmd set_active
       set_curr_thread set_stack set_stackend
       pagetabs_L2 last_alloc_pagetab_L2 pagetabs_L1 last_alloc_pagetab_L1
       prev_alloc_pagetab_L2 pages last_alloc_page prev_alloc_pagetab_L1
       owning_thread prev_alloc_page index] in H.

(** * The instrumentation pass

    [lk_instrument] rewrites a superblock of VEX IR: it copies the
    statements and adds a call to [trace_load], [trace_store] or
    [trace_modify] for the memory accesses it finds, which it first
    collects in the four-slot buffer [events]. *)

Module Instrument.

(** ** What the pass uses of VEX

    The IR types the pass only hands around, and the library functions it
    calls on them, are parameters of the development.  [IRExpr] is the type
    of expressions, atoms ([IRAtom]) included; [Iex_Load_of data] is
    [Some (ty, addr)] when [data->tag == Iex_Load], with its fields
    [Iex.Load.ty] and [Iex.Load.addr]; [IRRest] stands for the parts of a
    statement or a block that the pass copies without reading them. *)
Class Vex := {
  IRType : Type;
  IRType_eq_dec :: EqDecision IRType;
  IRTypeEnv : Type;
  IRTemp : Type;
  IRExpr : Type;
  IRRest : Type;
  sizeofIRType : IRType -> Z;
  typeOfIRExpr : IRTypeEnv -> IRExpr -> IRType;
  typeOfIRTemp : IRTypeEnv -> IRTemp -> IRType;
  isIRAtom : IRExpr -> bool;
  eqIRAtom : IRExpr -> IRExpr -> bool;
  mkIRExpr_HWord : Z -> IRExpr;
  Iex_Load_of : IRExpr -> option (IRType * IRExpr);
  VG_MIN_INSTR_SZB : Z;
  VG_MAX_INSTR_SZB : Z;
  VG_CLREQ_SZB : Z
}.

Section pass.
Context `{Vex}.

(** The three helpers whose address [flushEvents] takes. *)
Inductive HelperFn := Fn_trace_load | Fn_trace_store | Fn_trace_modify.

(** What a call of a helper does when the instrumented code runs it. *)
Definition call_helper (f : HelperFn)
    : ct_env -> Z -> Z -> ct_state -> option ct_state :=
  match f with
  | Fn_trace_load => trace_load
  | Fn_trace_store => trace_store
  | Fn_trace_modify => trace_modify
  end.

(** A dirty call: one built by [unsafeIRDirty_0_N], or one the block
    already holds. *)
Inductive IRDirty :=
  | unsafeIRDirty_0_N (regparms : Z) (name : string) (addr : HelperFn)
      (args : list IRExpr)
  | IRDirty_guest (d : IRRest).

(** [IRCAS]: the fields the pass reads; a null pointer is [None]. *)
Inductive IRCAS :=
  | mkIRCAS (addr dataHi dataLo : option IRExpr) (r : IRRest).

Inductive IRStmt :=
  | Ist_NoOp
  | Ist_IMark (addr len : Z)
  | Ist_AbiHint (r : IRRest)
  | Ist_Put (r : IRRest)
  | Ist_PutI (r : IRRest)
  | Ist_WrTmp (tmp : IRTemp) (data : IRExpr)
  | Ist_Store (addr data : IRExpr)
  | Ist_CAS (details : IRCAS)
  | Ist_LLSC (result : IRTemp) (addr : IRExpr) (storedata : option IRExpr)
  | Ist_Dirty (details : IRDirty)
  | Ist_MBE (r : IRRest)
  | Ist_Exit (r : IRRest).

(** A superblock: [stmts] holds the [stmts_used] statement pointers, a null
    pointer being [None]. *)
Record IRSB := Build_IRSB {
  tyenv : IRTypeEnv;
  stmts : list (option IRStmt);
  sb_rest : IRRest
}.

Definition deepCopyIRSBExceptStmts (sb : IRSB) : IRSB :=
  {| tyenv := tyenv sb; stmts := []; sb_rest := sb_rest sb |}.

Definition addStmtToIRSB (sb : IRSB) (st : IRStmt) : IRSB :=
  {| tyenv := tyenv sb; stmts := stmts sb ++ [Some st];
     sb_rest := sb_rest sb |}.

Definition mkIRExprVec_2 (a b : IRExpr) : list IRExpr := [a; b].

(** ** The event buffer *)

Definition MAX_DSIZE : Z := 512.
Definition N_EVENTS : Z := 4.

Inductive EventKind := Event_Ir | Event_Dr | Event_Dw | Event_Dm.

Record Event := Build_Event {
  ekind : EventKind;
  addr : IRExpr;
  size : Z
}.

(** The statics [events] and [events_used]. *)
Record ev_state := Build_ev_state {
  events : list Event;
  events_used : Z
}.

(** [clo_trace_mem] is initialised to [True] and never assigned. *)
Definition clo_trace_mem : bool := true.

(** [tl_assert]: a failed assertion ends the run of the tool. *)
Definition tl_assert (b : bool) : option unit :=
  if b then Some tt else None.

(** ** flushEvents *)

(** The [switch] of [flushEvents]: the helper for an event, none for an
    instruction fetch. *)
Definition helper_of (k : EventKind) : option (string * HelperFn) :=
  match k with
  | Event_Ir => None
  | Event_Dr => Some ("trace_load"%string, Fn_trace_load)
  | Event_Dw => Some ("trace_store"%string, Fn_trace_store)
  | Event_Dm => Some ("trace_modify"%string, Fn_trace_modify)
  end.

(** The [for] loop from index [i], with [n] passes to run. *)
Fixpoint flushEvents_from (n : nat) (i : Z) (g : ev_state) (sb : IRSB)
    : option IRSB :=
  match n with
  | O => Some sb
  | S n' =>
      match events g !! Z.to_nat i with
      | None => None
      | Some ev =>
          let sb :=
            match helper_of (ekind ev) with
            | Some (helperName, helperAddr) =>
                let argv :=
                  mkIRExprVec_2 (addr ev) (mkIRExpr_HWord (wrap64 (size ev))) in
                let di := unsafeIRDirty_0_N 2 helperName helperAddr argv in
                addStmtToIRSB sb (Ist_Dirty di)
            | None => sb
            end in
          flushEvents_from n' (i + 1) g sb
      end
  end.

Definition flushEvents (g : ev_state) (sb : IRSB) : option (ev_state * IRSB) :=
  sb ← flushEvents_from (Z.to_nat (events_used g)) 0 g sb;
  Some ({| events := events g; events_used := 0 |}, sb).

(** ** addEvent_Ir, addEvent_Dr, addEvent_Dw *)

(** [evt = &events[events_used]], the three fields of [evt] set, and
    [events_used++]. *)
Definition put_event (e : Event) (g : ev_state) : ev_state :=
  {| events := <[Z.to_nat (events_used g) := e]> (events g);
     events_used := events_used g + 1 |}.

(** The part the three functions share: flush a full buffer, check the
    index, store the event. *)
Definition add_event (e : Event) (g : ev_state) (sb : IRSB)
    : option (ev_state * IRSB) :=
  '(g, sb) ← (if events_used g =? N_EVENTS then flushEvents g sb
              else Some (g, sb));
  _ ← tl_assert ((0 <=? events_used g) && (events_used g <? N_EVENTS));
  Some (put_event e g, sb).

Definition addEvent_Ir (iaddr : IRExpr) (isize : Z) (g : ev_state) (sb : IRSB)
    : option (ev_state * IRSB) :=
  _ ← tl_assert clo_trace_mem;
  _ ← tl_assert ((VG_MIN_INSTR_SZB <=? isize) && (isize <=? VG_MAX_INSTR_SZB)
                 || (VG_CLREQ_SZB =? isize));
  add_event {| ekind := Event_Ir; addr := iaddr; size := to_Int isize |} g sb.

Definition addEvent_Dr (daddr : IRExpr) (dsize : Z) (g : ev_state) (sb : IRSB)
    : option (ev_state * IRSB) :=
  _ ← tl_assert clo_trace_mem;
  _ ← tl_assert (isIRAtom daddr);
  _ ← tl_assert ((1 <=? dsize) && (dsize <=? MAX_DSIZE));
  add_event {| ekind := Event_Dr; addr := daddr; size := dsize |} g sb.

Definition addEvent_Dw (daddr : IRExpr) (dsize : Z) (g : ev_state) (sb : IRSB)
    : option (ev_state * IRSB) :=
  _ ← tl_assert clo_trace_mem;
  _ ← tl_assert (isIRAtom daddr);
  _ ← tl_assert ((1 <=? dsize) && (dsize <=? MAX_DSIZE));
  (* [lastEvt = &events[events_used-1]], read only when [events_used > 0] *)
  merged ←
    (if 0 <? events_used g then
       lastEvt ← events g !! Z.to_nat (events_used g - 1);
       Some (match ekind lastEvt with
             | Event_Dr =>
                 if (size lastEvt =? dsize) && eqIRAtom (addr lastEvt) daddr
                 then Some lastEvt else None
             | _ => None
             end)
     else Some None);
  match merged with
  | Some lastEvt =>
      Some ({| events :=
                 <[Z.to_nat (events_used g - 1) :=
                     {| ekind := Event_Dm; addr := addr lastEvt;
                        size := size lastEvt |}]> (events g);
               events_used := events_used g |}, sb)
  | None =>
      add_event {| ekind := Event_Dw; addr := daddr; size := dsize |} g sb
  end.

(** ** lk_instrument *)

Definition is_IMark (st : IRStmt) : bool :=
  match st with Ist_IMark _ _ => true | _ => false end.

(** The first loop copies the statements before the first [Ist_IMark] and
    returns the ones left. *)
Fixpoint copy_preamble (l : list (option IRStmt)) (sbOut : IRSB)
    : option (list (option IRStmt) * IRSB) :=
  match l with
  | [] => Some ([], sbOut)
  | None :: _ => None
  | Some st :: l' =>
      if is_IMark st then Some (l, sbOut)
      else copy_preamble l' (addStmtToIRSB sbOut st)
  end.

(** One pass through the [switch] of the second loop. *)
Definition instrument_stmt (tyenv : IRTypeEnv) (st : IRStmt) (g : ev_state)
    (sbOut : IRSB) : option (ev_state * IRSB) :=
  match st with
  | Ist_NoOp | Ist_AbiHint _ | Ist_Put _ | Ist_PutI _ | Ist_MBE _ =>
      Some (g, addStmtToIRSB sbOut st)
  | Ist_IMark a len =>
      '(g, sbOut) ←
        (if clo_trace_mem
         then addEvent_Ir (mkIRExpr_HWord (wrap64 a)) (to_UInt len) g sbOut
         else Some (g, sbOut));
      Some (g, addStmtToIRSB sbOut st)
  | Ist_WrTmp _ data =>
      '(g, sbOut) ←
        (if clo_trace_mem then
           match Iex_Load_of data with
           | Some (ty, a) => addEvent_Dr a (sizeofIRType ty) g sbOut
           | None => Some (g, sbOut)
           end
         else Some (g, sbOut));
      Some (g, addStmtToIRSB sbOut st)
  | Ist_Store a data =>
      '(g, sbOut) ←
        (if clo_trace_mem
         then addEvent_Dw a (sizeofIRType (typeOfIRExpr tyenv data)) g sbOut
         else Some (g, sbOut));
      Some (g, addStmtToIRSB sbOut st)
  | Ist_Dirty _ =>
      Some (g, addStmtToIRSB sbOut st)
  | Ist_CAS (mkIRCAS a dataHi dataLo _) =>
      a ← a;
      dataLo ← dataLo;
      let dataTy := typeOfIRExpr tyenv dataLo in
      let dataSize := sizeofIRType dataTy in
      let dataSize :=
        match dataHi with
        | Some _ => to_Int (dataSize * 2)
        | None => dataSize
        end in
      '(g, sbOut) ←
        (if clo_trace_mem then
           '(g, sbOut) ← addEvent_Dr a dataSize g sbOut;
           addEvent_Dw a dataSize g sbOut
         else Some (g, sbOut));
      Some (g, addStmtToIRSB sbOut st)
  | Ist_LLSC result a storedata =>
      '(g, sbOut) ←
        match storedata with
        | None =>
            let dataTy := typeOfIRTemp tyenv result in
            if clo_trace_mem
            then addEvent_Dr a (sizeofIRType dataTy) g sbOut
            else Some (g, sbOut)
        | Some storedata =>
            let dataTy := typeOfIRExpr tyenv storedata in
            if clo_trace_mem
            then addEvent_Dw a (sizeofIRType dataTy) g sbOut
            else Some (g, sbOut)
        end;
      Some (g, addStmtToIRSB sbOut st)
  | Ist_Exit _ =>
      '(g, sbOut) ←
        (if clo_trace_mem then flushEvents g sbOut else Some (g, sbOut));
      Some (g, addStmtToIRSB sbOut st)
  end.

(** The second loop; a null statement pointer and a no-op are skipped. *)
Fixpoint instrument_loop (tyenv : IRTypeEnv) (l : list (option IRStmt))
    (g : ev_state) (sbOut : IRSB) : option (ev_state * IRSB) :=
  match l with
  | [] => Some (g, sbOut)
  | None :: l' | Some Ist_NoOp :: l' => instrument_loop tyenv l' g sbOut
  | Some st :: l' =>
      match instrument_stmt tyenv st g sbOut with
      | None => None
      | Some (g, sbOut) => instrument_loop tyenv l' g sbOut
      end
  end.

(** [VG_(tool_panic)] ends the run like a failed assertion. *)
Definition lk_instrument (sbIn : IRSB) (gWordTy hWordTy : IRType)
    (g : ev_state) : option (ev_state * IRSB) :=
  if negb (bool_decide (gWordTy = hWordTy)) then None else
  let sbOut := deepCopyIRSBExceptStmts sbIn in
  '(rest, sbOut) ← copy_preamble (stmts sbIn) sbOut;
  let g := if clo_trace_mem
           then {| events := events g; events_used := 0 |} else g in
  '(g, sbOut) ← instrument_loop (tyenv sbIn) rest g sbOut;
  if clo_trace_mem then flushEvents g sbOut else Some (g, sbOut).

(** ** Specification vocabulary for the pass *)

(** The events in use: the first [events_used] slots of [events]. *)
Definition live (g : ev_state) : list Event :=
  take (Z.to_nat (events_used g)) (events g).

(** The array has its [N_EVENTS] slots and the count lies within it. *)
Definition buf_ok (g : ev_state) : Prop :=
  length (events g) = Z.to_nat N_EVENTS /\ 0 <= events_used g <= N_EVENTS.

(** The statements [flushEvents] adds for an event of kind [k]. *)
Definition helper_call (k : EventKind) (a : IRExpr) (sz : Z) : list IRStmt :=
  match helper_of k with
  | Some (helperName, helperAddr) =>
      [Ist_Dirty (unsafeIRDirty_0_N 2 helperName helperAddr
                    (mkIRExprVec_2 a (mkIRExpr_HWord (wrap64 sz))))]
  | None => []
  end.

Definition call_of (e : Event) : list IRStmt :=
  helper_call (ekind e) (addr e) (size e).

Definition calls (l : list Event) : list IRStmt := flat_map call_of l.

Definition add_stmts (sb : IRSB) (l : list IRStmt) : IRSB :=
  {| tyenv := tyenv sb; stmts := stmts sb ++ map Some l;
     sb_rest := sb_rest sb |}.

(** A call built by [unsafeIRDirty_0_N], as against a statement of the
    block that was instrumented. *)
Definition is_helper_call (st : IRStmt) : bool :=
  match st with
  | Ist_Dirty (unsafeIRDirty_0_N _ _ _ _) => true
  | _ => false
  end.

Definition helper_calls (l : list (option IRStmt)) : list IRStmt :=
  List.filter is_helper_call (omap id l).

Definition guest_stmts (l : list (option IRStmt)) : list IRStmt :=
  List.filter (fun st => negb (is_helper_call st)) (omap id l).

(** The entries before the first [Ist_IMark], and the rest. *)
Fixpoint preamble (l : list (option IRStmt)) : list (option IRStmt) :=
  match l with
  | [] => []
  | Some st :: l' => if is_IMark st then [] else Some st :: preamble l'
  | None :: l' => None :: preamble l'
  end.

Fixpoint body (l : list (option IRStmt)) : list (option IRStmt) :=
  match l with
  | [] => []
  | Some st :: l' => if is_IMark st then l else body l'
  | None :: l' => body l'
  end.

Definition is_NoOp (st : IRStmt) : bool :=
  match st with Ist_NoOp => true | _ => false end.

(** The statements of the block that the pass copies: the preamble as it
    is, the rest without its no-ops. *)
Definition kept (l : list (option IRStmt)) : list IRStmt :=
  omap id (preamble l)
  ++ List.filter (fun st => negb (is_NoOp st)) (omap id (body l)).

(** The memory events of a statement, in the order the pass meets them; an
    exit is a point where the pending events must have been notified. *)
Inductive item := It_event (e : Event) | It_exit.

Definition cas_size (tyenv : IRTypeEnv) (dataHi : option IRExpr)
    (dataLo : IRExpr) : Z :=
  match dataHi with
  | Some _ => to_Int (sizeofIRType (typeOfIRExpr tyenv dataLo) * 2)
  | None => sizeofIRType (typeOfIRExpr tyenv dataLo)
  end.

Definition stmt_items (tyenv : IRTypeEnv) (st : IRStmt) : list item :=
  match st with
  | Ist_IMark a len =>
      [It_event {| ekind := Event_Ir; addr := mkIRExpr_HWord (wrap64 a);
                   size := to_Int (to_UInt len) |}]
  | Ist_WrTmp _ data =>
      match Iex_Load_of data with
      | Some (ty, a) =>
          [It_event {| ekind := Event_Dr; addr := a; size := sizeofIRType ty |}]
      | None => []
      end
  | Ist_Store a data =>
      [It_event {| ekind := Event_Dw; addr := a;
                   size := sizeofIRType (typeOfIRExpr tyenv data) |}]
  | Ist_CAS (mkIRCAS (Some a) dataHi (Some dataLo) _) =>
      [It_event {| ekind := Event_Dr; addr := a;
                   size := cas_size tyenv dataHi dataLo |};
       It_event {| ekind := Event_Dw; addr := a;
                   size := cas_size tyenv dataHi dataLo |}]
  | Ist_LLSC result a None =>
      [It_event {| ekind := Event_Dr; addr := a;
                   size := sizeofIRType (typeOfIRTemp tyenv result) |}]
  | Ist_LLSC _ a (Some storedata) =>
      [It_event {| ekind := Event_Dw; addr := a;
                   size := sizeofIRType (typeOfIRExpr tyenv storedata) |}]
  | Ist_Exit _ => [It_exit]
  | _ => []
  end.

Definition block_items (tyenv : IRTypeEnv) (l : list (option IRStmt))
    : list item :=
  flat_map (stmt_items tyenv) (omap id (body l)).

(** The calls the comment above [events] asks for: every load and store is
    notified, in order; a store that comes right after a load of the same
    size at the same address is merged with it into one modify; an
    instruction fetch is not notified.  [pending] is a load that may still
    be merged. *)
Definition flush_pending (pending : option Event) : list IRStmt :=
  match pending with Some d => call_of d | None => [] end.

Fixpoint notified (pending : option Event) (l : list item) : list IRStmt :=
  match l with
  | [] => flush_pending pending
  | It_exit :: l' => flush_pending pending ++ notified None l'
  | It_event e :: l' =>
      match ekind e with
      | Event_Dr => flush_pending pending ++ notified (Some e) l'
      | Event_Dw =>
          match pending with
          | Some d =>
              if (size d =? size e) && eqIRAtom (addr d) (addr e)
              then helper_call Event_Dm (addr d) (size d) ++ notified None l'
              else call_of d ++ call_of e ++ notified None l'
          | None => call_of e ++ notified None l'
          end
      | _ => flush_pending pending ++ call_of e ++ notified None l'
      end
  end.

(** The load in the last slot in use, if there is one: the event a store
    may still be merged with. *)
Definition is_Dr (e : Event) : bool :=
  match ekind e with Event_Dr => true | _ => false end.

Definition pend (l : list Event) : option Event :=
  match last l with
  | Some e => if is_Dr e then Some e else None
  | None => None
  end.

(** The calls for the events in the buffer, that load apart. *)
Definition settled (l : list Event) : list IRStmt :=
  calls (match pend l with Some _ => removelast l | None => l end).

(** What the assertions of the pass ask of a statement: an instruction
    length the architecture allows, data addresses that are atoms, data
    sizes from 1 to [MAX_DSIZE], and the address and the low data word of a
    compare-and-swap present. *)
Definition dsize_ok (sz : Z) : Prop := 1 <= sz <= MAX_DSIZE.

Definition stmt_ok (tyenv : IRTypeEnv) (st : IRStmt) : Prop :=
  match st with
  | Ist_IMark _ len =>
      VG_MIN_INSTR_SZB <= to_UInt len <= VG_MAX_INSTR_SZB
      \/ VG_CLREQ_SZB = to_UInt len
  | Ist_WrTmp _ data =>
      match Iex_Load_of data with
      | Some (ty, a) => isIRAtom a = true /\ dsize_ok (sizeofIRType ty)
      | None => True
      end
  | Ist_Store a data =>
      isIRAtom a = true /\ dsize_ok (sizeofIRType (typeOfIRExpr tyenv data))
  | Ist_CAS (mkIRCAS (Some a) dataHi (Some dataLo) _) =>
      isIRAtom a = true /\ dsize_ok (cas_size tyenv dataHi dataLo)
  | Ist_CAS _ => False
  | Ist_LLSC result a None =>
      isIRAtom a = true /\ dsize_ok (sizeofIRType (typeOfIRTemp tyenv result))
  | Ist_LLSC _ a (Some storedata) =>
      isIRAtom a = true
      /\ dsize_ok (sizeofIRType (typeOfIRExpr tyenv storedata))
  | _ => True
  end.

(** A block the pass accepts: no null pointer before the first
    [Ist_IMark], every statement from there on as the assertions ask, and
    no call of the detector's helpers in the block yet. *)
Definition block_ok (sb : IRSB) : Prop :=
  Forall is_Some (preamble (stmts sb))
  /\ Forall (stmt_ok (tyenv sb)) (omap id (body (stmts sb)))
  /\ Forall (fun st => is_helper_call st = false) (omap id (stmts sb)).


(** ** Relations between two states of the pass *)

(** [stepped its g sb g' sb']: going from [(g, sb)] to [(g', sb')] has
    added helper calls only, and has dealt with the events [its] as
    [notified] asks. *)
Definition stepped (its : list item) (g : ev_state) (sb : IRSB)
    (g' : ev_state) (sb' : IRSB) : Prop :=
  buf_ok g'
  /\ (exists ext, sb' = add_stmts sb ext
        /\ Forall (fun st => is_helper_call st = true) ext)
  /\ forall rest,
       helper_calls (stmts sb') ++ settled (live g')
         ++ notified (pend (live g')) rest
       = helper_calls (stmts sb) ++ settled (live g)
           ++ notified (pend (live g)) (its ++ rest).

(** [ran te l g sb g' sb']: the second loop of the pass, run over the
    statements [l], has copied them without their no-ops and has dealt
    with their events. *)
Definition ran (te : IRTypeEnv) (l : list IRStmt) (g : ev_state) (sb : IRSB)
    (g' : ev_state) (sb' : IRSB) : Prop :=
  buf_ok g'
  /\ tyenv sb' = tyenv sb /\ sb_rest sb' = sb_rest sb
  /\ (exists ext, stmts sb' = stmts sb ++ map Some ext)
  /\ guest_stmts (stmts sb')
     = guest_stmts (stmts sb) ++ List.filter (fun st => negb (is_NoOp st)) l
  /\ forall rest,
       helper_calls (stmts sb') ++ settled (live g')
         ++ notified (pend (live g')) rest
       = helper_calls (stmts sb) ++ settled (live g)
           ++ notified (pend (live g)) (flat_map (stmt_items te) l ++ rest).

(** Every call of the instrumented block comes after the statements whose
    accesses it reports: the calls among the first statements of [out],
    however many are taken, open the list of the calls due for those
    statements. *)
Definition late (te : IRTypeEnv) (out : list (option IRStmt)) : Prop :=
  forall pre suf, out = pre ++ suf ->
    helper_calls pre `prefix_of` notified None (block_items te pre).

(** The pending events account for all the calls due and not yet made. *)
Definition accounted (te : IRTypeEnv) (g : ev_state) (sb : IRSB) : Prop :=
  forall rest,
    notified None (block_items te (stmts sb) ++ rest)
    = helper_calls (stmts sb) ++ settled (live g)
        ++ notified (pend (live g)) rest.

(** Library atoms are equal to themselves. *)
Definition eqIRAtom_refl : Prop :=
  forall a, isIRAtom a = true -> eqIRAtom a a = true.

(** Two states of the buffer that hold the same events in use. *)
Definition same_live (g1 g2 : ev_state) : Prop :=
  buf_ok g1 /\ buf_ok g2 /\ live g1 = live g2.

(** Two runs that fail together, or return the same block with the same
    events in use. *)
Definition agree (r1 r2 : option (ev_state * IRSB)) : Prop :=
  match r1, r2 with
  | Some (g1, sb1), Some (g2, sb2) => sb1 = sb2 /\ same_live g1 g2
  | None, None => True
  | _, _ => False
  end.

End pass.

(** ** A small IR for concrete blocks

    Expressions are temporaries, constants, loads and register reads; a
    type is given by its size in bytes, and the type environment gives the
    type of every temporary. *)

Inductive demo_expr :=
  | D_RdTmp (tmp : Z)
  | D_Const (con : Z)
  | D_Load (ty : Z) (a : demo_expr)
  | D_Get (offset : Z).

Definition demo_vex : Vex :=
  {| IRType := Z;
     IRType_eq_dec := Z.eq_dec;
     IRTypeEnv := Z -> Z;
     IRTemp := Z;
     IRExpr := demo_expr;
     IRRest := Z;
     sizeofIRType := fun ty => ty;
     typeOfIRExpr := fun te e =>
       match e with
       | D_RdTmp t => te t
       | D_Load ty _ => ty
       | _ => 8
       end;
     typeOfIRTemp := fun te t => te t;
     isIRAtom := fun e =>
       match e with D_RdTmp _ | D_Const _ => true | _ => false end;
     eqIRAtom := fun a b =>
       match a, b with
       | D_RdTmp x, D_RdTmp y => x =? y
       | D_Const x, D_Const y => x =? y
       | _, _ => false
       end;
     mkIRExpr_HWord := D_Const;
     Iex_Load_of := fun e =>
       match e with D_Load ty a => Some (ty, a) | _ => None end;
     VG_MIN_INSTR_SZB := 1;
     VG_MAX_INSTR_SZB := 15;
     VG_CLREQ_SZB := 19 |}.

#[local] Existing Instance demo_vex.

(** A block of four instructions: a load and a store of the same word, a
    load before a side exit, a store and a compare-and-swap, and three
    loads that fill the buffer. *)
Definition demo_block : IRSB :=
  {| tyenv := fun _ => 4;
     stmts :=
       [ Some (Ist_Put 0);
         Some (Ist_IMark 0x400000 3);
         Some (Ist_WrTmp 1 (D_Load 4 (D_RdTmp 0)));
         Some (Ist_Store (D_RdTmp 0) (D_RdTmp 1));
         Some Ist_NoOp;
         Some (Ist_IMark 0x400003 2);
         Some (Ist_WrTmp 2 (D_Load 4 (D_RdTmp 0)));
         Some (Ist_Exit 7);
         Some (Ist_IMark 0x400005 4);
         Some (Ist_Store (D_RdTmp 0) (D_RdTmp 2));
         Some (Ist_CAS (mkIRCAS (Some (D_RdTmp 3)) None (Some (D_RdTmp 1)) 0));
         Some (Ist_IMark 0x400009 5);
         Some (Ist_WrTmp 4 (D_Load 8 (D_RdTmp 5)));
         Some (Ist_WrTmp 6 (D_Load 2 (D_RdTmp 7)));
         Some (Ist_WrTmp 8 (D_Load 1 (D_RdTmp 9))) ];
     sb_rest := 0 |}.

(** The statements of [demo_block] before its exit, and after it. *)
Definition demo_before_exit : list (option IRStmt) := take 7 (stmts demo_block).
Definition demo_after_exit : list (option IRStmt) := drop 8 (stmts demo_block).

(** The statements before its compare-and-swap, and after it. *)
Definition demo_before_cas : list (option IRStmt) := take 10 (stmts demo_block).
Definition demo_after_cas : list (option IRStmt) := drop 11 (stmts demo_block).

(** The buffer as a block before may have left it. *)
Definition demo_buffer : ev_state :=
  {| events := replicate 4 {| ekind := Event_Dw; addr := D_RdTmp 9; size := 8 |};
     events_used := 3 |}.

(** The buffer as the tool starts: the statics are zero. *)
Definition demo_buffer_start : ev_state :=
  {| events := replicate 4 {| ekind := Event_Ir; addr := D_Const 0; size := 0 |};
     events_used := 0 |}.

Definition demo_call (name : string) (f : HelperFn) (a : demo_expr) (sz : Z)
    : IRStmt :=
  Ist_Dirty (unsafeIRDirty_0_N 2 name f [a; D_Const sz]).

End Instrument.

(** * Allocation lists *)

Section chains.
Context {A : Type} (prev : A -> Z).

Lemma chain_frame h h' p l :
  chain prev h p l ->
  (forall x n, x ∈ l -> h !! x = Some n ->
     exists n', h' !! x = Some n' /\ prev n' = prev n) ->
  chain prev h' p l.
Proof.
  revert p. induction l as [|q l IH]; intros p Hc Hf; simpl in *; [done|].
  destruct Hc as (-> & Hq & n & Hn & Hc).
  destruct (Hf q n) as (n' & Hn' & Hp); [left | done |].
  split; [done|]. split; [done|]. exists n'. split; [done|].
  rewrite Hp. apply IH; [done|].
  intros x m Hx Hm. apply (Hf x m); [by right | done].
Qed.

Lemma chain_elem h p l x : chain prev h p l -> x ∈ l -> is_Some (h !! x).
Proof.
  revert p. induction l as [|q l IH]; intros p Hc Hx; simpl in *.
  - by apply elem_of_nil in Hx.
  - destruct Hc as (-> & _ & n & Hn & Hc).
    apply elem_of_cons in Hx as [->|Hx]; [by exists n | by eapply IH].
Qed.

Lemma chain_length h p l : chain prev h p l -> NoDup l -> (length l <= size h)%nat.
Proof.
  intros Hc Hnd.
  assert (Hsub : (list_to_set l : gset Z) ⊆ dom h).
  { intros x Hx. apply elem_of_list_to_set in Hx. apply elem_of_dom.
    by eapply chain_elem. }
  apply subseteq_size in Hsub.
  rewrite size_list_to_set in Hsub; [|done].
  by rewrite size_dom in Hsub.
Qed.
End chains.

(** ** The three loops of [ct_clear_pagetab] free what the lists hold *)

Lemma free_pages_chain l : forall fuel p hp,
  chain prev_alloc_page hp p l -> NoDup l -> (length l <= fuel)%nat ->
  exists hp', free_pages fuel p hp = Some hp'
    /\ (forall x, x ∈ l -> hp' !! x = None)
    /\ (forall x, x ∉ l -> hp' !! x = hp !! x).
Proof.
  induction l as [|q l IH]; intros fuel p hp Hc Hnd Hfuel; simpl in Hc.
  - subst p. exists hp. split; [by destruct fuel|].
    split; [intros x Hx; by apply elem_of_nil in Hx | done].
  - destruct Hc as (-> & Hq & n & Hn & Hc).
    apply NoDup_cons in Hnd as [Hql Hnd].
    destruct fuel as [|fuel]; [simpl in Hfuel; lia|]. simpl in Hfuel.
    destruct (IH fuel (prev_alloc_page n) (delete q hp)) as (hp' & Hrun & Hin & Hout).
    { eapply chain_frame; [exact Hc|]. intros x m Hx Hm. exists m. split; [|done].
      rewrite lookup_delete_ne; [done|]. intros ->. done. }
    { done. } { lia. }
    exists hp'. split.
    { simpl. destruct (Z.eqb_spec q 0); [done|]. rewrite Hn. simpl. exact Hrun. }
    split.
    + intros x Hx. apply elem_of_cons in Hx as [->|Hx]; [|by apply Hin].
      rewrite Hout; [|done]. apply lookup_delete_eq.
    + intros x Hx. apply not_elem_of_cons in Hx as [Hxq Hx].
      rewrite Hout; [|done]. by apply lookup_delete_ne.
Qed.

Lemma free_pagetabs_L1_chain (fp : Z -> list Z) c1 : forall fuel p h1 hp,
  chain prev_alloc_pagetab_L1 h1 p c1 -> NoDup c1 -> (length c1 <= fuel)%nat ->
  (forall r n, r ∈ c1 -> h1 !! r = Some n ->
     chain prev_alloc_page hp (last_alloc_page n) (fp r) /\ NoDup (fp r)) ->
  (forall r r' x, r ∈ c1 -> r' ∈ c1 -> x ∈ fp r -> x ∈ fp r' -> r = r') ->
  exists h1' hp', free_pagetabs_L1 fuel p h1 hp = Some (h1', hp')
    /\ (forall x, x ∈ c1 -> h1' !! x = None)
    /\ (forall x, x ∉ c1 -> h1' !! x = h1 !! x)
    /\ (forall x r, r ∈ c1 -> x ∈ fp r -> hp' !! x = None)
    /\ (forall x, (forall r, r ∈ c1 -> x ∉ fp r) -> hp' !! x = hp !! x).
Proof.
  induction c1 as [|q c1 IH]; intros fuel p h1 hp Hc Hnd Hfuel Hsub Hdisj;
    simpl in Hc.
  - subst p. exists h1, hp. split; [by destruct fuel|].
    repeat split; try done; intros; by match goal with
      H : _ ∈ [] |- _ => apply elem_of_nil in H end.
  - destruct Hc as (-> & Hq & n & Hn & Hc).
    apply NoDup_cons in Hnd as [Hql Hnd].
    destruct fuel as [|fuel]; [simpl in Hfuel; lia|]. simpl in Hfuel.
    destruct (Hsub q n) as [Hcp Hndp]; [left | done |].
    destruct (free_pages_chain (fp q) (size hp) (last_alloc_page n) hp)
      as (hp1 & Hrun1 & Hin1 & Hout1); [done | done | by eapply chain_length |].
    destruct (IH fuel (prev_alloc_pagetab_L1 n) (delete q h1) hp1)
      as (h1' & hp' & Hrun & Hin & Hout & Hpin & Hpout).
    { eapply chain_frame; [exact Hc|]. intros x m Hx Hm. exists m. split; [|done].
      rewrite lookup_delete_ne; [done|]. intros ->. done. }
    { done. } { lia. }
    { intros r m Hr Hm.
      assert (r <> q) by (intros ->; done).
      rewrite lookup_delete_ne in Hm; [|done].
      destruct (Hsub r m) as [Hcr Hndr]; [by right | done |].
      split; [|done].
      eapply chain_frame; [exact Hcr|]. intros x k Hx Hk. exists k. split; [|done].
      rewrite Hout1; [done|]. intros Hxq.
      apply H. apply (Hdisj r q x); [by right | left | done | done]. }
    { intros r r' x Hr Hr'. apply Hdisj; by right. }
    exists h1', hp'. split.
    { simpl. destruct (Z.eqb_spec q 0); [done|]. rewrite Hn. simpl.
      rewrite Hrun1. simpl. exact Hrun. }
    split; [|split; [|split]].
    + intros x Hx. apply elem_of_cons in Hx as [->|Hx]; [|by apply Hin].
      rewrite Hout; [|done]. apply lookup_delete_eq.
    + intros x Hx. apply not_elem_of_cons in Hx as [Hxq Hx].
      rewrite Hout; [|done]. by apply lookup_delete_ne.
    + intros x r Hr Hx. apply elem_of_cons in Hr as [->|Hr].
      * rewrite Hpout; [by apply Hin1|].
        intros r Hr Hxr. apply Hql.
        assert (r = q) as <-; [|done].
        apply (Hdisj r q x); [by right | left | done | done].
      * by apply (Hpin x r).
    + intros x Hx. rewrite Hpout.
      * apply Hout1. apply Hx. left.
      * intros r Hr. apply Hx. by right.
Qed.

Lemma free_pagetabs_L2_chain (f1 fp : Z -> list Z) c2 : forall fuel p h2 h1 hp,
  chain prev_alloc_pagetab_L2 h2 p c2 -> NoDup c2 -> (length c2 <= fuel)%nat ->
  (forall q n, q ∈ c2 -> h2 !! q = Some n ->
     chain prev_alloc_pagetab_L1 h1 (last_alloc_pagetab_L1 n) (f1 q)
     /\ NoDup (f1 q)) ->
  (forall q r n, q ∈ c2 -> r ∈ f1 q -> h1 !! r = Some n ->
     chain prev_alloc_page hp (last_alloc_page n) (fp r) /\ NoDup (fp r)) ->
  (forall q q' r, q ∈ c2 -> q' ∈ c2 -> r ∈ f1 q -> r ∈ f1 q' -> q = q') ->
  (forall q q' r r' x, q ∈ c2 -> q' ∈ c2 -> r ∈ f1 q -> r' ∈ f1 q' ->
     x ∈ fp r -> x ∈ fp r' -> r = r') ->
  exists h2' h1' hp', free_pagetabs_L2 fuel p h2 h1 hp = Some (h2', h1', hp')
    /\ (forall x, x ∈ c2 -> h2' !! x = None)
    /\ (forall x, x ∉ c2 -> h2' !! x = h2 !! x)
    /\ (forall x q, q ∈ c2 -> x ∈ f1 q -> h1' !! x = None)
    /\ (forall x, (forall q, q ∈ c2 -> x ∉ f1 q) -> h1' !! x = h1 !! x)
    /\ (forall x q r, q ∈ c2 -> r ∈ f1 q -> x ∈ fp r -> hp' !! x = None)
    /\ (forall x, (forall q r, q ∈ c2 -> r ∈ f1 q -> x ∉ fp r) ->
          hp' !! x = hp !! x).
Proof.
  induction c2 as [|q c2 IH]; intros fuel p h2 h1 hp Hc Hnd Hfuel H1 Hp D1 D2;
    simpl in Hc.
  - subst p. exists h2, h1, hp. split; [by destruct fuel|].
    repeat split; try done; intros; by match goal with
      H : _ ∈ [] |- _ => apply elem_of_nil in H end.
  - destruct Hc as (-> & Hq & n & Hn & Hc).
    apply NoDup_cons in Hnd as [Hql Hnd].
    destruct fuel as [|fuel]; [simpl in Hfuel; lia|]. simpl in Hfuel.
    destruct (H1 q n) as [Hc1 Hnd1]; [left | done |].
    destruct (free_pagetabs_L1_chain fp (f1 q) (size h1)
                (last_alloc_pagetab_L1 n) h1 hp)
      as (h1a & hpa & Hrun1 & Hin1 & Hout1 & Hpin1 & Hpout1).
    { done. } { done. } { by eapply chain_length. }
    { intros r m Hr Hm. apply (Hp q r m); [left | done | done]. }
    { intros r r' x Hr Hr'. apply (D2 q q); (left || done). }
    assert (Hsep : forall q' r, q' ∈ c2 -> r ∈ f1 q' -> r ∉ f1 q).
    { intros q' r Hq' Hr Hrq. apply Hql.
      assert (q' = q) as <-; [|done].
      apply (D1 q' q r); [by right | left | done | done]. }
    assert (Hsepp : forall q' r x, q' ∈ c2 -> r ∈ f1 q' -> x ∈ fp r ->
                      forall r0, r0 ∈ f1 q -> x ∉ fp r0).
    { intros q' r x Hq' Hr Hx r0 Hr0 Hx0. apply (Hsep q' r Hq' Hr).
      assert (r = r0) as ->; [|done].
      apply (D2 q' q r r0 x); [by right | left | done..]. }
    destruct (IH fuel (prev_alloc_pagetab_L2 n) (delete q h2) h1a hpa)
      as (h2' & h1' & hp' & Hrun & Hin & Hout & H1in & H1out & Hpin & Hpout).
    { eapply chain_frame; [exact Hc|]. intros x m Hx Hm. exists m. split; [|done].
      rewrite lookup_delete_ne; [done|]. intros ->. done. }
    { done. } { lia. }
    { intros q' m Hq' Hm.
      assert (q' <> q) by (intros ->; done).
      rewrite lookup_delete_ne in Hm; [|done].
      destruct (H1 q' m) as [Hcq Hndq]; [by right | done |].
      split; [|done].
      eapply chain_frame; [exact Hcq|]. intros x k Hx Hk. exists k.
      split; [|done]. rewrite Hout1; [done|]. by eapply Hsep. }
    { intros q' r m Hq' Hr Hm.
      rewrite Hout1 in Hm; [|by eapply Hsep].
      destruct (Hp q' r m) as [Hcr Hndr]; [by right | done | done |].
      split; [|done].
      eapply chain_frame; [exact Hcr|]. intros x k Hx Hk. exists k.
      split; [|done]. rewrite Hpout1; [done|]. by eapply Hsepp. }
    { intros q1 q2 r Hq1 Hq2. apply D1; by right. }
    { intros q1 q2 r r' x Hq1 Hq2. apply D2; by right. }
    exists h2', h1', hp'. split.
    { simpl. destruct (Z.eqb_spec q 0); [done|]. rewrite Hn. simpl.
      rewrite Hrun1. simpl. exact Hrun. }
    split; [|split; [|split; [|split; [|split]]]].
    + intros x Hx. apply elem_of_cons in Hx as [->|Hx]; [|by apply Hin].
      rewrite Hout; [|done]. apply lookup_delete_eq.
    + intros x Hx. apply not_elem_of_cons in Hx as [Hxq Hx].
      rewrite Hout; [|done]. by apply lookup_delete_ne.
    + intros x q' Hq' Hx. apply elem_of_cons in Hq' as [->|Hq'];
        [|by apply (H1in x q')].
      rewrite H1out; [by apply Hin1|].
      intros q' Hq' Hx'. by apply (Hsep q' x).
    + intros x Hx. rewrite H1out.
      * apply Hout1. apply Hx. left.
      * intros q' Hq'. apply Hx. by right.
    + intros x q' r Hq' Hr Hx. apply elem_of_cons in Hq' as [->|Hq'];
        [|by apply (Hpin x q' r)].
      rewrite Hpout; [by apply (Hpin1 x r)|].
      intros q' r' Hq' Hr' Hx'. by apply (Hsepp q' r' x Hq' Hr' Hx' r).
    + intros x Hx. rewrite Hpout.
      * apply Hpout1. intros r Hr. apply (Hx q r); [left | done].
      * intros q' r Hq'. apply Hx. by right.
Qed.

(** * Frames and the empty table *)

Lemma same_table_wf s s' : same_table s s' -> ct_wf s -> ct_wf s'.
Proof.
  destruct s, s'. unfold same_table. simpl.
  intros (-> & -> & -> & -> & ->) [H1 H2 H3 H4 H5 H6 H7 H8 H9 H10 H11].
  split; try done.
  destruct H11 as (c2 & f1 & fp & [C1 C2 C3 C4 C5 C6 C7 C8 C9]).
  exists c2, f1, fp. split; done.
Qed.

Lemma same_table_owner s s' a : same_table s s' -> owner_of s' a = owner_of s a.
Proof.
  destruct s, s'. unfold same_table. simpl.
  by intros (-> & -> & -> & -> & ->).
Qed.

Lemma slot_empty i : slot ∅ i = 0.
Proof. unfold slot. by rewrite lookup_empty. Qed.

Lemma slot_insert m i j v :
  slot (<[i := v]> m) j = if decide (i = j) then v else slot m j.
Proof.
  unfold slot. destruct (decide (i = j)) as [->|].
  - by rewrite lookup_insert_eq.
  - by rewrite lookup_insert_ne.
Qed.

Lemma slot_nonzero m i : slot m i <> 0 -> m !! i = Some (slot m i).
Proof. unfold slot. by destruct (m !! i). Qed.

Lemma empty_table_wf s :
  g_ct_pagetab_L3 s = {| pagetabs_L2 := ∅; last_alloc_pagetab_L2 := 0 |} ->
  heap_L2 s = ∅ -> heap_L1 s = ∅ -> heap_page s = ∅ -> 0 < heap_next s ->
  ct_wf s.
Proof.
  intros H3 H2 H1 Hp Hn.
  split; unfold l2_of, l1_of, page_of; rewrite ?H3, ?H2, ?H1, ?Hp; simpl.
  all: try (intros; lia).
  all: try (intros ? [? Hx]; by rewrite lookup_empty in Hx).
  all: try (intros; by match goal with H : ∅ !! _ = Some _ |- _ =>
           rewrite lookup_empty in H end).
  - intros a b H. by rewrite slot_empty in H.
  - intros a b H. by rewrite lookup_empty in H.
  - intros a b H. by rewrite lookup_empty in H.
  - exists [], (fun _ => []), (fun _ => []).
    split; rewrite ?H3, ?H2, ?H1, ?Hp; simpl; try done; try apply NoDup_nil_2.
    all: try (intros ? [? Hx]; by rewrite lookup_empty in Hx).
    all: try (intros; by match goal with H : ∅ !! _ = Some _ |- _ =>
           rewrite lookup_empty in H end).
    all: intros ? ? ? _ _ Hx; by apply elem_of_nil in Hx.
Qed.

Lemma ct_init_wf pc : ct_wf (ct_init pc).
Proof. by apply empty_table_wf. Qed.

(** [ct_clear_pagetab] returns on every well-formed table and leaves no
    node behind. *)
Lemma ct_clear_pagetab_spec s :
  ct_wf s ->
  exists s', ct_clear_pagetab s = Some s'
    /\ g_ct_pagetab_L3 s' = {| pagetabs_L2 := ∅; last_alloc_pagetab_L2 := 0 |}
    /\ heap_L2 s' = ∅ /\ heap_L1 s' = ∅ /\ heap_page s' = ∅
    /\ heap_next s' = heap_next s
    /\ same_control s s' /\ ct_out s' = ct_out s.
Proof.
  intros Hwf. destruct (wf_chains s Hwf) as (c2 & f1 & fp & C).
  destruct C as [C2 N2 A2 C1 A1 D1 Cp Ap Dp].
  destruct (free_pagetabs_L2_chain f1 fp c2 (size (heap_L2 s))
              (last_alloc_pagetab_L2 (g_ct_pagetab_L3 s))
              (heap_L2 s) (heap_L1 s) (heap_page s))
    as (h2 & h1 & hp & Hrun & Hin2 & Hout2 & Hin1 & Hout1 & Hinp & Houtp).
  { done. } { done. } { by eapply chain_length. }
  { intros q n _ Hn. by apply C1. }
  { intros q r n _ _ Hn. by apply Cp. }
  { intros q q' r Hq Hq'. apply D1; by eapply chain_elem. }
  { intros q q' r r' x Hq Hq' Hr Hr'.
    destruct (chain_elem _ _ _ _ q C2 Hq) as [n Hn].
    destruct (chain_elem _ _ _ _ q' C2 Hq') as [n' Hn'].
    apply Dp.
    - eapply chain_elem; [apply (C1 q n Hn) | done].
    - eapply chain_elem; [apply (C1 q' n' Hn') | done]. }
  assert (E2 : h2 = ∅).
  { apply map_empty. intros x. destruct (decide (x ∈ c2)) as [Hx|Hx].
    - by apply Hin2.
    - rewrite Hout2; [|done]. apply eq_None_not_Some. intros Hs. by apply Hx, A2. }
  assert (E1 : h1 = ∅).
  { apply map_empty. intros x.
    destruct (heap_L1 s !! x) as [n|] eqn:Hx.
    - destruct (A1 x) as (q & Hq & Hxq); [by exists n|].
      apply (Hin1 x q); [|done]. by apply A2.
    - destruct (h1 !! x) as [m|] eqn:Hm; [|done].
      rewrite <- Hx, <- Hm. apply Hout1. intros q Hq Hxq.
      destruct (chain_elem _ _ _ _ q C2 Hq) as [n Hn].
      destruct (chain_elem _ _ _ _ x (proj1 (C1 q n Hn)) Hxq) as [k Hk].
      by rewrite Hx in Hk. }
  assert (Ep : hp = ∅).
  { apply map_empty. intros x.
    destruct (heap_page s !! x) as [n|] eqn:Hx.
    - destruct (Ap x) as (r & Hr & Hxr); [by exists n|].
      destruct (A1 r Hr) as (q & Hq & Hrq).
      apply (Hinp x q r); [by apply A2 | done | done].
    - destruct (hp !! x) as [m|] eqn:Hm; [|done].
      rewrite <- Hx, <- Hm. apply Houtp. intros q r Hq Hrq Hxr.
      destruct (chain_elem _ _ _ _ q C2 Hq) as [n Hn].
      destruct (chain_elem _ _ _ _ r (proj1 (C1 q n Hn)) Hrq) as [k Hk].
      destruct (chain_elem _ _ _ _ x (proj1 (Cp r k Hk)) Hxr) as [k' Hk'].
      by rewrite Hx in Hk'. }
  subst h2 h1 hp.
  eexists. split.
  { unfold ct_clear_pagetab. rewrite Hrun. simpl. reflexivity. }
  simpl. unfold same_control. simpl. done.
Qed.

(** * [ct_get_page] on a well-formed table *)

Lemma wf_null2 s : ct_wf s -> heap_L2 s !! 0 = None.
Proof.
  intros Hwf. apply eq_None_not_Some. intros H.
  apply (wf_dom2 s Hwf) in H. lia.
Qed.

Lemma wf_null1 s : ct_wf s -> heap_L1 s !! 0 = None.
Proof.
  intros Hwf. apply eq_None_not_Some. intros H.
  apply (wf_dom1 s Hwf) in H. lia.
Qed.

Lemma wf_nullp s : ct_wf s -> heap_page s !! 0 = None.
Proof.
  intros Hwf. apply eq_None_not_Some. intros H.
  apply (wf_domp s Hwf) in H. lia.
Qed.

Lemma l2_of_some s b : ct_wf s -> l2_of s b <> 0 -> is_Some (heap_L2 s !! l2_of s b).
Proof.
  intros Hwf H. apply slot_nonzero in H. by apply (wf_slot3 s Hwf) in H.
Qed.

Lemma l1_of_some s b : ct_wf s -> l1_of s b <> 0 -> is_Some (heap_L1 s !! l1_of s b).
Proof.
  intros Hwf H. unfold l1_of in *.
  destruct (heap_L2 s !! l2_of s b) as [n|] eqn:Hn; [|done].
  apply slot_nonzero in H. by apply (wf_slot2 s Hwf _ _ _ _ Hn) in H.
Qed.

Lemma page_of_some s b :
  ct_wf s -> page_of s b <> 0 -> is_Some (heap_page s !! page_of s b).
Proof.
  intros Hwf H. unfold page_of in *.
  destruct (heap_L1 s !! l1_of s b) as [n|] eqn:Hn; [|done].
  apply slot_nonzero in H. by apply (wf_slot1 s Hwf _ _ _ _ Hn) in H.
Qed.

Lemma l2_of_lt s b : ct_wf s -> l2_of s b < heap_next s.
Proof.
  intros Hwf. destruct (decide (l2_of s b = 0)) as [E|H].
  - rewrite E. apply (wf_next s Hwf).
  - apply l2_of_some in H; [|done]. apply (wf_dom2 s Hwf) in H. lia.
Qed.

Lemma l1_of_lt s b : ct_wf s -> l1_of s b < heap_next s.
Proof.
  intros Hwf. destruct (decide (l1_of s b = 0)) as [E|H].
  - rewrite E. apply (wf_next s Hwf).
  - apply l1_of_some in H; [|done]. apply (wf_dom1 s Hwf) in H. lia.
Qed.

Lemma page_of_lt s b : ct_wf s -> page_of s b < heap_next s.
Proof.
  intros Hwf. destruct (decide (page_of s b = 0)) as [E|H].
  - rewrite E. apply (wf_next s Hwf).
  - apply page_of_some in H; [|done]. apply (wf_domp s Hwf) in H. lia.
Qed.

Lemma ct_get_pagetab_L2_spec a s :
  ct_wf s ->
  let q := (ct_get_pagetab_L2 a s).1 in
  let s' := (ct_get_pagetab_L2 a s).2 in
  ct_wf s' /\ l2_of s' a = q /\ is_Some (heap_L2 s' !! q)
  /\ (forall b, page_of s' b = page_of s b)
  /\ heap_page s' = heap_page s
  /\ same_control s s' /\ ct_out s' = ct_out s.
Proof.
  intros Hwf. unfold ct_get_pagetab_L2. cbv zeta.
  set (v := slot (pagetabs_L2 (g_ct_pagetab_L3 s)) (L2_PAGETAB a)).
  set (c := v =? 0).
  destruct c eqn:Hc; unfold c in Hc; st_simpl.
  2: { apply Z.eqb_neq in Hc. split; [done|]. split; [done|].
       split; [by apply l2_of_some|]. unfold same_control. done. }
  apply Z.eqb_eq in Hc. unfold v in Hc. clear v c. rename Hc into Hz.
  set (p := heap_next s).
  set (n := {| pagetabs_L1 := ∅; last_alloc_pagetab_L1 := 0;
               prev_alloc_pagetab_L2 := last_alloc_pagetab_L2 (g_ct_pagetab_L3 s) |}).
  match goal with |- ct_wf ?s1 /\ _ => set (s' := s1) end.
  assert (Hp : 0 < p) by apply (wf_next s Hwf).
  assert (Hfresh : heap_L2 s !! p = None).
  { apply eq_None_not_Some. intros H. apply (wf_dom2 s Hwf) in H. unfold p in H. lia. }
  assert (Hl2 : forall b, l2_of s' b = if decide (L2_PAGETAB a = L2_PAGETAB b) then p else l2_of s b).
  { intros b. unfold l2_of, s'. st_simpl. apply slot_insert. }
  assert (Hl1 : forall b, l1_of s' b = l1_of s b).
  { intros b. unfold l1_of. rewrite Hl2. unfold s' at 1. st_simpl.
    destruct (decide (L2_PAGETAB a = L2_PAGETAB b)) as [E|E].
    - rewrite lookup_insert_eq. st_simpl. rewrite slot_empty.
      unfold l2_of. rewrite <- E, Hz. by rewrite wf_null2.
    - rewrite lookup_insert_ne; [done|].
      pose proof (l2_of_lt s b Hwf). unfold p. lia. }
  assert (Hpg : forall b, page_of s' b = page_of s b).
  { intros b. unfold page_of. by rewrite Hl1. }
  destruct Hwf as [Wn D2 D1 Dp S3 S2 S1 I2 I1 Ip (c2 & f1 & fp & C)].
  assert (Wn' : 0 < p + 1) by lia.
  split; [|split; [|split]].
  - split; unfold s'; st_simpl.
    + done.
    + intros x Hx. apply lookup_insert_is_Some in Hx as [<-|[_ Hx]]; [lia|].
      apply D2 in Hx. unfold p. lia.
    + intros x Hx. apply D1 in Hx. unfold p. lia.
    + intros x Hx. apply Dp in Hx. unfold p. lia.
    + intros i x Hx. apply lookup_insert_is_Some.
      destruct (decide (L2_PAGETAB a = i)) as [<-|Hi].
      * rewrite lookup_insert_eq in Hx. injection Hx as <-. by left.
      * rewrite lookup_insert_ne in Hx; [|done]. apply S3 in Hx. right.
        split; [|done]. intros <-. by rewrite Hfresh in Hx; destruct Hx.
    + intros q m i x Hq Hx. destruct (decide (p = q)) as [<-|Hpq].
      * rewrite lookup_insert_eq in Hq. injection Hq as <-.
        unfold n in Hx. st_simpl in Hx. by rewrite lookup_empty in Hx.
      * rewrite lookup_insert_ne in Hq; [|done]. by eapply S2.
    + done.
    + fold s'. intros x y. rewrite !Hl2.
      destruct (decide (L2_PAGETAB a = L2_PAGETAB x)) as [Ex|Ex];
        destruct (decide (L2_PAGETAB a = L2_PAGETAB y)) as [Ey|Ey].
      * congruence.
      * intros _ E. exfalso.
        assert (Hs : is_Some (heap_L2 s !! p)).
        { rewrite E. apply S3 with (i := L2_PAGETAB y). apply slot_nonzero.
          fold (l2_of s y). lia. }
        rewrite Hfresh in Hs. by destruct Hs.
      * intros Hn E. exfalso.
        assert (Hs : is_Some (heap_L2 s !! p)).
        { rewrite <- E. apply S3 with (i := L2_PAGETAB x). by apply slot_nonzero. }
        rewrite Hfresh in Hs. by destruct Hs.
      * apply I2.
    + fold s'. intros x y. rewrite !Hl1. apply I1.
    + fold s'. intros x y. rewrite !Hpg. apply Ip.
    + destruct C as [C2 N2 A2 C1 A1 X1 Cp Ap Xp].
      exists (p :: c2), (fun x => if decide (x = p) then [] else f1 x), fp.
      split; st_simpl.
      * split; [done|]. split; [lia|]. exists n. split; [apply lookup_insert_eq|].
        eapply chain_frame; [exact C2|]. intros x m Hx Hm. exists m. split; [|done].
        rewrite lookup_insert_ne; [done|]. intros <-. by rewrite Hfresh in Hm.
      * apply NoDup_cons. split; [|done]. intros Hin.
        apply (chain_elem _ _ _ _ p C2) in Hin. rewrite Hfresh in Hin. by destruct Hin.
      * intros x Hx. apply lookup_insert_is_Some in Hx as [<-|[_ Hx]]; [left|].
        right. by apply A2.
      * intros x m Hx. destruct (decide (x = p)) as [->|Hxp].
        -- rewrite lookup_insert_eq in Hx. injection Hx as <-. st_simpl.
           split; [done | apply NoDup_nil_2].
        -- rewrite lookup_insert_ne in Hx; [|done]. by apply C1.
      * intros r Hr. destruct (A1 r Hr) as (x & Hx & Hrx). exists x.
        assert (x <> p) by (intros ->; rewrite Hfresh in Hx; by destruct Hx).
        split; [|by destruct (decide (x = p))].
        apply lookup_insert_is_Some. right. done.
      * intros x y r Hx Hy. destruct (decide (x = p)) as [->|Hxp].
        { intros Hr. by apply elem_of_nil in Hr. }
        destruct (decide (y = p)) as [->|Hyp].
        { intros _ Hr. by apply elem_of_nil in Hr. }
        rewrite lookup_insert_ne in Hx; [|done].
        rewrite lookup_insert_ne in Hy; [|done]. by apply X1.
      * done.
      * done.
      * done.
  - rewrite Hl2. by destruct (decide (L2_PAGETAB a = L2_PAGETAB a)).
  - unfold s'. st_simpl. fold p. rewrite lookup_insert_eq. by exists n.
  - unfold same_control, s'. st_simpl. done.
Qed.

Lemma ct_get_pagetab_L1_spec a q s :
  ct_wf s -> l2_of s a = q -> is_Some (heap_L2 s !! q) ->
  exists r s', ct_get_pagetab_L1 a q s = Some (r, s')
    /\ ct_wf s' /\ l1_of s' a = r /\ is_Some (heap_L1 s' !! r)
    /\ (forall b, page_of s' b = page_of s b)
    /\ heap_page s' = heap_page s
    /\ same_control s s' /\ ct_out s' = ct_out s.
Proof.
  intros Hwf Hq [n2 Hn2]. unfold ct_get_pagetab_L1. rewrite Hn2.
  cbn [mbind option_bind]. cbv zeta.
  assert (Hl1a : l1_of s a = slot (pagetabs_L1 n2) (L1_PAGETAB a)).
  { unfold l1_of. by rewrite Hq, Hn2. }
  set (v := slot (pagetabs_L1 n2) (L1_PAGETAB a)) in *.
  set (c := v =? 0).
  destruct c eqn:Hc; unfold c in Hc.
  2: { apply Z.eqb_neq in Hc. exists v, s. split; [done|]. split; [done|].
       split; [done|]. split; [|done]. rewrite <- Hl1a. apply l1_of_some; [done|].
       by rewrite Hl1a. }
  apply Z.eqb_eq in Hc. clear c. rename Hc into Hz.
  set (p := heap_next s).
  set (n := {| pages := ∅; last_alloc_page := 0;
               prev_alloc_pagetab_L1 := last_alloc_pagetab_L1 n2 |}).
  set (n2' := {| pagetabs_L1 := <[L1_PAGETAB a := p]> (pagetabs_L1 n2);
                 last_alloc_pagetab_L1 := p;
                 prev_alloc_pagetab_L2 := prev_alloc_pagetab_L2 n2 |}).
  match goal with |- exists _ _, Some (_, ?s1) = _ /\ _ => set (s' := s1) end.
  exists p, s'. split; [done|].
  assert (Hp : 0 < p) by apply (wf_next s Hwf).
  assert (Hfresh : heap_L1 s !! p = None).
  { apply eq_None_not_Some. intros H. apply (wf_dom1 s Hwf) in H. unfold p in H. lia. }
  assert (Hl1 : forall b, l1_of s' b =
            if decide (l2_of s b = q /\ L1_PAGETAB a = L1_PAGETAB b)
            then p else l1_of s b).
  { intros b. unfold l1_of. change (l2_of s' b) with (l2_of s b).
    unfold s' at 1. st_simpl.
    destruct (decide (l2_of s b = q /\ L1_PAGETAB a = L1_PAGETAB b)) as [[E1 E2]|E].
    - rewrite E1, lookup_insert_eq. unfold n2'. st_simpl. rewrite slot_insert.
      by destruct (decide (L1_PAGETAB a = L1_PAGETAB b)).
    - destruct (decide (l2_of s b = q)) as [E1|E1].
      + rewrite E1, lookup_insert_eq, Hn2. unfold n2'. st_simpl. rewrite slot_insert.
        destruct (decide (L1_PAGETAB a = L1_PAGETAB b)); [|done]. by destruct E.
      + rewrite lookup_insert_ne; [done|]. congruence. }
  assert (Hpg : forall b, page_of s' b = page_of s b).
  { intros b. unfold page_of. rewrite Hl1. unfold s' at 1. st_simpl.
    destruct (decide (l2_of s b = q /\ L1_PAGETAB a = L1_PAGETAB b)) as [[E1 E2]|E].
    - rewrite lookup_insert_eq. unfold n. st_simpl. rewrite slot_empty.
      assert (l1_of s b = 0) as ->.
      { unfold l1_of. rewrite E1, Hn2, <- E2. exact Hz. }
      by rewrite wf_null1.
    - rewrite lookup_insert_ne; [done|].
      pose proof (l1_of_lt s b Hwf). unfold p. lia. }
  assert (Hq0 : 0 < q < heap_next s) by (apply (wf_dom2 s Hwf); by exists n2).
  destruct Hwf as [Wn D2 D1 Dp S3 S2 S1 I2 I1 Ip (c2 & f1 & fp & C)].
  assert (Hdom2 : forall x, is_Some (heap_L2 s' !! x) <-> is_Some (heap_L2 s !! x)).
  { intros x. unfold s'. st_simpl. rewrite lookup_insert_is_Some.
    split; [|by destruct (decide (q = x)); auto].
    intros [<-|[_ H]]; [by exists n2 | done]. }
  split; [|split; [|split]].
  - split; unfold s'; st_simpl.
    + lia.
    + intros x Hx. apply Hdom2 in Hx. apply D2 in Hx. unfold p. lia.
    + intros x Hx. apply lookup_insert_is_Some in Hx as [<-|[_ Hx]]; [lia|].
      apply D1 in Hx. unfold p. lia.
    + intros x Hx. apply Dp in Hx. unfold p. lia.
    + intros i x Hx. apply (Hdom2 x). by eapply S3.
    + intros y m i x Hy Hx. apply lookup_insert_is_Some.
      destruct (decide (p = x)) as [|Hpx]; [by left|]. right. split; [done|].
      destruct (decide (q = y)) as [<-|Hqy].
      * rewrite lookup_insert_eq in Hy. injection Hy as <-.
        unfold n2' in Hx. st_simpl in Hx.
        destruct (decide (L1_PAGETAB a = i)) as [<-|Hi].
        -- rewrite lookup_insert_eq in Hx. by injection Hx as <-.
        -- rewrite lookup_insert_ne in Hx; [|done]. by eapply S2.
      * rewrite lookup_insert_ne in Hy; [|done]. by eapply S2.
    + intros y m i x Hy Hx. destruct (decide (p = y)) as [<-|Hpy].
      * rewrite lookup_insert_eq in Hy. injection Hy as <-.
        unfold n in Hx. st_simpl in Hx. by rewrite lookup_empty in Hx.
      * rewrite lookup_insert_ne in Hy; [|done]. by eapply S1.
    + apply I2.
    + fold s'. intros x y. rewrite !Hl1.
      destruct (decide (l2_of s x = q /\ L1_PAGETAB a = L1_PAGETAB x)) as [[X1 X2]|Ex];
        destruct (decide (l2_of s y = q /\ L1_PAGETAB a = L1_PAGETAB y)) as [[Y1 Y2]|Ey].
      * intros _ _. split; [|congruence]. apply I2; [|congruence].
        rewrite X1. lia.
      * intros _ E. exfalso.
        assert (Hs : is_Some (heap_L1 s !! p)).
        { rewrite E. apply l1_of_some; [|lia]. by split; [..|exists c2, f1, fp]. }
        rewrite Hfresh in Hs. by destruct Hs.
      * intros Hn E. exfalso.
        assert (Hs : is_Some (heap_L1 s !! p)).
        { rewrite <- E. apply l1_of_some; [|done]. by split; [..|exists c2, f1, fp]. }
        rewrite Hfresh in Hs. by destruct Hs.
      * apply I1.
    + fold s'. intros x y. rewrite !Hpg. apply Ip.
    + destruct C as [C2 N2 A2 C1 A1 X1 Cp Ap Xp].
      exists c2, (fun x => if decide (x = q) then p :: f1 q else f1 x),
        (fun x => if decide (x = p) then [] else fp x).
      assert (Hold : forall x k, heap_L1 s !! x = Some k ->
                <[p := n]> (heap_L1 s) !! x = Some k).
      { intros x k Hx. rewrite lookup_insert_ne; [done|]. intros <-.
        by rewrite Hfresh in Hx. }
      assert (Hnew : forall x r, is_Some (heap_L2 s !! x) ->
                r ∈ (if decide (x = q) then p :: f1 q else f1 x) ->
                (x = q /\ r = p) \/ (r <> p /\ r ∈ f1 x)).
      { intros x r [m Hm] Hr.
        assert (Hne : r ∈ f1 x -> r <> p).
        { intros Hrx ->. apply (chain_elem _ _ _ _ p (proj1 (C1 x m Hm))) in Hrx.
          rewrite Hfresh in Hrx. by destruct Hrx. }
        destruct (decide (x = q)) as [->|]; [|by right; auto].
        apply elem_of_cons in Hr as [->|Hr]; [by left | by right; auto]. }
      split; st_simpl.
      * eapply chain_frame; [exact C2|]. intros x m Hx Hm.
        destruct (decide (q = x)) as [<-|Hqx].
        -- exists n2'. rewrite lookup_insert_eq. split; [done|].
           rewrite Hn2 in Hm. by injection Hm as <-.
        -- exists m. by rewrite lookup_insert_ne.
      * done.
      * intros x Hx. apply A2. by apply Hdom2.
      * intros x m Hx. destruct (decide (x = q)) as [->|Hxq].
        -- rewrite lookup_insert_eq in Hx. injection Hx as <-.
           unfold n2'. st_simpl. destruct (C1 q n2 Hn2) as [Hc Hnd].
           split.
           ++ split; [done|]. split; [lia|]. exists n.
              split; [apply lookup_insert_eq|]. unfold n. st_simpl.
              eapply chain_frame; [exact Hc|]. intros x k _ Hk. exists k.
              split; [by apply Hold | done].
           ++ apply NoDup_cons. split; [|done]. intros Hin.
              apply (chain_elem _ _ _ _ p Hc) in Hin. rewrite Hfresh in Hin.
              by destruct Hin.
        -- rewrite lookup_insert_ne in Hx; [|done].
           destruct (C1 x m Hx) as [Hc Hnd]. split; [|done].
           eapply chain_frame; [exact Hc|]. intros y k _ Hk. exists k.
           split; [by apply Hold | done].
      * intros r Hr. apply lookup_insert_is_Some in Hr as [<-|[Hpr Hr]].
        -- exists q. split; [apply Hdom2; by exists n2|].
           destruct (decide (q = q)); [left | done].
        -- destruct (A1 r Hr) as (x & Hx & Hrx). exists x.
           split; [by apply Hdom2|].
           destruct (decide (x = q)) as [->|]; [by right | done].
      * intros x y r Hx Hy Hrx Hry. apply Hdom2 in Hx, Hy.
        destruct (Hnew x r Hx Hrx) as [[Ex Er]|[Hrp Hrx']];
          destruct (Hnew y r Hy Hry) as [[Ey Er']|[Hrp' Hry']];
          [congruence | done | done | by apply (X1 x y r)].
      * intros r m Hr. destruct (decide (r = p)) as [->|Hrp].
        -- rewrite lookup_insert_eq in Hr. injection Hr as <-. unfold n. st_simpl.
           split; [done | apply NoDup_nil_2].
        -- rewrite lookup_insert_ne in Hr; [|done]. by apply Cp.
      * intros x Hx. destruct (Ap x Hx) as (r & [k Hr] & Hxr). exists r.
        split; [exists k; by apply Hold|].
        destruct (decide (r = p)) as [->|]; [|done]. by rewrite Hfresh in Hr.
      * intros r r' x Hr Hr'.
        destruct (decide (r = p)) as [->|Hrp].
        { intros Hx. by apply elem_of_nil in Hx. }
        destruct (decide (r' = p)) as [->|Hrp'].
        { intros _ Hx. by apply elem_of_nil in Hx. }
        rewrite lookup_insert_ne in Hr; [|done].
        rewrite lookup_insert_ne in Hr'; [|done]. by apply Xp.
  - rewrite Hl1. destruct (decide (l2_of s a = q /\ L1_PAGETAB a = L1_PAGETAB a)) as [|E]; [done|].
    by destruct E.
  - unfold s'. st_simpl. fold p. rewrite lookup_insert_eq. by exists n.
  - unfold same_control, s'. st_simpl. done.
Qed.

Lemma ct_get_page_L1_spec a r s :
  ct_wf s -> l1_of s a = r -> is_Some (heap_L1 s !! r) ->
  exists p s', ct_get_page_L1 a r s = Some (p, s')
    /\ ct_wf s' /\ page_of s' a = p /\ is_Some (heap_page s' !! p)
    /\ (forall b, owner_of s' b = owner_of s b)
    /\ same_control s s' /\ ct_out s' = ct_out s.
Proof.
  intros Hwf Hr [n1 Hn1]. unfold ct_get_page_L1. rewrite Hn1.
  cbn [mbind option_bind]. cbv zeta.
  assert (Hpga : page_of s a = slot (pages n1) (PAGE a)).
  { unfold page_of. by rewrite Hr, Hn1. }
  set (v := slot (pages n1) (PAGE a)) in *.
  set (c := v =? 0).
  destruct c eqn:Hc; unfold c in Hc.
  2: { apply Z.eqb_neq in Hc. exists v, s. split; [done|]. split; [done|].
       split; [done|]. split; [|done]. rewrite <- Hpga. apply page_of_some; [done|].
       by rewrite Hpga. }
  apply Z.eqb_eq in Hc. clear c. rename Hc into Hz.
  set (p := heap_next s).
  set (n := {| owning_thread := ∅; prev_alloc_page := last_alloc_page n1;
               index := 0 |}).
  set (n1' := {| pages := <[PAGE a := p]> (pages n1);
                 last_alloc_page := p;
                 prev_alloc_pagetab_L1 := prev_alloc_pagetab_L1 n1 |}).
  match goal with |- exists _ _, Some (_, ?s1) = _ /\ _ => set (s' := s1) end.
  exists p, s'. split; [done|].
  assert (Hp : 0 < p) by apply (wf_next s Hwf).
  assert (Hfresh : heap_page s !! p = None).
  { apply eq_None_not_Some. intros H. apply (wf_domp s Hwf) in H. unfold p in H. lia. }
  assert (Hpg : forall b, page_of s' b =
            if decide (l1_of s b = r /\ PAGE a = PAGE b)
            then p else page_of s b).
  { intros b. unfold page_of. change (l1_of s' b) with (l1_of s b).
    unfold s' at 1. st_simpl.
    destruct (decide (l1_of s b = r /\ PAGE a = PAGE b)) as [[E1 E2]|E].
    - rewrite E1, lookup_insert_eq. unfold n1'. st_simpl. rewrite slot_insert.
      by destruct (decide (PAGE a = PAGE b)).
    - destruct (decide (l1_of s b = r)) as [E1|E1].
      + rewrite E1, lookup_insert_eq, Hn1. unfold n1'. st_simpl. rewrite slot_insert.
        destruct (decide (PAGE a = PAGE b)); [|done]. by destruct E.
      + rewrite lookup_insert_ne; [done|]. congruence. }
  assert (Hown : forall b, owner_of s' b = owner_of s b).
  { intros b. unfold owner_of. rewrite Hpg. unfold s' at 1. st_simpl.
    destruct (decide (l1_of s b = r /\ PAGE a = PAGE b)) as [[E1 E2]|E].
    - rewrite lookup_insert_eq. unfold n. st_simpl. rewrite slot_empty.
      assert (page_of s b = 0) as ->.
      { unfold page_of. rewrite E1, Hn1, <- E2. exact Hz. }
      by rewrite wf_nullp.
    - rewrite lookup_insert_ne; [done|].
      pose proof (page_of_lt s b Hwf). unfold p. lia. }
  assert (Hr0 : 0 < r < heap_next s) by (apply (wf_dom1 s Hwf); by exists n1).
  pose proof (page_of_some s) as Hps.
  pose proof Hwf as Hwf0.
  destruct Hwf as [Wn D2 D1 Dp S3 S2 S1 I2 I1 Ip (c2 & f1 & fp & C)].
  assert (Hdom1 : forall x, is_Some (heap_L1 s' !! x) <-> is_Some (heap_L1 s !! x)).
  { intros x. unfold s'. st_simpl. rewrite lookup_insert_is_Some.
    split; [|by destruct (decide (r = x)); auto].
    intros [<-|[_ H]]; [by exists n1 | done]. }
  split; [|split; [|split]].
  - split; unfold s'; st_simpl.
    + lia.
    + intros x Hx. apply D2 in Hx. unfold p. lia.
    + intros x Hx. apply Hdom1 in Hx. apply D1 in Hx. unfold p. lia.
    + intros x Hx. apply lookup_insert_is_Some in Hx as [<-|[_ Hx]]; [lia|].
      apply Dp in Hx. unfold p. lia.
    + done.
    + intros y m i x Hy Hx. apply (Hdom1 x). by eapply S2.
    + intros y m i x Hy Hx. apply lookup_insert_is_Some.
      destruct (decide (p = x)) as [|Hpx]; [by left|]. right. split; [done|].
      destruct (decide (r = y)) as [<-|Hry].
      * rewrite lookup_insert_eq in Hy. injection Hy as <-.
        unfold n1' in Hx. st_simpl in Hx.
        destruct (decide (PAGE a = i)) as [<-|Hi].
        -- rewrite lookup_insert_eq in Hx. by injection Hx as <-.
        -- rewrite lookup_insert_ne in Hx; [|done]. by eapply S1.
      * rewrite lookup_insert_ne in Hy; [|done]. by eapply S1.
    + apply I2.
    + apply I1.
    + fold s'. intros x y. rewrite !Hpg.
      destruct (decide (l1_of s x = r /\ PAGE a = PAGE x)) as [[X1 X2]|Ex];
        destruct (decide (l1_of s y = r /\ PAGE a = PAGE y)) as [[Y1 Y2]|Ey].
      * intros _ _. unfold pkey.
        destruct (I1 x y) as [E2 E1]; [lia | congruence |]. congruence.
      * intros _ E. exfalso.
        assert (Hs : is_Some (heap_page s !! p)).
        { rewrite E. apply Hps; [done | lia]. }
        rewrite Hfresh in Hs. by destruct Hs.
      * intros Hn E. exfalso.
        assert (Hs : is_Some (heap_page s !! p)).
        { rewrite <- E. by apply Hps. }
        rewrite Hfresh in Hs. by destruct Hs.
      * apply Ip.
    + destruct C as [C2 N2 A2 C1 A1 X1 Cp Ap Xp].
      exists c2, f1, (fun x => if decide (x = r) then p :: fp r else fp x).
      assert (Hold : forall x k, heap_page s !! x = Some k ->
                <[p := n]> (heap_page s) !! x = Some k).
      { intros x k Hx. rewrite lookup_insert_ne; [done|]. intros <-.
        by rewrite Hfresh in Hx. }
      assert (Hnew : forall y x, is_Some (heap_L1 s !! y) ->
                x ∈ (if decide (y = r) then p :: fp r else fp y) ->
                (y = r /\ x = p) \/ (x <> p /\ x ∈ fp y)).
      { intros y x [m Hm] Hx.
        assert (Hne : x ∈ fp y -> x <> p).
        { intros Hxy ->. apply (chain_elem _ _ _ _ p (proj1 (Cp y m Hm))) in Hxy.
          rewrite Hfresh in Hxy. by destruct Hxy. }
        destruct (decide (y = r)) as [->|]; [|by right; auto].
        apply elem_of_cons in Hx as [->|Hx]; [by left | by right; auto]. }
      split; st_simpl.
      * done.
      * done.
      * done.
      * intros x m Hx. destruct (C1 x m Hx) as [Hc Hnd]. split; [|done].
        eapply chain_frame; [exact Hc|]. intros y k Hy Hk.
        destruct (decide (r = y)) as [<-|Hry].
        -- exists n1'. rewrite lookup_insert_eq. split; [done|].
           rewrite Hn1 in Hk. by injection Hk as <-.
        -- exists k. by rewrite lookup_insert_ne.
      * intros y Hy. apply (Hdom1 y) in Hy. by apply A1.
      * done.
      * intros y m Hy. destruct (decide (y = r)) as [->|Hyr].
        -- rewrite lookup_insert_eq in Hy. injection Hy as <-.
           unfold n1'. st_simpl. destruct (Cp r n1 Hn1) as [Hc Hnd].
           split.
           ++ split; [done|]. split; [lia|]. exists n.
              split; [apply lookup_insert_eq|]. unfold n. st_simpl.
              eapply chain_frame; [exact Hc|]. intros x k _ Hk. exists k.
              split; [by apply Hold | done].
           ++ apply NoDup_cons. split; [|done]. intros Hin.
              apply (chain_elem _ _ _ _ p Hc) in Hin. rewrite Hfresh in Hin.
              by destruct Hin.
        -- rewrite lookup_insert_ne in Hy; [|done].
           destruct (Cp y m Hy) as [Hc Hnd]. split; [|done].
           eapply chain_frame; [exact Hc|]. intros x k _ Hk. exists k.
           split; [by apply Hold | done].
      * intros x Hx. apply lookup_insert_is_Some in Hx as [<-|[Hpx Hx]].
        -- exists r. split; [apply Hdom1; by exists n1|].
           destruct (decide (r = r)); [left | done].
        -- destruct (Ap x Hx) as (y & Hy & Hxy). exists y.
           split; [by apply Hdom1|].
           destruct (decide (y = r)) as [->|]; [by right | done].
      * intros y y' x Hy Hy' Hxy Hxy'. apply Hdom1 in Hy, Hy'.
        destruct (Hnew y x Hy Hxy) as [[Ey Ex]|[Hxp Hx1]];
          destruct (Hnew y' x Hy' Hxy') as [[Ey' Ex']|[Hxp' Hx1']];
          [congruence | done | done | by apply (Xp y y' x)].
  - rewrite Hpg. destruct (decide (l1_of s a = r /\ PAGE a = PAGE a)) as [|E]; [done|].
    by destruct E.
  - unfold s'. st_simpl. fold p. rewrite lookup_insert_eq. by exists n.
  - unfold same_control, s'. st_simpl. done.
Qed.

Lemma same_control_refl s : same_control s s.
Proof. by unfold same_control. Qed.

Lemma same_control_trans s1 s2 s3 :
  same_control s1 s2 -> same_control s2 s3 -> same_control s1 s3.
Proof.
  unfold same_control.
  intros (? & ? & ? & ? & ? & ?) (? & ? & ? & ? & ? & ?).
  repeat split; congruence.
Qed.

Lemma page_of_pkey s a b : pkey a = pkey b -> page_of s a = page_of s b.
Proof.
  unfold pkey. intros [= E2 E1 Ep].
  unfold page_of, l1_of, l2_of. by rewrite E2, E1, Ep.
Qed.

Lemma ct_get_page_spec a s :
  ct_wf s ->
  exists p s' pg, ct_get_page a s = Some (p, s')
    /\ ct_wf s' /\ page_of s' a = p /\ heap_page s' !! p = Some pg
    /\ slot (owning_thread pg) (BYTE_IN_PAGE a) = owner_of s a
    /\ (forall b, owner_of s' b = owner_of s b)
    /\ same_control s s' /\ ct_out s' = ct_out s.
Proof.
  intros Hwf. unfold ct_get_page.
  pose proof (ct_get_pagetab_L2_spec a s Hwf) as H2. cbv zeta in H2.
  destruct (ct_get_pagetab_L2 a s) as [q s2]. cbn [fst snd] in H2.
  destruct H2 as (Hwf2 & Hq & Hsq & Hpg2 & Hhp2 & Hc2 & Ho2).
  destruct (ct_get_pagetab_L1_spec a q s2 Hwf2 Hq Hsq)
    as (r & s1 & Hrun1 & Hwf1 & Hr & Hsr & Hpg1 & Hhp1 & Hc1 & Ho1).
  rewrite Hrun1. cbn [mbind option_bind].
  destruct (ct_get_page_L1_spec a r s1 Hwf1 Hr Hsr)
    as (p & s' & Hrun & Hwf' & Hp & [pg Hpg] & Hown & Hc & Ho).
  exists p, s', pg. split; [done|]. split; [done|]. split; [done|].
  split; [done|].
  assert (Hown' : forall b, owner_of s' b = owner_of s b).
  { intros b. rewrite Hown. unfold owner_of. by rewrite Hhp1, Hhp2, Hpg1, Hpg2. }
  split; [|split; [done|]].
  - rewrite <- Hown'. unfold owner_of. by rewrite Hp, Hpg.
  - split; [|congruence].
    eapply same_control_trans; [|exact Hc]. by eapply same_control_trans.
Qed.

(** Writing one owner byte of the page found for [a]. *)
Lemma set_owner_byte_spec a v s pg :
  ct_wf s -> heap_page s !! page_of s a = Some pg ->
  let s' := set_owner_byte (page_of s a) pg (BYTE_IN_PAGE a) v s in
  ct_wf s'
  /\ (forall b, owner_of s' b =
        if decide (ct_loc b = ct_loc a) then to_uchar v else owner_of s b)
  /\ same_control s s' /\ ct_out s' = ct_out s.
Proof.
  intros Hwf Hpg s'.
  assert (Hp0 : page_of s a <> 0).
  { intros E. rewrite E, wf_nullp in Hpg; done. }
  set (pg' := {| owning_thread := <[BYTE_IN_PAGE a := to_uchar v]> (owning_thread pg);
                 prev_alloc_page := prev_alloc_page pg; index := index pg |}).
  assert (Hdom : forall x, is_Some (heap_page s' !! x) <-> is_Some (heap_page s !! x)).
  { intros x. unfold s', set_owner_byte. st_simpl. rewrite lookup_insert_is_Some.
    split; [|by destruct (decide (page_of s a = x)); auto].
    intros [<-|[_ H]]; [by exists pg | done]. }
  split; [|split; [|done]].
  - destruct Hwf as [Wn D2 D1 Dp S3 S2 S1 I2 I1 Ip (c2 & f1 & fp & C)].
    split; try done.
    + intros x Hx. apply Hdom in Hx. by apply Dp.
    + intros y m i x Hy Hx. apply Hdom. by eapply S1.
    + destruct C as [C2 N2 A2 C1 A1 X1 Cp Ap Xp].
      exists c2, f1, fp. split; try done.
      * intros r m Hr. destruct (Cp r m Hr) as [Hc Hnd]. split; [|done].
        eapply chain_frame; [exact Hc|]. intros y k Hy Hk.
        unfold s', set_owner_byte. st_simpl.
        destruct (decide (page_of s a = y)) as [<-|Hne].
        -- exists pg'. rewrite lookup_insert_eq. split; [done|].
           rewrite Hpg in Hk. by injection Hk as <-.
        -- exists k. by rewrite lookup_insert_ne.
      * intros x Hx. apply Hdom in Hx. by apply Ap.
  - intros b. unfold owner_of. change (page_of s' b) with (page_of s b).
    unfold s' at 1, set_owner_byte. st_simpl.
    destruct (decide (ct_loc b = ct_loc a)) as [E|E].
    + unfold ct_loc in E. injection E as E2 E1 Ep Eb.
      rewrite (page_of_pkey s b a) by (unfold pkey; congruence).
      rewrite lookup_insert_eq. st_simpl. rewrite Eb, slot_insert.
      by destruct (decide (BYTE_IN_PAGE a = BYTE_IN_PAGE a)).
    + destruct (decide (page_of s a = page_of s b)) as [Ep|Ep].
      * rewrite <- Ep, lookup_insert_eq, Hpg. st_simpl. rewrite slot_insert.
        destruct (decide (BYTE_IN_PAGE a = BYTE_IN_PAGE b)) as [Eb|]; [|done].
        exfalso. apply E. apply (wf_injp s Hwf) in Ep; [|done].
        unfold pkey in Ep. injection Ep as E2 E1 E0. unfold ct_loc. congruence.
      * by rewrite lookup_insert_ne.
Qed.

(** * One access *)

Lemma ctl_frame_refl env s : ctl_frame env s s.
Proof. unfold ctl_frame. auto 10. Qed.

Lemma ctl_frame_trans env s1 s2 s3 :
  ctl_frame env s1 s2 -> ctl_frame env s2 s3 -> ctl_frame env s1 s3.
Proof.
  unfold ctl_frame.
  intros (? & ? & ? & ? & ? & Ha) (? & ? & ? & ? & ? & Hb).
  repeat split; try congruence.
  destruct Ha, Hb; [left | right | right | right]; congruence.
Qed.

Lemma same_control_frame env s s' : same_control s s' -> ctl_frame env s s'.
Proof.
  unfold same_control, ctl_frame. intros (? & ? & ? & ? & ? & ?). auto 10.
Qed.

Lemma ct_suppress_state env p s :
  let s' := (ct_suppress env p s).2 in
  same_table s s' /\ ct_out s' = ct_out s /\ ctl_frame env s s'.
Proof.
  unfold ct_suppress. cbv zeta.
  destruct ((g_ct_stackend s <=? p) && (p <? g_ct_stackbot s)).
  { cbn [snd]. split; [done|]. split; [done|]. apply ctl_frame_refl. }
  destruct (p <? g_ct_stackend s).
  2: { cbn [snd]. split; [done|]. split; [done|]. apply ctl_frame_refl. }
  assert (H : forall b : bool,
    let s' := (if b then (true, set_stackend (stack_end env) s)
               else (in_last_cmd p (set_stackend (stack_end env) s),
                     set_stackend (stack_end env) s)).2 in
    same_table s s' /\ ct_out s' = ct_out s /\ ctl_frame env s s').
  { intros []; cbn [snd]; (split; [done|]); (split; [done|]);
      unfold ctl_frame, set_stackend; st_simpl; auto 10. }
  apply H.
Qed.

Lemma ct_suppress_ctl env p s1 s2 :
  same_control s1 s2 ->
  suppressed env p s2 = suppressed env p s1.
Proof.
  unfold same_control, suppressed, ct_suppress, in_last_cmd, set_stackend.
  intros (_ & E1 & _ & _ & E2 & E3). cbv zeta. st_simpl. rewrite E1, E2, E3.
  destruct ((g_ct_stackend s1 <=? p) && (p <? g_ct_stackbot s1)); [done|].
  destruct (p <? g_ct_stackend s1); [|done].
  destruct ((stack_end env <=? p) && (p <? g_ct_stackbot s1)); done.
Qed.

Lemma same_table_page_of s s' a : same_table s s' -> page_of s' a = page_of s a.
Proof.
  destruct s, s'. unfold same_table. cbn.
  by intros (-> & -> & -> & -> & ->).
Qed.

Lemma ct_on_access_byte_spec env base size store i s :
  ct_wf s ->
  let addr := wrap64 (base + i) in
  let stop := conflictb s addr && negb (suppressed env addr s) in
  exists s', ct_on_access_byte env base size store i s = Some (stop, s')
    /\ ct_wf s' /\ ctl_frame env s s'
    /\ ct_out s' =
         (if stop
          then ct_out s ++ [race_msg base size addr (owner_of s addr) s]
          else ct_out s)
    /\ (forall b, owner_of s' b =
          if negb stop && store && bool_decide (ct_loc b = ct_loc addr)
          then to_uchar (g_ct_curr_thread s) else owner_of s b).
Proof.
  intros Hwf addr stop.
  destruct (ct_get_page_spec addr s Hwf)
    as (p & s1 & pg & Hrun & Hwf1 & Hp & Hpg & Hown0 & Hown & Hc & Ho).
  unfold ct_on_access_byte. fold addr. rewrite Hrun.
  cbn [mbind option_bind]. rewrite Hpg. cbn [mbind option_bind]. cbv zeta.
  rewrite Hown0.
  assert (Hcur : g_ct_curr_thread s1 = g_ct_curr_thread s) by apply Hc.
  rewrite Hcur. fold (conflictb s addr).
  pose proof (ct_suppress_state env addr s1) as Hst. cbv zeta in Hst.
  pose proof (ct_suppress_ctl env addr s s1 Hc) as Hsup.
  unfold stop. unfold suppressed in *.
  destruct (conflictb s addr) eqn:Hcf; cbn [andb negb].
  - destruct (ct_suppress env addr s1) as [sup s2]. cbn [fst snd] in *.
    rewrite <- Hsup. destruct Hst as (Ht & Ho2 & Hf).
    assert (Hwf2 : ct_wf s2) by by eapply same_table_wf.
    assert (Hcur2 : g_ct_curr_thread s2 = g_ct_curr_thread s).
    { destruct Hf as (_ & _ & _ & E & _). congruence. }
    assert (Hfr : ctl_frame env s s2).
    { eapply ctl_frame_trans; [|exact Hf]. by apply same_control_frame. }
    assert (Hown2 : forall b, owner_of s2 b = owner_of s b).
    { intros b. rewrite (same_table_owner s1 s2) by done. apply Hown. }
    destruct sup; cbn [negb].
    + destruct store; cbn [andb].
      * destruct (set_owner_byte_spec addr (g_ct_curr_thread s2) s2 pg)
          as (Hwf3 & Hown3 & Hc3 & Ho3); [done| |].
        { rewrite (same_table_page_of s1 s2) by done.
          destruct Ht as (_ & _ & _ & -> & _). by rewrite Hp. }
        rewrite (same_table_page_of s1 s2), Hp in Hwf3, Hown3, Hc3, Ho3 by done.
        eexists. split; [reflexivity|]. split; [done|].
        split; [|split; [congruence|]].
        { eapply ctl_frame_trans; [exact Hfr|]. by apply same_control_frame. }
        intros b. rewrite Hown3, Hcur2, Hown2.
        destruct (decide (ct_loc b = ct_loc addr)) as [E|E].
        -- by rewrite bool_decide_eq_true_2.
        -- by rewrite bool_decide_eq_false_2.
      * exists s2. split; [done|]. split; [done|]. split; [done|].
        split; [congruence | exact Hown2].
    + exists (emit (race_msg base size addr (owner_of s addr) s2) s2).
      split; [done|]. split; [by eapply same_table_wf|]. split; [done|].
      split; [|exact Hown2]. st_simpl. rewrite Ho2, Ho. unfold race_msg.
      by rewrite Hcur2.
  - assert (Hfr : ctl_frame env s s1) by by apply same_control_frame.
    destruct store; cbn [andb].
    + destruct (set_owner_byte_spec addr (g_ct_curr_thread s) s1 pg)
        as (Hwf3 & Hown3 & Hc3 & Ho3); [done | by rewrite Hp |].
      rewrite Hp in Hwf3, Hown3, Hc3, Ho3. rewrite Hcur.
      eexists. split; [reflexivity|]. split; [done|].
      split; [|split; [congruence|]].
      { eapply ctl_frame_trans; [exact Hfr|]. by apply same_control_frame. }
      intros b. rewrite Hown3, Hown.
      destruct (decide (ct_loc b = ct_loc addr)) as [E|E].
      -- by rewrite bool_decide_eq_true_2.
      -- by rewrite bool_decide_eq_false_2.
    + exists s1. split; [done|]. split; [done|]. split; [done|].
      split; [done | exact Hown].
Qed.

(** ** Suppression, whatever the recorded stack end *)

Lemma always_suppressed_true env s p :
  always_suppressed env s p -> suppressed env p s = true.
Proof.
  unfold always_suppressed, suppressed, ct_suppress, in_last_cmd, set_stackend.
  cbv zeta. st_simpl. intros H.
  destruct (Z.leb_spec (g_ct_stackend s) p); destruct (Z.ltb_spec p (g_ct_stackbot s));
    cbn [andb fst]; try done;
    destruct (Z.ltb_spec p (g_ct_stackend s)); cbn [andb fst]; try lia;
    destruct (Z.leb_spec (stack_end env) p); cbn [andb fst]; try done;
    destruct (Z.leb_spec (g_ct_last_cmd s) p);
    destruct (Z.ltb_spec p (g_ct_last_cmd s + sizeof_ct_cmd));
    cbn [andb fst]; try done; lia.
Qed.

Lemma never_suppressed_false env s p :
  never_suppressed env s p -> suppressed env p s = false.
Proof.
  unfold never_suppressed, suppressed, ct_suppress, in_last_cmd, set_stackend.
  cbv zeta. st_simpl. intros (H1 & H2 & H3).
  destruct (Z.leb_spec (g_ct_stackend s) p); destruct (Z.ltb_spec p (g_ct_stackbot s));
    cbn [andb fst]; try lia;
    destruct (Z.ltb_spec p (g_ct_stackend s)); cbn [andb fst]; try lia;
    try (destruct (Z.leb_spec (stack_end env) p); cbn [andb fst]; try lia);
    destruct (Z.leb_spec (g_ct_last_cmd s) p);
    destruct (Z.ltb_spec p (g_ct_last_cmd s + sizeof_ct_cmd));
    cbn [andb fst]; try done; lia.
Qed.

Lemma always_suppressed_frame env s s' p :
  ctl_frame env s s' -> always_suppressed env s p -> always_suppressed env s' p.
Proof.
  unfold ctl_frame, always_suppressed. intros (_ & -> & _ & _ & -> & _). done.
Qed.

Lemma never_suppressed_frame env s s' p :
  ctl_frame env s s' -> never_suppressed env s p -> never_suppressed env s' p.
Proof.
  unfold ctl_frame, never_suppressed.
  intros (_ & -> & _ & _ & -> & [-> | ->]) (H1 & H2 & H3); done.
Qed.

(** * Address slicing *)

Lemma land_fff x : Z.land x 0xfff = x mod 2 ^ 12.
Proof. change 0xfff with (Z.ones 12). by apply Z.land_ones. Qed.

Lemma to_UInt_range x : 0 <= to_UInt x < 2 ^ 32.
Proof. unfold to_UInt. apply Z.mod_pos_bound. lia. Qed.

Lemma slice_range x : 0 <= Z.land x 0xfff < 4096.
Proof. rewrite land_fff. apply Z.mod_pos_bound. lia. Qed.

(** The cast to [UInt] leaves no bit above bit 31 for the L2 index. *)
Lemma L2_PAGETAB_zero a : L2_PAGETAB a = 0.
Proof.
  unfold L2_PAGETAB. pose proof (to_UInt_range a) as H.
  rewrite Z.shiftr_shiftr, land_fff, Z.shiftr_div_pow2 by lia.
  rewrite Z.div_small; [done | lia].
Qed.

Lemma ct_loc_to_UInt a b : ct_loc a = ct_loc b <-> to_UInt a = to_UInt b.
Proof.
  split.
  - unfold ct_loc, L1_PAGETAB, PAGE, BYTE_IN_PAGE.
    pose proof (to_UInt_range a) as Ha. pose proof (to_UInt_range b) as Hb.
    intros [= _ E1 Ep Eb]. revert E1 Ep Eb.
    generalize dependent (to_UInt a). generalize dependent (to_UInt b).
    intros v Hv u Hu. rewrite !land_fff, !Z.shiftr_div_pow2 by lia.
    change (2 ^ 24) with (2 ^ 12 * 2 ^ 12).
    rewrite <- !Z.div_div by lia.
    intros E1 Ep Eb.
    pose proof (Z.div_mod u (2 ^ 12) ltac:(lia)) as Du.
    pose proof (Z.div_mod v (2 ^ 12) ltac:(lia)) as Dv.
    pose proof (Z.div_mod (u / 2 ^ 12) (2 ^ 12) ltac:(lia)) as Du'.
    pose proof (Z.div_mod (v / 2 ^ 12) (2 ^ 12) ltac:(lia)) as Dv'.
    assert (0 <= u / 2 ^ 12 / 2 ^ 12 < 2 ^ 12).
    { split; [apply Z.div_pos; [apply Z.div_pos|]; lia|].
      apply Z.div_lt_upper_bound; [lia|]. apply Z.div_lt_upper_bound; lia. }
    assert (0 <= v / 2 ^ 12 / 2 ^ 12 < 2 ^ 12).
    { split; [apply Z.div_pos; [apply Z.div_pos|]; lia|].
      apply Z.div_lt_upper_bound; [lia|]. apply Z.div_lt_upper_bound; lia. }
    rewrite !Z.mod_small in E1 by done. lia.
  - unfold ct_loc, L2_PAGETAB, L1_PAGETAB, PAGE, BYTE_IN_PAGE. by intros ->.
Qed.

Lemma to_UInt_wrap64 x : to_UInt (wrap64 x) = to_UInt x.
Proof.
  unfold to_UInt, wrap64. apply Z.mod_mod_divide.
  exists (2 ^ 32). reflexivity.
Qed.

Lemma ct_loc_apart x d :
  0 < d < 2 ^ 32 -> ct_loc (wrap64 (x + d)) <> ct_loc (wrap64 x).
Proof.
  intros Hd E. apply ct_loc_to_UInt in E. rewrite !to_UInt_wrap64 in E.
  unfold to_UInt in E.
  pose proof (Z.div_mod (x + d) (2 ^ 32) ltac:(lia)) as D1.
  pose proof (Z.div_mod x (2 ^ 32) ltac:(lia)) as D2.
  rewrite E in D1. lia.
Qed.

Lemma ct_loc_slices a : ct_loc a = slices (to_UInt a).
Proof. reflexivity. Qed.

(** Every index stays inside its array of 4096 entries. *)
Lemma index_ranges a :
  0 <= L2_PAGETAB a < 4096 /\ 0 <= L1_PAGETAB a < 4096
  /\ 0 <= PAGE a < 4096 /\ 0 <= BYTE_IN_PAGE a < 4096.
Proof.
  unfold L2_PAGETAB, L1_PAGETAB, PAGE, BYTE_IN_PAGE.
  repeat split; apply slice_range.
Qed.

(** Taken from the full address, the four slices would tell apart all
    addresses below 2^48. *)
Lemma slices_inj_48 a b :
  0 <= a < 2 ^ 48 -> 0 <= b < 2 ^ 48 -> slices a = slices b -> a = b.
Proof.
  intros Ha Hb. unfold slices. intros [= E2 E1 Ep Eb]. revert E2 E1 Ep Eb.
  rewrite !land_fff, !Z.shiftr_div_pow2 by lia.
  change (2 ^ 24) with (2 ^ 12 * 2 ^ 12).
  rewrite <- !Z.div_div by lia.
  intros E2 E1 Ep Eb.
  pose proof (Z.div_mod a (2 ^ 12) ltac:(lia)) as Da.
  pose proof (Z.div_mod b (2 ^ 12) ltac:(lia)) as Db.
  pose proof (Z.div_mod (a / 2 ^ 12) (2 ^ 12) ltac:(lia)) as Da1.
  pose proof (Z.div_mod (b / 2 ^ 12) (2 ^ 12) ltac:(lia)) as Db1.
  pose proof (Z.div_mod (a / 2 ^ 12 / 2 ^ 12) (2 ^ 12) ltac:(lia)) as Da2.
  pose proof (Z.div_mod (b / 2 ^ 12 / 2 ^ 12) (2 ^ 12) ltac:(lia)) as Db2.
  assert (Ba : 0 <= a / 2 ^ 12 / 2 ^ 12 / 2 ^ 12 < 2 ^ 12).
  { split; [repeat apply Z.div_pos; lia|].
    repeat (apply Z.div_lt_upper_bound; [lia|]). lia. }
  assert (Bb : 0 <= b / 2 ^ 12 / 2 ^ 12 / 2 ^ 12 < 2 ^ 12).
  { split; [repeat apply Z.div_pos; lia|].
    repeat (apply Z.div_lt_upper_bound; [lia|]). lia. }
  rewrite !Z.mod_small in E2 by done. lia.
Qed.

(** * The access loop *)

Lemma ct_on_access_loop_spec env base size store n : forall i s,
  ct_wf s ->
  exists s', ct_on_access_loop env base size store n i s = Some s'
    /\ ct_wf s' /\ ctl_frame env s s'
    /\ (exists l, ct_out s' = ct_out s ++ l /\ (length l <= 1)%nat
                  /\ Forall (fun m => is_race m = true) l)
    /\ (forall b, owner_of s' b = owner_of s b
          \/ (store = true /\ owner_of s' b = to_uchar (g_ct_curr_thread s)
              /\ exists j, i <= j < i + Z.of_nat n
                   /\ ct_loc b = ct_loc (wrap64 (base + j))))
    /\ (store = true -> ct_out s' = ct_out s ->
        forall j, i <= j < i + Z.of_nat n ->
          owner_of s' (wrap64 (base + j)) = to_uchar (g_ct_curr_thread s)).
Proof.
  induction n as [|n IH]; intros i s Hwf.
  - exists s. split; [done|]. split; [done|]. split; [apply ctl_frame_refl|].
    split.
    { exists []. rewrite app_nil_r. split; [done|].
      split; [simpl; lia | apply Forall_nil_2]. }
    split; [by left|]. intros _ _ j Hj. simpl in Hj. lia.
  - destruct (ct_on_access_byte_spec env base size store i s Hwf)
      as (s1 & Hrun & Hwf1 & Hf1 & Ho1 & Hown1).
    cbn [ct_on_access_loop]. rewrite Hrun.
    destruct (conflictb s (wrap64 (base + i))
              && negb (suppressed env (wrap64 (base + i)) s)) eqn:Hstop.
    + exists s1. split; [done|]. split; [done|]. split; [done|].
      cbn [negb andb] in Hown1.
      split; [|split].
      * eexists. split; [exact Ho1|]. split; [done|].
        apply Forall_cons. split; [done | apply Forall_nil_2].
      * intros b. left. apply Hown1.
      * intros _ E. rewrite Ho1 in E.
        rewrite <- (app_nil_r (ct_out s)) in E at 2.
        by apply app_inv_head in E.
    + destruct (IH (i + 1) s1 Hwf1)
        as (s' & Hrun' & Hwf' & Hf' & (l & Ho' & Hl & Hr) & Hown' & Hwr').
      assert (Hcur : g_ct_curr_thread s1 = g_ct_curr_thread s) by apply Hf1.
      rewrite Hcur in Hown', Hwr'. cbn [negb andb] in Hown1.
      exists s'. split; [done|]. split; [done|].
      split; [by eapply ctl_frame_trans|].
      split; [|split].
      * exists l. split; [congruence | done].
      * intros b. destruct (Hown' b) as [E|(Hs & E & j & Hj & Hloc)].
        -- rewrite E, Hown1. destruct store; cbn [andb]; [|by left].
           destruct (decide (ct_loc b = ct_loc (wrap64 (base + i)))) as [Eb|Eb].
           ++ rewrite bool_decide_eq_true_2 by done. right.
              split; [done|]. split; [done|]. exists i. split; [lia | done].
           ++ rewrite bool_decide_eq_false_2 by done. by left.
        -- right. split; [done|]. split; [done|]. exists j. split; [lia | done].
      * intros Hs E j Hj. subst store. cbn [andb] in Hown1.
        assert (Hl0 : ct_out s' = ct_out s1).
        { rewrite Ho1 in Ho'. rewrite Ho' in E.
          rewrite <- (app_nil_r (ct_out s)) in E at 2.
          apply app_inv_head in E. subst l. rewrite app_nil_r in Ho'.
          congruence. }
        destruct (decide (j = i)) as [->|Hji].
        -- destruct (Hown' (wrap64 (base + i))) as [E'|(_ & E' & _)]; [|done].
           rewrite E', Hown1. by rewrite bool_decide_eq_true_2.
        -- apply Hwr'; [done | done | lia].
Qed.

Lemma conflictb_frame env s s' a :
  ctl_frame env s s' -> owner_of s' a = owner_of s a ->
  conflictb s' a = conflictb s a.
Proof.
  unfold conflictb. intros (_ & _ & _ & -> & _) ->. done.
Qed.

(** The report names the first byte that conflicts and is not suppressed;
    a store has by then written the bytes before it, and nothing else. *)
Lemma ct_on_access_loop_first env base size store n : forall i s k,
  ct_wf s -> i <= k < i + Z.of_nat n -> Z.of_nat n <= 2 ^ 32 ->
  conflictb s (wrap64 (base + k)) = true ->
  never_suppressed env s (wrap64 (base + k)) ->
  (forall j, i <= j < k ->
     conflictb s (wrap64 (base + j)) = false
     \/ always_suppressed env s (wrap64 (base + j))) ->
  exists s', ct_on_access_loop env base size store n i s = Some s'
    /\ ct_out s' =
         ct_out s ++ [race_msg base size (wrap64 (base + k))
                        (owner_of s (wrap64 (base + k))) s]
    /\ (store = true -> forall j, i <= j < k ->
          owner_of s' (wrap64 (base + j)) = to_uchar (g_ct_curr_thread s))
    /\ (forall b, (forall j, i <= j < k -> ct_loc b <> ct_loc (wrap64 (base + j))) ->
          owner_of s' b = owner_of s b).
Proof.
  induction n as [|n IH]; intros i s k Hwf Hk Hn Hck Hnk Hbefore.
  { simpl in Hk. lia. }
  destruct (ct_on_access_byte_spec env base size store i s Hwf)
    as (s1 & Hrun & Hwf1 & Hf1 & Ho1 & Hown1).
  cbn [ct_on_access_loop]. rewrite Hrun.
  destruct (decide (k = i)) as [->|Hki].
  - rewrite Hck, (never_suppressed_false env s _ Hnk) in Ho1, Hown1 |- *.
    cbn [andb negb] in *. exists s1. split; [done|]. split; [done|].
    split; [intros _ j Hj; lia|]. intros b _. apply Hown1.
  - assert (Hstop : conflictb s (wrap64 (base + i))
                    && negb (suppressed env (wrap64 (base + i)) s) = false).
    { destruct (Hbefore i) as [->|Hs]; [lia | done |].
      rewrite (always_suppressed_true env s _ Hs). apply andb_false_r. }
    rewrite Hstop in Ho1, Hown1 |- *. cbn [negb andb] in Hown1.
    assert (Hapart : forall j, i < j <= k ->
              ct_loc (wrap64 (base + j)) <> ct_loc (wrap64 (base + i))).
    { intros j Hj. replace (base + j) with (base + i + (j - i)) by lia.
      apply ct_loc_apart. lia. }
    assert (Hsame : forall j, i < j <= k ->
              owner_of s1 (wrap64 (base + j)) = owner_of s (wrap64 (base + j))).
    { intros j Hj. rewrite Hown1.
      rewrite bool_decide_eq_false_2; [by destruct store | by apply Hapart]. }
    assert (Hcur : g_ct_curr_thread s1 = g_ct_curr_thread s) by apply Hf1.
    destruct (IH (i + 1) s1 k) as (s' & Hrun' & Ho' & Hw' & Hu');
      try done; try lia.
    + rewrite (conflictb_frame env s s1); [done | done |]. apply Hsame. lia.
    + by eapply never_suppressed_frame.
    + intros j Hj. destruct (Hbefore j) as [Hc|Hs]; [lia | left | right].
      * rewrite (conflictb_frame env s s1); [done | done |]. apply Hsame. lia.
      * by eapply always_suppressed_frame.
    + exists s'. split; [done|]. split; [|split].
      * rewrite Ho', Ho1, Hsame by lia. unfold race_msg. by rewrite Hcur.
      * intros Hs j Hj. rewrite <- Hcur. destruct (decide (j = i)) as [->|Hji].
        -- rewrite Hu'.
           ++ rewrite Hown1, Hs, Hcur. by rewrite bool_decide_eq_true_2.
           ++ intros j Hj' E. symmetry in E. revert E. apply Hapart. lia.
        -- apply Hw'; [done | lia].
      * intros b Hb. rewrite Hu'.
        -- rewrite Hown1. rewrite bool_decide_eq_false_2; [by destruct store|].
           apply Hb. lia.
        -- intros j Hj. apply Hb. lia.
Qed.

(** No report when every conflicting byte of the range is suppressed. *)
Lemma ct_on_access_loop_quiet env base size store n : forall i s,
  ct_wf s ->
  (forall j, i <= j < i + Z.of_nat n ->
     always_suppressed env s (wrap64 (base + j))) ->
  exists s', ct_on_access_loop env base size store n i s = Some s'
    /\ ct_out s' = ct_out s.
Proof.
  induction n as [|n IH]; intros i s Hwf Hall.
  { by exists s. }
  destruct (ct_on_access_byte_spec env base size store i s Hwf)
    as (s1 & Hrun & Hwf1 & Hf1 & Ho1 & Hown1).
  cbn [ct_on_access_loop]. rewrite Hrun.
  rewrite (always_suppressed_true env s (wrap64 (base + i))) in Ho1 |- *
    by (apply Hall; lia).
  rewrite andb_false_r in Ho1 |- *.
  destruct (IH (i + 1) s1 Hwf1) as (s' & Hrun' & Ho').
  { intros j Hj. eapply always_suppressed_frame; [done|]. apply Hall. lia. }
  exists s'. split; [done | congruence].
Qed.

(** * Commands *)

Lemma ct_str_is_head m v c rest :
  ct_str_is m v (String c rest) = true -> m (v + 0) = c.
Proof.
  unfold ct_str_is. cbn [ct_str_is_from].
  destruct (Ascii.eqb_spec (m (v + 0)) c); done.
Qed.

Lemma ct_str_is_other m v c rest c' rest' :
  ct_str_is m v (String c rest) = true -> c <> c' ->
  ct_str_is m v (String c' rest') = false.
Proof.
  intros H Hne. apply ct_str_is_head in H.
  unfold ct_str_is. cbn [ct_str_is_from]. rewrite H.
  destruct (Ascii.eqb_spec c c'); done.
Qed.

Lemma ct_process_command_spec env cmd s :
  ct_wf s ->
  exists s', ct_process_command env cmd s = Some s' /\ ct_wf s'
    /\ (same_table s s' \/ (tagged env cmd /\ opcode_is env cmd "end_for"))
    /\ (g_ct_active s = false -> g_ct_active s' = true ->
        tagged env cmd /\ opcode_is env cmd "iter")
    /\ (exists l, ct_out s' = ct_out s ++ l
                  /\ Forall (fun m => is_race m = false) l).
Proof.
  intros Hwf.
  assert (Hecho : forall m s0, is_race m = false ->
            exists l, ct_out (echo m s0) = ct_out s0 ++ l
                      /\ Forall (fun m => is_race m = false) l).
  { intros m s0 Hm. unfold echo. destruct (clo_print_commands s0).
    - exists [m]. split; [done|]. by apply Forall_singleton.
    - exists []. split; [by rewrite app_nil_r | apply Forall_nil_2]. }
  assert (Hnil : exists l, ct_out s = ct_out s ++ l
                           /\ Forall (fun m => is_race m = false) l).
  { exists []. split; [by rewrite app_nil_r | apply Forall_nil_2]. }
  cut (exists s', ct_process_command env cmd s = Some s' /\ ct_wf s'
    /\ (same_table s s' \/ (tagged env cmd /\ opcode_is env cmd "end_for"))
    /\ (g_ct_active s = false -> g_ct_active s' = true ->
        tagged env cmd /\ opcode_is env cmd "iter")).
  { intros (s' & Hrun & Hwf' & Ht & Hi). exists s'.
    split; [done|]. split; [done|]. split; [done|]. split; [done|].
    revert Hrun. unfold ct_process_command. cbv zeta.
    destruct (ct_str_is (mem env) (cmd + oft_const_magic) CONST_MAGIC);
      cbn [negb]; [|by intros [= <-]].
    destruct (ct_str_is (mem env) (cmd + oft_payload) "begin_for").
    { cbn [mbind option_bind]. intros [= <-]. by apply (Hecho MsgBeginFor). }
    destruct (ct_str_is (mem env) (cmd + oft_payload) "end_for").
    { destruct (ct_clear_pagetab (echo MsgEndFor s)) as [s1|] eqn:Hcl;
        cbn [mbind option_bind]; [|done].
      intros [= <-]. st_simpl.
      assert (Hwf1 : ct_wf (echo MsgEndFor s)).
      { eapply same_table_wf; [|exact Hwf]. unfold echo.
        by destruct (clo_print_commands s). }
      destruct (ct_clear_pagetab_spec _ Hwf1) as (s2 & Hrun2 & Hrest).
      rewrite Hcl in Hrun2. injection Hrun2 as <-.
      destruct Hrest as (_ & _ & _ & _ & _ & _ & ->).
      by apply (Hecho MsgEndFor). }
    destruct (ct_str_is (mem env) (cmd + oft_payload) "iter").
    { cbn [mbind option_bind]. intros [= <-]. by apply (Hecho (MsgIter _)). }
    destruct (ct_str_is (mem env) (cmd + oft_payload) "done").
    { cbn [mbind option_bind]. intros [= <-]. by apply (Hecho (MsgDone _)). }
    destruct (ct_str_is (mem env) (cmd + oft_payload) "thrd").
    { cbn [mbind option_bind]. by intros [= <-]. }
    destruct (ct_str_is (mem env) (cmd + oft_payload) "stackbot").
    { cbn [mbind option_bind]. intros [= <-]. st_simpl.
      by apply (Hecho (MsgStackbot _ _)
                  (set_stack (ct_cmd_ptr (mem env) cmd 8) (stack_end env) s)). }
    cbn [mbind option_bind]. intros [= <-]. st_simpl.
    exists [MsgUnknownCommand]. split; [done|]. by apply Forall_singleton. }
  clear Hecho Hnil.
  unfold ct_process_command, tagged, opcode_is. cbv zeta.
  destruct (ct_str_is (mem env) (cmd + oft_const_magic) CONST_MAGIC).
  2: { exists s. cbn [negb]. split; [done|]. split; [done|]. split; [by left|].
       congruence. }
  cbn [negb].
  destruct (ct_str_is (mem env) (cmd + oft_payload) "begin_for").
  { eexists. cbn [mbind option_bind]. split; [reflexivity|].
    assert (Ht : same_table s (set_last_cmd cmd (echo MsgBeginFor s))).
    { unfold echo. by destruct (clo_print_commands s). }
    split; [by eapply same_table_wf|]. split; [by left|].
    unfold echo. destruct (clo_print_commands s); st_simpl; congruence. }
  destruct (ct_str_is (mem env) (cmd + oft_payload) "end_for").
  { assert (Hwf1 : ct_wf (echo MsgEndFor s)).
    { eapply same_table_wf; [|exact Hwf]. unfold echo.
      by destruct (clo_print_commands s). }
    destruct (ct_clear_pagetab_spec _ Hwf1)
      as (s1 & Hrun & H3 & H2 & H1 & Hp & Hn & Hc & Ho).
    rewrite Hrun. cbn [mbind option_bind]. eexists. split; [reflexivity|].
    split; [|split; [by right|]].
    - apply empty_table_wf; try done. st_simpl. rewrite Hn.
      unfold echo. destruct (clo_print_commands s); apply (wf_next s Hwf).
    - st_simpl. destruct Hc as (_ & _ & -> & _).
      unfold echo. destruct (clo_print_commands s); st_simpl; congruence. }
  destruct (ct_str_is (mem env) (cmd + oft_payload) "iter").
  { eexists. cbn [mbind option_bind]. split; [reflexivity|].
    split; [|split; [left|done]].
    - eapply same_table_wf; [|exact Hwf]. unfold echo.
      by destruct (clo_print_commands s).
    - unfold echo. by destruct (clo_print_commands s). }
  destruct (ct_str_is (mem env) (cmd + oft_payload) "done").
  { eexists. cbn [mbind option_bind]. split; [reflexivity|].
    split; [|split; [left|]].
    - eapply same_table_wf; [|exact Hwf]. unfold echo.
      by destruct (clo_print_commands s).
    - unfold echo. by destruct (clo_print_commands s).
    - st_simpl. congruence. }
  destruct (ct_str_is (mem env) (cmd + oft_payload) "thrd").
  { eexists. cbn [mbind option_bind]. split; [reflexivity|].
    split; [eapply same_table_wf; [|exact Hwf]; done|].
    split; [by left|]. st_simpl. congruence. }
  destruct (ct_str_is (mem env) (cmd + oft_payload) "stackbot").
  { eexists. cbn [mbind option_bind]. split; [reflexivity|].
    split; [|split; [left|]].
    - eapply same_table_wf; [|exact Hwf]. unfold echo.
      by destruct (clo_print_commands _).
    - unfold echo. by destruct (clo_print_commands _).
    - unfold echo. destruct (clo_print_commands _); st_simpl; congruence. }
  eexists. cbn [mbind option_bind]. split; [reflexivity|].
  split; [eapply same_table_wf; [|exact Hwf]; done|].
  split; [by left|]. st_simpl. congruence.
Qed.

(** * Hooks and runs on well-formed tables *)

Lemma ct_on_access_spec env base size store s :
  ct_wf s ->
  exists s', ct_on_access env base size store s = Some s'
    /\ ct_wf s' /\ ctl_frame env s s'
    /\ (exists l, ct_out s' = ct_out s ++ l /\ (length l <= 1)%nat
                  /\ Forall (fun m => is_race m = true) l)
    /\ (forall b, owner_of s' b = owner_of s b
          \/ (store = true /\ owner_of s' b = to_uchar (g_ct_curr_thread s)
              /\ exists j, 0 <= j < size
                   /\ ct_loc b = ct_loc (wrap64 (base + j))))
    /\ (store = true -> ct_out s' = ct_out s ->
        forall j, 0 <= j < size ->
          owner_of s' (wrap64 (base + j)) = to_uchar (g_ct_curr_thread s)).
Proof.
  intros Hwf. unfold ct_on_access.
  destruct (ct_on_access_loop_spec env base size store (Z.to_nat size) 0 s Hwf)
    as (s' & Hrun & Hwf' & Hf & Hl & Hown & Hwr).
  exists s'. split; [done|]. split; [done|]. split; [done|]. split; [done|].
  split.
  - intros b. destruct (Hown b) as [E|(Hs & E & j & Hj & Hloc)]; [by left|].
    right. split; [done|]. split; [done|]. exists j. split; [lia | done].
  - intros Hs Ho j Hj. apply Hwr; [done | done | lia].
Qed.

Lemma trace_load_spec env addr size s :
  ct_wf s ->
  exists s', trace_load env addr size s = Some s' /\ ct_wf s'
    /\ (forall b, owner_of s' b = owner_of s b).
Proof.
  intros Hwf. unfold trace_load. destruct (g_ct_active s).
  - destruct (ct_on_access_spec env addr size false s Hwf)
      as (s' & Hrun & Hwf' & _ & _ & Hown & _).
    exists s'. split; [done|]. split; [done|]. intros b.
    by destruct (Hown b) as [E|(Hs & _)].
  - by exists s.
Qed.

Lemma ct_on_store_wf env addr size s :
  ct_wf s -> exists s', ct_on_store env addr size s = Some s' /\ ct_wf s'.
Proof.
  intros Hwf. unfold ct_on_store. cbv zeta.
  assert (H : exists s1,
            (if read_u32 (mem env) addr =? MAGIC
             then ct_process_command env addr s else Some s) = Some s1
            /\ ct_wf s1).
  { destruct (read_u32 (mem env) addr =? MAGIC); [|by exists s].
    destruct (ct_process_command_spec env addr s Hwf) as (s1 & ? & ? & _).
    by exists s1. }
  destruct H as (s1 & -> & Hwf1). cbn [mbind option_bind].
  destruct (g_ct_active s1); [|by exists s1].
  destruct (ct_on_access_spec env addr size true s1 Hwf1) as (s' & ? & ? & _).
  by exists s'.
Qed.

Lemma ct_step_wf e s :
  ct_wf s -> exists s', ct_step e s = Some s' /\ ct_wf s'.
Proof.
  intros Hwf. unfold ct_step. destruct e as [env [addr size|addr size|addr size]];
    cbn [fst snd].
  - destruct (trace_load_spec env addr size s Hwf) as (s' & ? & ? & _).
    by exists s'.
  - by apply ct_on_store_wf.
  - by apply ct_on_store_wf.
Qed.

Lemma ct_run_wf evs : forall s,
  ct_wf s -> exists s', ct_run evs s = Some s' /\ ct_wf s'.
Proof.
  induction evs as [|e evs IH]; intros s Hwf; cbn [ct_run].
  - by exists s.
  - destruct (ct_step_wf e s Hwf) as (s1 & -> & Hwf1). cbn [mbind option_bind].
    by apply IH.
Qed.

(** Every state the detector reaches from its initial state is
    well-formed. *)
Lemma ct_run_reach evs pc s : ct_run evs (ct_init pc) = Some s -> ct_wf s.
Proof.
  intros H. destruct (ct_run_wf evs (ct_init pc) (ct_init_wf pc)) as (s' & E & Hwf).
  congruence.
Qed.

Lemma to_Int_range x : - 2 ^ 31 <= to_Int x < 2 ^ 31.
Proof.
  unfold to_Int. pose proof (Z.mod_pos_bound (x + 2 ^ 31) (2 ^ 32) ltac:(lia)). lia.
Qed.

Lemma to_Int_small x : - 2 ^ 31 <= x < 2 ^ 31 -> to_Int x = x.
Proof. intros H. unfold to_Int. rewrite Z.mod_small; lia. Qed.

(** The word read back from the bytes of an integer. *)
Lemma holds_int32_read m a N :
  holds_int32 m a N -> to_Int (read_u32 m a) = N.
Proof.
  intros (Hr & H0 & H1 & H2 & H3). unfold read_u32, to_Int.
  rewrite H0, H1, H2, H3. clear H0 H1 H2 H3.
  change (2 ^ 8) with 256. change (2 ^ 16) with 65536.
  change (2 ^ 24) with 16777216. change (2 ^ 31) with 2147483648 in *.
  change (2 ^ 32) with 4294967296.
  Z.div_mod_to_equations. lia.
Qed.

Lemma ct_cmd_int_holds m cmd oft N :
  holds_int32 m (cmd + oft_payload + oft) N -> ct_cmd_int m cmd oft = N.
Proof. apply holds_int32_read. Qed.

(** ** What each opcode does *)

Lemma process_thrd env cmd s :
  tagged env cmd -> opcode_is env cmd "thrd" ->
  ct_process_command env cmd s =
    Some (set_last_cmd cmd
            (set_curr_thread (to_Int (ct_cmd_int (mem env) cmd 4 + 1)) s)).
Proof.
  unfold tagged, opcode_is. intros Htag Hop.
  unfold ct_process_command. cbv zeta. rewrite Htag. cbn [negb].
  rewrite (ct_str_is_other _ _ _ _ "b" "egin_for" Hop) by discriminate.
  rewrite (ct_str_is_other _ _ _ _ "e" "nd_for" Hop) by discriminate.
  rewrite (ct_str_is_other _ _ _ _ "i" "ter" Hop) by discriminate.
  rewrite (ct_str_is_other _ _ _ _ "d" "one" Hop) by discriminate.
  by rewrite Hop.
Qed.

Lemma process_iter env cmd s :
  tagged env cmd -> opcode_is env cmd "iter" ->
  ct_process_command env cmd s =
    Some (set_last_cmd cmd
            (set_active true (echo (MsgIter (ct_cmd_int (mem env) cmd 4)) s))).
Proof.
  unfold tagged, opcode_is. intros Htag Hop.
  unfold ct_process_command. cbv zeta. rewrite Htag. cbn [negb].
  rewrite (ct_str_is_other _ _ _ _ "b" "egin_for" Hop) by discriminate.
  rewrite (ct_str_is_other _ _ _ _ "e" "nd_for" Hop) by discriminate.
  by rewrite Hop.
Qed.

Lemma process_done env cmd s :
  tagged env cmd -> opcode_is env cmd "done" ->
  ct_process_command env cmd s =
    Some (set_last_cmd cmd
            (set_active false (echo (MsgDone (ct_cmd_int (mem env) cmd 4)) s))).
Proof.
  unfold tagged, opcode_is. intros Htag Hop.
  unfold ct_process_command. cbv zeta. rewrite Htag. cbn [negb].
  rewrite (ct_str_is_other _ _ _ _ "b" "egin_for" Hop) by discriminate.
  rewrite (ct_str_is_other _ _ _ _ "e" "nd_for" Hop) by discriminate.
  rewrite (ct_str_is_other _ _ _ _ "i" "ter" Hop) by discriminate.
  by rewrite Hop.
Qed.

Lemma process_end_for env cmd s :
  tagged env cmd -> opcode_is env cmd "end_for" ->
  ct_process_command env cmd s =
    (s1 ← ct_clear_pagetab (echo MsgEndFor s);
     Some (set_last_cmd cmd (set_curr_thread 0 s1))).
Proof.
  unfold tagged, opcode_is. intros Htag Hop.
  unfold ct_process_command. cbv zeta. rewrite Htag. cbn [negb].
  rewrite (ct_str_is_other _ _ _ _ "b" "egin_for" Hop) by discriminate.
  rewrite Hop. by destruct (ct_clear_pagetab (echo MsgEndFor s)).
Qed.

Lemma process_unknown env cmd s :
  tagged env cmd -> (forall name, name ∈ opcodes -> ~ opcode_is env cmd name) ->
  ct_process_command env cmd s =
    Some (set_last_cmd cmd (emit MsgUnknownCommand s)).
Proof.
  unfold tagged, opcode_is, opcodes. intros Htag Hno.
  assert (H : forall name, name ∈ opcodes ->
            ct_str_is (mem env) (cmd + oft_payload) name = false).
  { intros name Hin. apply not_true_is_false. by apply Hno. }
  unfold ct_process_command. cbv zeta. rewrite Htag. cbn [negb].
  rewrite !H; [done|..]; unfold opcodes;
    repeat (first [by left | right]).
Qed.

(** ** [ct_str_is] compares the leading bytes only *)

Lemma ct_str_is_from_iff m v c : forall i0,
  ct_str_is_from m v c i0 = true <->
  (forall i ch, String.get i c = Some ch -> m (v + (i0 + Z.of_nat i)) = ch).
Proof.
  induction c as [|c0 rest IH]; intros i0; cbn [ct_str_is_from].
  - split; [|done]. intros _ i ch H. by destruct i.
  - destruct (Ascii.eqb_spec (m (v + i0)) c0) as [E|E].
    + rewrite IH. split.
      * intros H [|i] ch Hi; cbn in Hi.
        -- injection Hi as <-. by rewrite Z.add_0_r.
        -- replace (i0 + Z.of_nat (S i)) with (i0 + 1 + Z.of_nat i) by lia.
           by apply H.
      * intros H i ch Hi.
        replace (i0 + 1 + Z.of_nat i) with (i0 + Z.of_nat (S i)) by lia.
        by apply H.
    + split; [done|]. intros H. exfalso. apply E.
      specialize (H 0%nat c0 eq_refl). by rewrite Z.add_0_r in H.
Qed.

Lemma ct_str_is_iff m v c : ct_str_is m v c = true <-> begins_with m v c.
Proof. unfold ct_str_is, begins_with. by rewrite ct_str_is_from_iff. Qed.

(** ** Further facts used by the claims *)

Lemma process_last_cmd env cmd s s' :
  tagged env cmd -> ct_process_command env cmd s = Some s' ->
  g_ct_last_cmd s' = cmd.
Proof.
  unfold tagged, ct_process_command. cbv zeta. intros ->. cbn [negb].
  match goal with |- mbind _ ?x = _ -> _ => destruct x as [s1|] end;
    cbn [mbind option_bind]; [|done].
  by intros [= <-].
Qed.

Lemma wrap64_small x : 0 <= x < 2 ^ 64 -> wrap64 x = x.
Proof. intros H. unfold wrap64. by apply Z.mod_small. Qed.

Lemma wrap64_range x : 0 <= wrap64 x < 2 ^ 64.
Proof. unfold wrap64. apply Z.mod_pos_bound. lia. Qed.

Lemma ct_on_access_one env a store s :
  ct_wf s -> 0 <= a < 2 ^ 64 ->
  exists s', ct_on_access env a 1 store s = Some s'
    /\ ct_out s' =
         (if conflictb s a && negb (suppressed env a s)
          then ct_out s ++ [race_msg a 1 a (owner_of s a) s]
          else ct_out s).
Proof.
  intros Hwf Ha. unfold ct_on_access. change (Z.to_nat 1) with 1%nat.
  destruct (ct_on_access_byte_spec env a 1 store 0 s Hwf)
    as (s1 & Hrun & _ & _ & Ho1 & _).
  cbn [ct_on_access_loop]. rewrite Hrun.
  rewrite Z.add_0_r, wrap64_small in Ho1 |- * by done.
  exists s1. split; [|done].
  by destruct (conflictb s a && negb (suppressed env a s)).
Qed.

Lemma ct_on_store_keeps a env addr size s :
  ct_wf s -> ~ is_end_for env addr ->
  (forall i, 0 <= i < size -> ct_loc (wrap64 (addr + i)) <> ct_loc a) ->
  exists s', ct_on_store env addr size s = Some s' /\ ct_wf s'
    /\ owner_of s' a = owner_of s a.
Proof.
  intros Hwf Hne Hloc. unfold ct_on_store. cbv zeta.
  assert (H : exists s1,
            (if read_u32 (mem env) addr =? MAGIC
             then ct_process_command env addr s else Some s) = Some s1
            /\ ct_wf s1 /\ owner_of s1 a = owner_of s a).
  { destruct (Z.eqb_spec (read_u32 (mem env) addr) MAGIC) as [Hm|Hm];
      [|by exists s].
    destruct (ct_process_command_spec env addr s Hwf)
      as (s1 & Hcmd & Hwf1 & [Ht|[Htag Hop]] & _).
    - exists s1. split; [done|]. split; [done|]. by apply same_table_owner.
    - exfalso. apply Hne. done. }
  destruct H as (s1 & -> & Hwf1 & Hown1). cbn [mbind option_bind].
  destruct (g_ct_active s1); [|by exists s1].
  destruct (ct_on_access_spec env addr size true s1 Hwf1)
    as (s' & Hacc & Hwf' & _ & _ & Hown & _).
  exists s'. split; [done|]. split; [done|].
  destruct (Hown a) as [E|(_ & _ & j & Hj & E)]; [congruence|].
  exfalso. by apply (Hloc j Hj).
Qed.

Lemma ct_step_keeps a e s :
  ct_wf s -> keeps a e ->
  exists s', ct_step e s = Some s' /\ ct_wf s' /\ owner_of s' a = owner_of s a.
Proof.
  intros Hwf. unfold keeps, ct_step.
  destruct e as [env [addr size|addr size|addr size]]; cbn [fst snd].
  - intros _. destruct (trace_load_spec env addr size s Hwf) as (s' & ? & ? & Ho).
    exists s'. split; [done|]. split; [done|]. apply Ho.
  - intros [Hne Hloc]. by apply ct_on_store_keeps.
  - intros [Hne Hloc]. by apply ct_on_store_keeps.
Qed.

Lemma ct_run_keeps a evs : forall s,
  ct_wf s -> Forall (keeps a) evs ->
  exists s', ct_run evs s = Some s' /\ owner_of s' a = owner_of s a.
Proof.
  induction evs as [|e evs IH]; intros s Hwf Hall; cbn [ct_run].
  - by exists s.
  - apply Forall_cons in Hall as [He Hall].
    destruct (ct_step_keeps a e s Hwf He) as (s1 & -> & Hwf1 & Ho1).
    cbn [mbind option_bind].
    destruct (IH s1 Hwf1 Hall) as (s' & Hrun & Ho).
    exists s'. split; [done | congruence].
Qed.

(** * The claims *)

(** ** C1 *)

(** C1 as stated fails: when the store is reported as a conflict the scan
    stops and the conflicting byte keeps its previous owner. *)
Lemma C1_counterexample :
  g_ct_active (state_after demo_two_workers) = true
  /\ g_ct_curr_thread (state_after demo_two_workers) = 2
  /\ owner_of (state_after demo_two_workers) 5000 = 1
  /\ exists s', trace_store plain_env 5000 1 (state_after demo_two_workers)
                = Some s'
       /\ ct_out s'
          = ct_out (state_after demo_two_workers) ++ [MsgRace 1 5000 5000 1 0]
       /\ owner_of s' 5000 = 1.
Proof.
  split; [reflexivity|]. split; [reflexivity|]. split; [reflexivity|].
  eexists. split; [vm_compute; reflexivity|]. split; reflexivity.
Qed.

(** C1, amended: for a store or modify access by a current worker W that
    fits a byte (0..255): if the access reports no conflict, every byte of
    its range is owned by W afterwards; if it reports the byte at offset k
    (the first byte that conflicts and is not suppressed), the bytes before
    k are owned by W and the bytes from k on keep their owners.  An owner
    stays as it is across loads and across stores or modifies that carry no
    [end_for] command and cover no address kept in the same owner byte. *)
Theorem C1_owner_after_write (evs : list (ct_env * ct_event)) (pc : bool)
    (s : ct_state) (env : ct_env) (base size : Z) :
  ct_run evs (ct_init pc) = Some s ->
  0 <= g_ct_curr_thread s < 256 ->
  exists s1, ct_on_access env base size true s = Some s1
    /\ (ct_out s1 = ct_out s ->
        forall j, 0 <= j < size ->
          owner_of s1 (wrap64 (base + j)) = g_ct_curr_thread s)
    /\ (forall k, 0 <= k < size -> size <= 2 ^ 32 ->
          conflictb s (wrap64 (base + k)) = true ->
          never_suppressed env s (wrap64 (base + k)) ->
          (forall j, 0 <= j < k ->
             conflictb s (wrap64 (base + j)) = false
             \/ always_suppressed env s (wrap64 (base + j))) ->
          (forall j, 0 <= j < k ->
             owner_of s1 (wrap64 (base + j)) = g_ct_curr_thread s)
          /\ (forall j, k <= j < size ->
                owner_of s1 (wrap64 (base + j))
                = owner_of s (wrap64 (base + j))))
    /\ (forall a evs', Forall (keeps a) evs' ->
          exists s2, ct_run evs' s1 = Some s2
            /\ owner_of s2 a = owner_of s1 a).
Proof.
  intros Hrun HW. apply ct_run_reach in Hrun.
  assert (Hu : to_uchar (g_ct_curr_thread s) = g_ct_curr_thread s)
    by (unfold to_uchar; apply Z.mod_small; lia).
  destruct (ct_on_access_spec env base size true s Hrun)
    as (s1 & Hacc & Hwf1 & _ & _ & _ & Hwr).
  exists s1. split; [done|]. split; [|split].
  - intros Ho j Hj. rewrite Hwr by done. exact Hu.
  - intros k Hk Hsz Hc Hn Hb.
    destruct (ct_on_access_loop_first env base size true (Z.to_nat size)
                0 s k Hrun) as (s'' & Hrun' & _ & Hw & Hun);
      try done; try lia.
    assert (s'' = s1) as -> by (unfold ct_on_access in Hacc; congruence).
    split.
    + intros j Hj. rewrite Hw by done. exact Hu.
    + intros j Hj. apply Hun. intros i Hi.
      replace (base + j) with (base + i + (j - i)) by lia.
      apply ct_loc_apart. lia.
  - intros a evs' Hall. by apply ct_run_keeps.
Qed.

Lemma demo_later_keeps : Forall (keeps 5000) demo_later.
Proof.
  unfold demo_later.
  repeat (apply Forall_cons; split); try apply Forall_nil_2;
    unfold keeps; cbn [fst snd]; try exact I.
  - split; [intros (H & _); vm_compute in H; congruence|].
    intros i Hi. assert (E : i = 0 \/ i = 1) by lia.
    destruct E as [-> | ->]; vm_compute; congruence.
  - split; [intros (_ & _ & H); vm_compute in H; congruence|].
    intros i Hi. assert (E : i = 0 \/ i = 1 \/ i = 2 \/ i = 3) by lia.
    destruct E as [-> | [-> | [-> | ->]]]; vm_compute; congruence.
Qed.

(** Worker 1 stores four bytes at 5000 and keeps them through
    [demo_later]; worker 2 then stores at 4998..5001 and is reported at
    5000. *)
Lemma C1_witness :
  (ct_run demo_start (ct_init false) = Some (state_after demo_start)
   /\ g_ct_curr_thread (state_after demo_start) = 1
   /\ exists s1, ct_on_access plain_env 5000 4 true (state_after demo_start)
                 = Some s1
        /\ owner_of s1 5000 = 1 /\ owner_of s1 5003 = 1
        /\ exists s2, ct_run demo_later s1 = Some s2 /\ owner_of s2 5000 = 1)
  /\ (ct_run demo_two_workers (ct_init false)
      = Some (state_after demo_two_workers)
      /\ g_ct_curr_thread (state_after demo_two_workers) = 2
      /\ owner_of (state_after demo_two_workers) 5000 = 1
      /\ owner_of (state_after demo_two_workers) 5001 = 1
      /\ exists s1, ct_on_access plain_env 4998 4 true
                      (state_after demo_two_workers) = Some s1
           /\ owner_of s1 4998 = 2 /\ owner_of s1 4999 = 2
           /\ owner_of s1 5000 = 1 /\ owner_of s1 5001 = 1).
Proof.
  split.
  - assert (Hrun : ct_run demo_start (ct_init false)
                   = Some (state_after demo_start))
      by (vm_compute; reflexivity).
    assert (HW : g_ct_curr_thread (state_after demo_start) = 1)
      by (vm_compute; reflexivity).
    split; [exact Hrun|]. split; [exact HW|].
    destruct (C1_owner_after_write demo_start false (state_after demo_start)
                plain_env 5000 4 Hrun)
      as (s1 & Hacc & Hquiet & _ & Hkeep); [rewrite HW; lia|].
    rewrite HW in Hquiet.
    assert (E : s1 = default (ct_init false)
                       (ct_on_access plain_env 5000 4 true
                          (state_after demo_start)))
      by by rewrite Hacc.
    assert (Hout : ct_out s1 = ct_out (state_after demo_start))
      by (rewrite E; vm_compute; reflexivity).
    exists s1. split; [exact Hacc|].
    split; [apply (Hquiet Hout 0); lia|].
    split; [apply (Hquiet Hout 3); lia|].
    destruct (Hkeep 5000 demo_later demo_later_keeps) as (s2 & Hrun2 & Hown2).
    exists s2. split; [exact Hrun2|]. rewrite Hown2.
    apply (Hquiet Hout 0); lia.
  - assert (Hrun : ct_run demo_two_workers (ct_init false)
                   = Some (state_after demo_two_workers))
      by (vm_compute; reflexivity).
    assert (HW : g_ct_curr_thread (state_after demo_two_workers) = 2)
      by (vm_compute; reflexivity).
    assert (H0 : owner_of (state_after demo_two_workers) 5000 = 1)
      by (vm_compute; reflexivity).
    assert (H1 : owner_of (state_after demo_two_workers) 5001 = 1)
      by (vm_compute; reflexivity).
    split; [exact Hrun|]. split; [exact HW|]. split; [exact H0|].
    split; [exact H1|].
    destruct (C1_owner_after_write demo_two_workers false
                (state_after demo_two_workers) plain_env 4998 4 Hrun)
      as (s1 & Hacc & _ & Hrep & _); [rewrite HW; lia|].
    rewrite HW in Hrep.
    destruct (Hrep 2) as (Hbefore & Hafter); [lia | lia | | | |].
    + vm_compute. reflexivity.
    + unfold never_suppressed. vm_compute. repeat split; intros [? ?]; congruence.
    + intros j Hj. left. assert (E : j = 0 \/ j = 1) by lia.
      destruct E as [-> | ->]; vm_compute; reflexivity.
    + exists s1. split; [exact Hacc|].
      split; [apply (Hbefore 0); lia|]. split; [apply (Hbefore 1); lia|].
      split.
      * rewrite <- H0. apply (Hafter 2); lia.
      * rewrite <- H1. apply (Hafter 3); lia.
Defined.

(** ** C2 *)

(** C2: the slices are taken from the address cast to the 32-bit [UInt],
    so two addresses are kept in the same owner byte exactly when their low
    32 bits agree, and the L2 index is always 0.  Addresses 0 and 2^32,
    both below 2^48, share an owner byte: a store to address 0 by worker 1
    makes address 2^32 read as owned by 1.  (Taken from the address itself
    the same slices would separate all addresses below 2^48:
    [slices_inj_48].) *)
Theorem C2_low_32_bits_only :
  (forall a b, ct_loc a = ct_loc b <-> to_UInt a = to_UInt b)
  /\ (forall a, L2_PAGETAB a = 0)
  /\ 0 <> 2 ^ 32 /\ 0 <= 0 < 2 ^ 48 /\ 0 <= 2 ^ 32 < 2 ^ 48
  /\ ct_loc 0 = ct_loc (2 ^ 32)
  /\ exists s', trace_store plain_env 0 1 (state_after demo_start) = Some s'
       /\ g_ct_curr_thread (state_after demo_start) = 1
       /\ owner_of (state_after demo_start) (2 ^ 32) = 0
       /\ owner_of s' (2 ^ 32) = 1.
Proof.
  split; [apply ct_loc_to_UInt|]. split; [apply L2_PAGETAB_zero|].
  split; [lia|]. split; [lia|]. split; [lia|]. split; [reflexivity|].
  eexists. split; [vm_compute; reflexivity|]. done.
Qed.

(** ** C3 *)

(** C3: processing a tagged [end_for] command in any state the detector
    can reach returns and leaves the table as it is at start-up: the slot
    array and the list head of the top level are reset, no page, L1 table
    or L2 table is allocated, and the invariant of the table holds.  Every
    address then reads as unowned, also through [ct_get_page], which finds
    a page whose owner byte is 0, and the current worker is 0.  When the
    detector is inactive, as after [done], this is the state the store that
    carries the command leaves. *)
Theorem C3_reset_complete (evs : list (ct_env * ct_event)) (pc : bool)
    (s : ct_state) (env : ct_env) (cmd : Z) :
  ct_run evs (ct_init pc) = Some s ->
  tagged env cmd -> opcode_is env cmd "end_for" ->
  exists s', ct_process_command env cmd s = Some s'
    /\ ct_wf s'
    /\ g_ct_pagetab_L3 s' = g_ct_pagetab_L3 (ct_init pc)
    /\ heap_L2 s' = ∅ /\ heap_L1 s' = ∅ /\ heap_page s' = ∅
    /\ (forall a, owner_of s' a = 0)
    /\ (forall a, exists p s2 pg,
          ct_get_page a s' = Some (p, s2)
          /\ heap_page s2 !! p = Some pg
          /\ slot (owning_thread pg) (BYTE_IN_PAGE a) = 0)
    /\ allocated_nodes s' = 0%nat
    /\ g_ct_curr_thread s' = 0
    /\ (read_u32 (mem env) cmd = MAGIC -> g_ct_active s = false ->
        forall size, trace_store env cmd size s = Some s').
Proof.
  intros Hrun Htag Hop. apply ct_run_reach in Hrun.
  pose proof (process_end_for env cmd s Htag Hop) as Hcmd.
  assert (Hwf1 : ct_wf (echo MsgEndFor s)).
  { eapply same_table_wf; [|exact Hrun]. unfold echo.
    by destruct (clo_print_commands s). }
  destruct (ct_clear_pagetab_spec _ Hwf1)
    as (s1 & Hcl & H3 & H2 & H1 & Hp & Hnx & Hc & _).
  rewrite Hcl in Hcmd. cbn [mbind option_bind] in Hcmd.
  set (s' := set_last_cmd cmd (set_curr_thread 0 s1)) in *.
  assert (Hwf' : ct_wf s').
  { apply empty_table_wf; subst s'; st_simpl; try done.
    rewrite Hnx. apply (wf_next _ Hwf1). }
  assert (Hown : forall a, owner_of s' a = 0).
  { intros a. unfold owner_of. subst s'. st_simpl. by rewrite Hp, lookup_empty. }
  exists s'. split; [exact Hcmd|]. split; [exact Hwf'|].
  split; [exact H3|]. split; [exact H2|]. split; [exact H1|].
  split; [exact Hp|]. split; [exact Hown|].
  split; [|split; [|split]].
  - intros a.
    destruct (ct_get_page_spec a s' Hwf')
      as (p & s2 & pg & Hget & _ & _ & Hpg & Hsl & _).
    exists p, s2, pg. split; [exact Hget|]. split; [exact Hpg|].
    by rewrite Hsl.
  - unfold allocated_nodes. subst s'. st_simpl. rewrite Hp, H1, H2.
    by rewrite !map_size_empty.
  - done.
  - intros Hm Hact size. unfold trace_store, ct_on_store. cbv zeta.
    rewrite Hm, Z.eqb_refl, Hcmd. cbn [mbind option_bind]. subst s'. st_simpl.
    destruct Hc as (_ & _ & -> & _).
    assert (g_ct_active (echo MsgEndFor s) = false) as ->; [|done].
    unfold echo. by destruct (clo_print_commands s).
Qed.

Lemma C3_witness :
  ct_run demo_touch (ct_init false) = Some (state_after demo_touch)
  /\ owner_of (state_after demo_touch) 5000 = 1
  /\ allocated_nodes (state_after demo_touch) = 7%nat
  /\ g_ct_pagetab_L3 (state_after demo_touch) <> g_ct_pagetab_L3 (ct_init false)
  /\ tagged env_end_for 4000
  /\ opcode_is env_end_for 4000 "end_for"
  /\ exists s', ct_process_command env_end_for 4000 (state_after demo_touch)
                = Some s'
       /\ g_ct_pagetab_L3 s' = g_ct_pagetab_L3 (ct_init false)
       /\ (forall a, owner_of s' a = 0)
       /\ (exists p s2 pg, ct_get_page 5000 s' = Some (p, s2)
             /\ heap_page s2 !! p = Some pg
             /\ slot (owning_thread pg) (BYTE_IN_PAGE 5000) = 0)
       /\ allocated_nodes s' = 0%nat
       /\ g_ct_curr_thread s' = 0.
Proof.
  split; [vm_compute; reflexivity|]. split; [vm_compute; reflexivity|].
  split; [vm_compute; reflexivity|]. split; [vm_compute; discriminate|].
  split; [reflexivity|]. split; [reflexivity|].
  destruct (C3_reset_complete demo_touch false (state_after demo_touch)
              env_end_for 4000)
    as (s' & Hcmd & _ & H3 & _ & _ & _ & Hown & Hget & Hn & Hc & _);
    [vm_compute; reflexivity | reflexivity | reflexivity |].
  exists s'. split; [exact Hcmd|]. split; [exact H3|]. split; [exact Hown|].
  split; [exact (Hget 5000)|]. split; [exact Hn | exact Hc].
Defined.

(** ** C4 *)

(** C4 as stated fails for the largest argument: a tagged [thrd] command
    whose payload holds N = 2^31-1 sets the current worker to -2^31, not to
    N+1. *)
Lemma C4_counterexample :
  tagged env_thrd_max 1000
  /\ opcode_is env_thrd_max 1000 "thrd"
  /\ holds_int32 (mem env_thrd_max) (1000 + oft_payload + 4) (2 ^ 31 - 1)
  /\ exists s', ct_process_command env_thrd_max 1000 (ct_init false) = Some s'
       /\ g_ct_curr_thread s' = - 2 ^ 31
       /\ g_ct_curr_thread s' <> (2 ^ 31 - 1) + 1.
Proof.
  split; [reflexivity|]. split; [reflexivity|].
  split; [split; [lia|]; repeat split; vm_compute; reflexivity|].
  eexists. split; [vm_compute; reflexivity|]. split; [reflexivity | done].
Qed.

(** C4, amended: a tagged [thrd] command whose payload holds the 32-bit
    integer N at offset 4 sets the current worker to N+1 for every N other
    than 2^31-1; for N = 2^31-1 the sum does not fit [Int] and the current
    worker is -2^31.  [iter] turns tracking on and [done] turns it off.
    The rest of the control state and the page table are left as they
    were, except that the address of the command is remembered. *)
Theorem C4_command_round_trip (env : ct_env) (cmd : Z) (s : ct_state)
    (N : Z) :
  tagged env cmd ->
  (opcode_is env cmd "thrd" ->
   holds_int32 (mem env) (cmd + oft_payload + 4) N ->
   exists s', ct_process_command env cmd s = Some s'
     /\ (N <> 2 ^ 31 - 1 -> g_ct_curr_thread s' = N + 1)
     /\ (N = 2 ^ 31 - 1 -> g_ct_curr_thread s' = - 2 ^ 31)
     /\ g_ct_active s' = g_ct_active s
     /\ g_ct_stackbot s' = g_ct_stackbot s
     /\ g_ct_stackend s' = g_ct_stackend s
     /\ same_table s s' /\ ct_out s' = ct_out s
     /\ g_ct_last_cmd s' = cmd)
  /\ (opcode_is env cmd "iter" ->
      exists s', ct_process_command env cmd s = Some s'
        /\ g_ct_active s' = true
        /\ g_ct_curr_thread s' = g_ct_curr_thread s
        /\ g_ct_stackbot s' = g_ct_stackbot s
        /\ g_ct_stackend s' = g_ct_stackend s
        /\ same_table s s'
        /\ g_ct_last_cmd s' = cmd)
  /\ (opcode_is env cmd "done" ->
      exists s', ct_process_command env cmd s = Some s'
        /\ g_ct_active s' = false
        /\ g_ct_curr_thread s' = g_ct_curr_thread s
        /\ g_ct_stackbot s' = g_ct_stackbot s
        /\ g_ct_stackend s' = g_ct_stackend s
        /\ same_table s s'
        /\ g_ct_last_cmd s' = cmd).
Proof.
  intros Htag. split; [|split].
  - intros Hop Hint. rewrite process_thrd by done.
    rewrite (ct_cmd_int_holds _ _ _ _ Hint). destruct Hint as [Hr _].
    eexists. split; [reflexivity|]. st_simpl.
    split; [|split; [|done]].
    + intros Hne. apply to_Int_small. lia.
    + intros ->. reflexivity.
  - intros Hop. rewrite process_iter by done.
    eexists. split; [reflexivity|].
    unfold echo. destruct (clo_print_commands s); st_simpl; done.
  - intros Hop. rewrite process_done by done.
    eexists. split; [reflexivity|].
    unfold echo. destruct (clo_print_commands s); st_simpl; done.
Qed.

Lemma C4_witness :
  (tagged env_thrd70000 1000 /\ opcode_is env_thrd70000 1000 "thrd"
   /\ holds_int32 (mem env_thrd70000) (1000 + oft_payload + 4) 70000
   /\ exists s', ct_process_command env_thrd70000 1000 (ct_init false) = Some s'
        /\ g_ct_curr_thread s' = 70001)
  /\ (tagged env_iter 2000 /\ opcode_is env_iter 2000 "iter"
      /\ exists s', ct_process_command env_iter 2000 (ct_init false) = Some s'
           /\ g_ct_active s' = true)
  /\ (tagged env_done 3000 /\ opcode_is env_done 3000 "done"
      /\ exists s', ct_process_command env_done 3000 (state_after demo_start)
                    = Some s'
           /\ g_ct_active (state_after demo_start) = true
           /\ g_ct_active s' = false).
Proof.
  assert (Hint : holds_int32 (mem env_thrd70000) (1000 + oft_payload + 4) 70000).
  { split; [lia|]. repeat split; vm_compute; reflexivity. }
  split; [|split].
  - split; [reflexivity|]. split; [reflexivity|]. split; [exact Hint|].
    destruct (C4_command_round_trip env_thrd70000 1000 (ct_init false) 70000)
      as (H & _); [reflexivity|].
    destruct H as (s' & Hrun & Hcur & _); [reflexivity | exact Hint |].
    exists s'. split; [exact Hrun|]. apply Hcur. lia.
  - split; [reflexivity|]. split; [reflexivity|].
    destruct (C4_command_round_trip env_iter 2000 (ct_init false) 0)
      as (_ & H & _); [reflexivity|].
    destruct H as (s' & Hrun & Hact & _); [reflexivity|].
    exists s'. split; [exact Hrun | exact Hact].
  - split; [reflexivity|]. split; [reflexivity|].
    destruct (C4_command_round_trip env_done 3000 (state_after demo_start) 0)
      as (_ & _ & H); [reflexivity|].
    destruct H as (s' & Hrun & Hact & _); [reflexivity|].
    exists s'. split; [exact Hrun|]. split; [reflexivity | exact Hact].
Defined.

(** ** C5 *)

(** C5 as stated fails: a tagged command whose opcode name is "iteration"
    is decoded as [iter] and turns tracking on, without any warning. *)
Lemma C5_counterexample :
  tagged env_iteration 1000
  /\ begins_with (mem env_iteration) (1000 + oft_payload) "iteration"
  /\ mem env_iteration (1000 + oft_payload + 9) = Ascii.zero
  /\ ~ ("iteration"%string) ∈ opcodes
  /\ exists s', ct_process_command env_iteration 1000 (ct_init false) = Some s'
       /\ g_ct_active (ct_init false) = false
       /\ g_ct_active s' = true
       /\ ct_out s' = [].
Proof.
  split; [reflexivity|]. split; [by apply ct_str_is_iff|].
  split; [reflexivity|]. split.
  - unfold opcodes. intros H. repeat (apply elem_of_cons in H as [H|H]; [done|]).
    by apply elem_of_nil in H.
  - eexists. split; [vm_compute; reflexivity|]. done.
Qed.

(** C5, amended: an opcode is recognised by comparing the leading bytes of
    the payload with the name, and nothing after them; a tagged command
    whose payload begins with none of the six names has none of the six
    effects applied, and one whose payload begins with "iter" turns
    tracking on whatever follows the four letters. *)
Theorem C5_prefix_decoding (env : ct_env) (cmd : Z) (s : ct_state) :
  tagged env cmd ->
  (forall name, opcode_is env cmd name
                <-> begins_with (mem env) (cmd + oft_payload) name)
  /\ ((forall name, name ∈ opcodes ->
         ~ begins_with (mem env) (cmd + oft_payload) name) ->
      exists s', ct_process_command env cmd s = Some s'
        /\ g_ct_active s' = g_ct_active s
        /\ g_ct_curr_thread s' = g_ct_curr_thread s
        /\ g_ct_stackbot s' = g_ct_stackbot s
        /\ g_ct_stackend s' = g_ct_stackend s
        /\ same_table s s')
  /\ (begins_with (mem env) (cmd + oft_payload) "iter" ->
      exists s', ct_process_command env cmd s = Some s'
        /\ g_ct_active s' = true).
Proof.
  intros Htag. split; [|split].
  - intros name. apply ct_str_is_iff.
  - intros Hno. rewrite process_unknown; [by eexists|done|].
    intros name Hin Hop. apply (Hno name Hin). by apply ct_str_is_iff.
  - intros Hop. apply ct_str_is_iff in Hop. rewrite process_iter by done.
    eexists. split; [reflexivity|].
    unfold echo. by destruct (clo_print_commands s).
Qed.

Lemma bogus_is_no_opcode :
  forall name, name ∈ opcodes -> ~ opcode_is env_bogus 1000 name.
Proof.
  unfold opcodes. intros name H.
  repeat (apply elem_of_cons in H as [->|H]; [by vm_compute|]).
  by apply elem_of_nil in H.
Qed.

Lemma C5_witness :
  (tagged env_iteration 1000
   /\ begins_with (mem env_iteration) (1000 + oft_payload) "iter"
   /\ exists s', ct_process_command env_iteration 1000 (ct_init false)
                 = Some s'
        /\ g_ct_active s' = true)
  /\ (tagged env_bogus 1000
      /\ (forall name, name ∈ opcodes ->
            ~ begins_with (mem env_bogus) (1000 + oft_payload) name)
      /\ exists s', ct_process_command env_bogus 1000 (state_after demo_start)
                    = Some s'
           /\ g_ct_active s' = g_ct_active (state_after demo_start)
           /\ g_ct_curr_thread s' = g_ct_curr_thread (state_after demo_start)).
Proof.
  split.
  - split; [reflexivity|].
    assert (H : begins_with (mem env_iteration) (1000 + oft_payload) "iter")
      by by apply ct_str_is_iff.
    split; [exact H|].
    destruct (C5_prefix_decoding env_iteration 1000 (ct_init false))
      as (_ & _ & Hiter); [reflexivity|].
    exact (Hiter H).
  - split; [reflexivity|].
    assert (H : forall name, name ∈ opcodes ->
              ~ begins_with (mem env_bogus) (1000 + oft_payload) name).
    { intros name Hin Hb. apply (bogus_is_no_opcode name Hin).
      by apply ct_str_is_iff. }
    split; [exact H|].
    destruct (C5_prefix_decoding env_bogus 1000 (state_after demo_start))
      as (_ & Hnone & _); [reflexivity|].
    destruct (Hnone H) as (s' & Hcmd & Hact & Hcur & _).
    exists s'. split; [exact Hcmd|]. split; [exact Hact | exact Hcur].
Defined.

(** ** C6 *)

(** C6 as stated fails: an unknown command changes [g_ct_last_cmd]. *)
Lemma C6_counterexample :
  tagged env_bogus 1000
  /\ (forall name, name ∈ opcodes -> ~ opcode_is env_bogus 1000 name)
  /\ exists s', ct_process_command env_bogus 1000 (ct_init false) = Some s'
       /\ ct_out s' = [MsgUnknownCommand]
       /\ g_ct_last_cmd (ct_init false) = 0
       /\ g_ct_last_cmd s' = 1000.
Proof.
  split; [reflexivity|]. split; [exact bogus_is_no_opcode|].
  eexists. split; [vm_compute; reflexivity|]. done.
Qed.

(** C6, amended: a tagged command matching none of the six opcodes writes
    exactly one warning and leaves the active flag, the current worker, the
    stack bounds and the page table as they were; the command's address is
    remembered in [g_ct_last_cmd]. *)
Theorem C6_unknown_opcode (env : ct_env) (cmd : Z) (s : ct_state) :
  tagged env cmd ->
  (forall name, name ∈ opcodes -> ~ opcode_is env cmd name) ->
  exists s', ct_process_command env cmd s = Some s'
    /\ ct_out s' = ct_out s ++ [MsgUnknownCommand]
    /\ g_ct_active s' = g_ct_active s
    /\ g_ct_curr_thread s' = g_ct_curr_thread s
    /\ g_ct_stackbot s' = g_ct_stackbot s
    /\ g_ct_stackend s' = g_ct_stackend s
    /\ same_table s s'
    /\ g_ct_last_cmd s' = cmd.
Proof.
  intros Htag Hno. rewrite process_unknown by done. by eexists.
Qed.

Lemma C6_witness :
  tagged env_bogus 1000
  /\ (forall name, name ∈ opcodes -> ~ opcode_is env_bogus 1000 name)
  /\ exists s', ct_process_command env_bogus 1000 (state_after demo_touch)
                = Some s'
       /\ ct_out s' = ct_out (state_after demo_touch) ++ [MsgUnknownCommand]
       /\ g_ct_last_cmd s' = 1000.
Proof.
  split; [reflexivity|]. split; [exact bogus_is_no_opcode|].
  destruct (C6_unknown_opcode env_bogus 1000 (state_after demo_touch))
    as (s' & Hrun & Hout & H); [reflexivity | exact bogus_is_no_opcode |].
  exists s'. split; [exact Hrun|]. split; [exact Hout|]. apply H.
Defined.

(** ** C7 *)

(** C7 as stated fails: a store that carries a [thrd] command while the
    detector is active sets the owner of the command object's bytes. *)
Lemma C7_counterexample :
  g_ct_active (state_after demo_start) = true
  /\ read_u32 (mem env_thrd1) 3000 = MAGIC /\ tagged env_thrd1 3000
  /\ owner_of (state_after demo_start) 3000 = 0
  /\ exists s', trace_store env_thrd1 3000 4 (state_after demo_start) = Some s'
       /\ g_ct_curr_thread s' = 2
       /\ owner_of s' 3000 = 2.
Proof.
  split; [reflexivity|]. split; [reflexivity|]. split; [reflexivity|].
  split; [reflexivity|].
  eexists. split; [vm_compute; reflexivity|]. split; reflexivity.
Qed.

(** C7, amended: a store recognised as a command first updates the control
    state; if the detector is then active, the store is passed to
    [ct_on_access] like any other store.  When the stored range lies inside
    the command object no race is reported for it, and every byte of the
    range ends up owned by the (byte-wide) current worker. *)
Theorem C7_command_store_tracked (evs : list (ct_env * ct_event)) (pc : bool)
    (s : ct_state) (env : ct_env) (addr size : Z) :
  ct_run evs (ct_init pc) = Some s ->
  read_u32 (mem env) addr = MAGIC -> tagged env addr ->
  exists s1 s', ct_process_command env addr s = Some s1
    /\ ct_on_store env addr size s = Some s'
    /\ (g_ct_active s1 = false -> s' = s1)
    /\ (g_ct_active s1 = true ->
        ct_on_access env addr size true s1 = Some s'
        /\ (0 <= addr -> addr + size <= 2 ^ 64 -> size <= sizeof_ct_cmd ->
            ct_out s' = ct_out s1
            /\ forall j, 0 <= j < size ->
                 owner_of s' (addr + j) = to_uchar (g_ct_curr_thread s1))).
Proof.
  intros Hrun Hmagic Htag. apply ct_run_reach in Hrun.
  destruct (ct_process_command_spec env addr s Hrun) as (s1 & Hcmd & Hwf1 & _).
  destruct (ct_on_access_spec env addr size true s1 Hwf1)
    as (s2 & Hacc & _ & _ & _ & _ & Hwr).
  exists s1, (if g_ct_active s1 then s2 else s1).
  split; [done|]. split.
  { unfold ct_on_store. cbv zeta. rewrite Hmagic, Z.eqb_refl, Hcmd.
    cbn [mbind option_bind]. by destruct (g_ct_active s1). }
  split; [by intros ->|]. intros ->. split; [done|].
  intros H0 Hend Hsz.
  assert (Hq : ct_out s2 = ct_out s1).
  { destruct (ct_on_access_loop_quiet env addr size true (Z.to_nat size) 0 s1 Hwf1)
      as (s3 & Hrun3 & Ho3).
    - intros j Hj. right. rewrite (process_last_cmd env addr s s1) by done.
      rewrite wrap64_small by lia. lia.
    - unfold ct_on_access in Hacc. congruence. }
  split; [done|]. intros j Hj.
  rewrite <- (wrap64_small (addr + j)) by lia. by apply Hwr.
Qed.

Lemma C7_witness :
  ct_run demo_start (ct_init false) = Some (state_after demo_start)
  /\ read_u32 (mem env_thrd1) 3000 = MAGIC /\ tagged env_thrd1 3000
  /\ exists s', ct_on_store env_thrd1 3000 4 (state_after demo_start) = Some s'
       /\ ct_out s' = ct_out (state_after demo_start)
       /\ owner_of s' 3000 = 2 /\ owner_of s' 3003 = 2.
Proof.
  split; [vm_compute; reflexivity|]. split; [reflexivity|].
  split; [reflexivity|].
  destruct (C7_command_store_tracked demo_start false (state_after demo_start)
              env_thrd1 3000 4)
    as (s1 & s' & Hcmd & Hst & _ & Hon);
    [vm_compute; reflexivity | reflexivity | reflexivity |].
  assert (E : s1 = default (ct_init false)
                     (ct_process_command env_thrd1 3000
                        (state_after demo_start))) by by rewrite Hcmd.
  rewrite E in Hon.
  destruct Hon as (_ & Hin); [reflexivity|].
  destruct Hin as (Hout & Hown); [lia | lia | vm_compute; congruence |].
  exists s'. split; [exact Hst|]. split; [exact Hout|].
  split; [apply (Hown 0); lia | apply (Hown 3); lia].
Defined.

(** ** C8 *)



(** ** C9 *)

(** C9 as stated fails: with argument 255 the current worker is 256, the
    owner byte it writes is 0, and its own later access to that byte is
    not reported. *)
Lemma C9_counterexample :
  ct_run demo_worker_256 (ct_init false) = Some (state_after demo_worker_256)
  /\ g_ct_active (state_after demo_worker_256) = true
  /\ g_ct_curr_thread (state_after demo_worker_256) = 256
  /\ owner_of (state_after demo_worker_256) 5000 = 0
  /\ exists s', trace_load plain_env 5000 1 (state_after demo_worker_256)
                = Some s'
       /\ ct_out s' = ct_out (state_after demo_worker_256).
Proof.
  split; [vm_compute; reflexivity|]. split; [reflexivity|].
  split; [reflexivity|]. split; [reflexivity|].
  eexists. split; [vm_compute; reflexivity|]. reflexivity.
Qed.

(** C9, amended: with a current worker W of 256 or more, a store that
    reports no conflict records W mod 256 for each byte of its range while
    the current worker stays W, so the recorded owner differs from W.  A
    later one-byte access by the same worker to such a byte is reported as a
    conflict when W mod 256 is not 0 and the byte is not suppressed; when
    W mod 256 is 0 the byte reads as unowned and nothing is reported. *)
Theorem C9_owner_byte_wraps (evs : list (ct_env * ct_event)) (pc : bool)
    (s : ct_state) (env : ct_env) (base size : Z) :
  ct_run evs (ct_init pc) = Some s ->
  256 <= g_ct_curr_thread s ->
  exists s1, ct_on_access env base size true s = Some s1
    /\ g_ct_curr_thread s1 = g_ct_curr_thread s
    /\ (ct_out s1 = ct_out s ->
        forall j, 0 <= j < size ->
          owner_of s1 (wrap64 (base + j)) = g_ct_curr_thread s mod 256
          /\ owner_of s1 (wrap64 (base + j)) <> g_ct_curr_thread s
          /\ forall env' store,
               exists s2,
                 ct_on_access env' (wrap64 (base + j)) 1 store s1 = Some s2
                 /\ (g_ct_curr_thread s mod 256 = 0 -> ct_out s2 = ct_out s1)
                 /\ (g_ct_curr_thread s mod 256 <> 0 ->
                     never_suppressed env' s1 (wrap64 (base + j)) ->
                     ct_out s2 =
                       ct_out s1
                       ++ [race_msg (wrap64 (base + j)) 1 (wrap64 (base + j))
                             (g_ct_curr_thread s mod 256) s1])).
Proof.
  intros Hrun HW. apply ct_run_reach in Hrun.
  set (W := g_ct_curr_thread s) in *.
  destruct (ct_on_access_spec env base size true s Hrun)
    as (s1 & Hacc & Hwf1 & Hf & _ & _ & Hwr).
  assert (Hcur : g_ct_curr_thread s1 = W) by apply Hf.
  exists s1. split; [done|]. split; [done|].
  intros Hout j Hj. set (a := wrap64 (base + j)).
  assert (Hown : owner_of s1 a = W mod 256).
  { unfold a. rewrite Hwr by done. reflexivity. }
  assert (Hlt : 0 <= W mod 256 < 256) by (apply Z.mod_pos_bound; lia).
  split; [done|]. split; [lia|].
  intros env' store.
  destruct (ct_on_access_one env' a store s1 Hwf1 (wrap64_range _))
    as (s2 & Hacc2 & Ho2).
  exists s2. split; [done|]. split.
  - intros H0. rewrite Ho2. unfold conflictb. rewrite Hown, H0. done.
  - intros Hn0 Hns. rewrite Ho2. unfold conflictb. rewrite Hown, Hcur.
    rewrite (never_suppressed_false env' s1 a Hns).
    destruct (Z.eqb_spec (W mod 256) 0); [done|].
    destruct (Z.eqb_spec (W mod 256) W); [lia|]. done.
Qed.

Lemma C9_witness :
  ct_run demo_worker_257 (ct_init false) = Some (state_after demo_worker_257)
  /\ g_ct_curr_thread (state_after demo_worker_257) = 257
  /\ exists s1, ct_on_access plain_env 5000 1 true
                  (state_after demo_worker_257) = Some s1
       /\ g_ct_curr_thread s1 = 257
       /\ owner_of s1 5000 = 1
       /\ exists s2, ct_on_access plain_env 5000 1 false s1 = Some s2
            /\ ct_out s2 = ct_out s1 ++ [MsgRace 256 5000 5000 1 0].
Proof.
  assert (Hrun : ct_run demo_worker_257 (ct_init false)
                 = Some (state_after demo_worker_257))
    by (vm_compute; reflexivity).
  assert (HW : g_ct_curr_thread (state_after demo_worker_257) = 257)
    by (vm_compute; reflexivity).
  split; [exact Hrun|]. split; [exact HW|].
  destruct (C9_owner_byte_wraps demo_worker_257 false
              (state_after demo_worker_257) plain_env 5000 1 Hrun)
    as (s1 & Hacc & Hcur & Hrest); [rewrite HW; lia|].
  rewrite HW in Hcur, Hrest.
  assert (E : s1 = default (ct_init false)
                     (ct_on_access plain_env 5000 1 true
                        (state_after demo_worker_257)))
    by by rewrite Hacc.
  assert (Hout : ct_out s1 = ct_out (state_after demo_worker_257))
    by (rewrite E; vm_compute; reflexivity).
  assert (Hctl : g_ct_stackend s1 = 0 /\ g_ct_stackbot s1 = 0
                 /\ g_ct_last_cmd s1 = 2000)
    by (rewrite E; vm_compute; repeat split; reflexivity).
  exists s1. split; [exact Hacc|]. split; [exact Hcur|].
  destruct (Hrest Hout 0 ltac:(lia)) as (Hown & _ & Hre).
  change (wrap64 (5000 + 0)) with 5000 in Hown, Hre.
  change (257 mod 256) with 1 in Hown, Hre.
  split; [exact Hown|].
  destruct (Hre plain_env false) as (s2 & Hacc2 & _ & Hrep).
  exists s2. split; [exact Hacc2|].
  rewrite Hrep; [unfold race_msg; rewrite Hcur; reflexivity | lia |].
  unfold never_suppressed. destruct Hctl as (-> & -> & ->).
  change (stack_end plain_env) with 0. change sizeof_ct_cmd with 148. lia.
Defined.

(** ** C10 *)

(** C10 as stated fails: a store that arrives while the detector is
    inactive and carries an [iter] command is itself tracked, and sets the
    owner of the bytes it covers. *)
Lemma C10_counterexample :
  g_ct_active (state_after demo_inactive) = false
  /\ owner_of (state_after demo_inactive) 2000 = 0
  /\ exists s', trace_store env_iter 2000 4 (state_after demo_inactive)
                = Some s'
       /\ owner_of s' 2000 = 1.
Proof.
  split; [reflexivity|]. split; [reflexivity|].
  eexists. split; [vm_compute; reflexivity|]. reflexivity.
Qed.

(** C10, amended: while the detector is inactive a load leaves the state
    as it is; a store or modify is still checked for the magic and a
    command it carries is still processed; no race is reported by the
    command, and the page table changes only if the command is [end_for].
    If the detector is still inactive after the command, nothing else
    happens; it is active afterwards only when the command is [iter], and
    then the store itself is tracked as a write. *)
Theorem C10_inactive (evs : list (ct_env * ct_event)) (pc : bool)
    (s : ct_state) (env : ct_env) (addr size : Z) :
  ct_run evs (ct_init pc) = Some s ->
  g_ct_active s = false ->
  trace_load env addr size s = Some s
  /\ exists s1,
       (if read_u32 (mem env) addr =? MAGIC
        then ct_process_command env addr s else Some s) = Some s1
       /\ (exists l, ct_out s1 = ct_out s ++ l
                     /\ Forall (fun m => is_race m = false) l)
       /\ (same_table s s1 \/ (tagged env addr /\ opcode_is env addr "end_for"))
       /\ (g_ct_active s1 = false ->
           trace_store env addr size s = Some s1
           /\ trace_modify env addr size s = Some s1)
       /\ (g_ct_active s1 = true ->
           read_u32 (mem env) addr = MAGIC /\ tagged env addr
           /\ opcode_is env addr "iter"
           /\ trace_store env addr size s = ct_on_access env addr size true s1
           /\ trace_modify env addr size s
              = ct_on_access env addr size true s1).
Proof.
  intros Hrun Hact. apply ct_run_reach in Hrun.
  split; [unfold trace_load; by rewrite Hact|].
  unfold trace_store, trace_modify, ct_on_store. cbv zeta.
  destruct (Z.eqb_spec (read_u32 (mem env) addr) MAGIC) as [Hm|Hm].
  - destruct (ct_process_command_spec env addr s Hrun)
      as (s1 & -> & _ & Ht & Hiter & Hout).
    exists s1. cbn [mbind option_bind]. split; [done|]. split; [done|].
    split; [done|]. split; intros Ha; rewrite Ha; [done|].
    destruct (Hiter Hact Ha). done.
  - exists s. cbn [mbind option_bind]. split; [done|]. split.
    { exists []. split; [by rewrite app_nil_r | apply Forall_nil_2]. }
    split; [by left|]. rewrite Hact. split; [done|]. congruence.
Qed.

(** While inactive, a store carrying [thrd 6] sets the current worker to 7
    and leaves every owner as it was. *)
Lemma C10_witness :
  ct_run demo_inactive (ct_init false) = Some (state_after demo_inactive)
  /\ g_ct_active (state_after demo_inactive) = false
  /\ trace_load env_thrd6 3000 4 (state_after demo_inactive)
     = Some (state_after demo_inactive)
  /\ exists s1, trace_store env_thrd6 3000 4 (state_after demo_inactive)
                = Some s1
       /\ g_ct_curr_thread (state_after demo_inactive) = 1
       /\ g_ct_curr_thread s1 = 7
       /\ same_table (state_after demo_inactive) s1.
Proof.
  assert (Hrun : ct_run demo_inactive (ct_init false)
                 = Some (state_after demo_inactive))
    by (vm_compute; reflexivity).
  split; [exact Hrun|]. split; [reflexivity|].
  destruct (C10_inactive demo_inactive false (state_after demo_inactive)
              env_thrd6 3000 4 Hrun)
    as (Hload & s1 & Hcmd & _ & Ht & Hoff & _); [reflexivity|].
  split; [exact Hload|].
  assert (E : s1 = default (ct_init false)
                     (ct_process_command env_thrd6 3000
                        (state_after demo_inactive))).
  { change (read_u32 (mem env_thrd6) 3000 =? MAGIC) with true in Hcmd.
    by rewrite Hcmd. }
  exists s1. split; [apply Hoff; rewrite E; vm_compute; reflexivity|].
  split; [vm_compute; reflexivity|].
  split; [rewrite E; vm_compute; reflexivity|].
  destruct Ht as [Ht|[_ Hend]]; [exact Ht|].
  vm_compute in Hend. congruence.
Defined.

(** * Further facts about the detector *)

(** No report when every byte of the range is free of conflict or
    suppressed. *)
Lemma ct_on_access_loop_silent env base size store n : forall i s,
  ct_wf s -> Z.of_nat n <= 2 ^ 32 ->
  (forall j, i <= j < i + Z.of_nat n ->
     conflictb s (wrap64 (base + j)) = false
     \/ always_suppressed env s (wrap64 (base + j))) ->
  exists s', ct_on_access_loop env base size store n i s = Some s'
    /\ ct_out s' = ct_out s.
Proof.
  induction n as [|n IH]; intros i s Hwf Hn Hall.
  { by exists s. }
  destruct (ct_on_access_byte_spec env base size store i s Hwf)
    as (s1 & Hrun & Hwf1 & Hf1 & Ho1 & Hown1).
  cbn [ct_on_access_loop]. rewrite Hrun.
  assert (Hstop : conflictb s (wrap64 (base + i))
                  && negb (suppressed env (wrap64 (base + i)) s) = false).
  { destruct (Hall i) as [->|Hs]; [lia | done |].
    rewrite (always_suppressed_true env s _ Hs). apply andb_false_r. }
  rewrite Hstop in Ho1, Hown1 |- *. cbn [negb andb] in Hown1.
  assert (Hsame : forall j, i < j < i + Z.of_nat (S n) ->
            owner_of s1 (wrap64 (base + j)) = owner_of s (wrap64 (base + j))).
  { intros j Hj. rewrite Hown1.
    rewrite bool_decide_eq_false_2; [by destruct store|].
    replace (base + j) with (base + i + (j - i)) by lia.
    apply ct_loc_apart. lia. }
  destruct (IH (i + 1) s1 Hwf1) as (s' & Hrun' & Ho'); [lia | |].
  { intros j Hj. destruct (Hall j) as [Hc|Hs]; [lia | left | right].
    - rewrite (conflictb_frame env s s1); [done | done |]. apply Hsame. lia.
    - by eapply always_suppressed_frame. }
  exists s'. split; [done | congruence].
Qed.

(** ** Looking a page up again *)

Lemma ct_get_page_hit b s :
  ct_wf s -> page_of s b <> 0 -> ct_get_page b s = Some (page_of s b, s).
Proof.
  intros Hwf Hp.
  pose proof (wf_null2 s Hwf) as N2. pose proof (wf_null1 s Hwf) as N1.
  assert (H1 : exists n1, heap_L1 s !! l1_of s b = Some n1
                          /\ slot (pages n1) (PAGE b) = page_of s b).
  { unfold page_of in *. destruct (heap_L1 s !! l1_of s b) as [n1|]; [|done].
    by exists n1. }
  destruct H1 as (n1 & Hn1 & Hs1).
  assert (Hl1 : l1_of s b <> 0) by (intros E; rewrite E in Hn1; congruence).
  assert (H2 : exists n2, heap_L2 s !! l2_of s b = Some n2
                          /\ slot (pagetabs_L1 n2) (L1_PAGETAB b) = l1_of s b).
  { unfold l1_of in *. destruct (heap_L2 s !! l2_of s b) as [n2|]; [|done].
    by exists n2. }
  destruct H2 as (n2 & Hn2 & Hs2).
  assert (Hl2 : l2_of s b <> 0) by (intros E; rewrite E in Hn2; congruence).
  unfold ct_get_page, ct_get_pagetab_L2. cbv zeta.
  fold (l2_of s b).
  assert (E2 : (l2_of s b =? 0) = false) by by apply Z.eqb_neq.
  rewrite E2. cbn [mbind option_bind].
  unfold ct_get_pagetab_L1. rewrite Hn2. cbn [mbind option_bind]. cbv zeta.
  rewrite Hs2.
  assert (E1 : (l1_of s b =? 0) = false) by by apply Z.eqb_neq.
  rewrite E1. cbn [mbind option_bind].
  unfold ct_get_page_L1. rewrite Hn1. cbn [mbind option_bind]. cbv zeta.
  rewrite Hs1.
  assert (E0 : (page_of s b =? 0) = false) by by apply Z.eqb_neq.
  by rewrite E0.
Qed.

(** ** Counting nodes *)

Lemma size_insert_fresh_or_not {A} (m : gmap Z A) k v :
  (size m <= size (<[k := v]> m) <= S (size m))%nat.
Proof.
  rewrite map_size_insert. destruct (m !! k); unfold id; lia.
Qed.

Lemma ct_get_pagetab_L2_nodes a s :
  let s' := (ct_get_pagetab_L2 a s).2 in
  (size (heap_L2 s) <= size (heap_L2 s') <= S (size (heap_L2 s)))%nat
  /\ heap_L1 s' = heap_L1 s /\ heap_page s' = heap_page s.
Proof.
  unfold ct_get_pagetab_L2. cbv zeta.
  set (c := slot (pagetabs_L2 (g_ct_pagetab_L3 s)) (L2_PAGETAB a) =? 0).
  destruct c; st_simpl; [|split; [lia | done]].
  split; [apply size_insert_fresh_or_not | done].
Qed.

Lemma ct_get_pagetab_L1_nodes a q s :
  match ct_get_pagetab_L1 a q s with
  | Some (_, s') =>
      size (heap_L2 s') = size (heap_L2 s)
      /\ (size (heap_L1 s) <= size (heap_L1 s') <= S (size (heap_L1 s)))%nat
      /\ heap_page s' = heap_page s
  | None => True
  end.
Proof.
  unfold ct_get_pagetab_L1.
  destruct (heap_L2 s !! q) as [n2|] eqn:Hn2; cbn [mbind option_bind]; [|done].
  cbv zeta.
  set (c := slot (pagetabs_L1 n2) (L1_PAGETAB a) =? 0).
  destruct c; st_simpl.
  - split; [by rewrite map_size_insert_Some|].
    split; [apply size_insert_fresh_or_not | done].
  - split; [done|]. split; [lia | done].
Qed.

Lemma ct_get_page_L1_nodes a r s :
  match ct_get_page_L1 a r s with
  | Some (_, s') =>
      heap_L2 s' = heap_L2 s
      /\ size (heap_L1 s') = size (heap_L1 s)
      /\ (size (heap_page s) <= size (heap_page s') <= S (size (heap_page s)))%nat
  | None => True
  end.
Proof.
  unfold ct_get_page_L1.
  destruct (heap_L1 s !! r) as [n1|] eqn:Hn1; cbn [mbind option_bind]; [|done].
  cbv zeta.
  set (c := slot (pages n1) (PAGE a) =? 0).
  destruct c; st_simpl.
  - split; [done|]. split; [by rewrite map_size_insert_Some|].
    apply size_insert_fresh_or_not.
  - split; [done|]. split; [done | lia].
Qed.

Lemma ct_get_page_nodes a s :
  match ct_get_page a s with
  | Some (_, s') =>
      (allocated_nodes s <= allocated_nodes s' <= allocated_nodes s + 3)%nat
  | None => True
  end.
Proof.
  unfold ct_get_page.
  pose proof (ct_get_pagetab_L2_nodes a s) as H2. cbv zeta in H2.
  destruct (ct_get_pagetab_L2 a s) as [q s2]. cbn [fst snd] in H2.
  pose proof (ct_get_pagetab_L1_nodes a q s2) as H1.
  destruct (ct_get_pagetab_L1 a q s2) as [[r s1]|];
    cbn [mbind option_bind]; [|done].
  pose proof (ct_get_page_L1_nodes a r s1) as H0.
  destruct (ct_get_page_L1 a r s1) as [[p s0]|]; [|done].
  destruct H2 as (H2 & H2a & H2b). destruct H1 as (E1 & E1a & E1b).
  destruct H0 as (E0 & E0a & E0b).
  unfold allocated_nodes. rewrite E0, E0a, E1 in *. rewrite E1b, H2b, H2a in *.
  lia.
Qed.

Lemma same_table_nodes s s' :
  same_table s s' -> allocated_nodes s' = allocated_nodes s.
Proof.
  intros (_ & E2 & E1 & Ep & _). unfold allocated_nodes. by rewrite E2, E1, Ep.
Qed.

Lemma set_owner_byte_nodes page pg i v s :
  heap_page s !! page = Some pg ->
  allocated_nodes (set_owner_byte page pg i v s) = allocated_nodes s.
Proof.
  intros H. unfold allocated_nodes, set_owner_byte. st_simpl.
  by rewrite map_size_insert_Some.
Qed.

Lemma ct_on_access_byte_nodes env base size store i s :
  match ct_on_access_byte env base size store i s with
  | Some (_, s') =>
      (allocated_nodes s <= allocated_nodes s' <= allocated_nodes s + 3)%nat
  | None => True
  end.
Proof.
  unfold ct_on_access_byte. cbv zeta.
  pose proof (ct_get_page_nodes (wrap64 (base + i)) s) as Hg.
  destruct (ct_get_page (wrap64 (base + i)) s) as [[page s1]|];
    cbn [mbind option_bind]; [|done].
  destruct (heap_page s1 !! page) as [pg|] eqn:Hpg;
    cbn [mbind option_bind]; [|done].
  set (owner := slot (owning_thread pg) (BYTE_IN_PAGE (wrap64 (base + i)))).
  set (c := negb (owner =? 0) && negb (owner =? g_ct_curr_thread s1)).
  destruct c.
  - pose proof (ct_suppress_state env (wrap64 (base + i)) s1) as Hs.
    cbv zeta in Hs.
    destruct (ct_suppress env (wrap64 (base + i)) s1) as [sup s2].
    cbn [fst snd] in Hs. destruct Hs as (Ht & _ & _).
    pose proof (same_table_nodes _ _ Ht) as En.
    destruct sup.
    + destruct store.
      * rewrite set_owner_byte_nodes; [lia|].
        destruct Ht as (_ & _ & _ & -> & _). done.
      * lia.
    + unfold allocated_nodes in *. st_simpl. lia.
  - destruct store; [|lia].
    rewrite set_owner_byte_nodes; [lia | done].
Qed.

Lemma ct_on_access_loop_nodes env base size store n : forall i s,
  match ct_on_access_loop env base size store n i s with
  | Some s' => (allocated_nodes s <= allocated_nodes s')%nat
  | None => True
  end.
Proof.
  induction n as [|n IH]; intros i s; cbn [ct_on_access_loop]; [done|].
  pose proof (ct_on_access_byte_nodes env base size store i s) as Hb.
  destruct (ct_on_access_byte env base size store i s) as [[[|] s1]|];
    [lia | | done].
  specialize (IH (i + 1) s1).
  destruct (ct_on_access_loop env base size store n (i + 1) s1); [lia | done].
Qed.



Lemma echo_quiet m s : clo_print_commands s = false -> echo m s = s.
Proof. unfold echo. by intros ->. Qed.

(** With [--print-commands=no] a command prints at most the warning. *)
Lemma ct_process_command_quiet env cmd s :
  ct_wf s -> clo_print_commands s = false ->
  exists s', ct_process_command env cmd s = Some s'
    /\ clo_print_commands s' = false
    /\ (ct_out s' = ct_out s \/ ct_out s' = ct_out s ++ [MsgUnknownCommand]).
Proof.
  intros Hwf Hpc. unfold ct_process_command. cbv zeta.
  destruct (ct_str_is (mem env) (cmd + oft_const_magic) CONST_MAGIC);
    cbn [negb]; [|exists s; auto].
  destruct (ct_str_is (mem env) (cmd + oft_payload) "begin_for").
  { cbn [mbind option_bind]. rewrite echo_quiet by done.
    eexists. split; [done|]. st_simpl. auto. }
  destruct (ct_str_is (mem env) (cmd + oft_payload) "end_for").
  { rewrite echo_quiet by done.
    destruct (ct_clear_pagetab_spec s Hwf)
      as (s1 & -> & _ & _ & _ & _ & _ & Hc & Ho).
    cbn [mbind option_bind]. eexists. split; [done|]. st_simpl.
    destruct Hc as (-> & _). auto. }
  destruct (ct_str_is (mem env) (cmd + oft_payload) "iter").
  { cbn [mbind option_bind]. rewrite echo_quiet by done.
    eexists. split; [done|]. st_simpl. auto. }
  destruct (ct_str_is (mem env) (cmd + oft_payload) "done").
  { cbn [mbind option_bind]. rewrite echo_quiet by done.
    eexists. split; [done|]. st_simpl. auto. }
  destruct (ct_str_is (mem env) (cmd + oft_payload) "thrd").
  { cbn [mbind option_bind]. eexists. split; [done|]. st_simpl. auto. }
  destruct (ct_str_is (mem env) (cmd + oft_payload) "stackbot").
  { cbn [mbind option_bind]. rewrite echo_quiet by done.
    eexists. split; [done|]. st_simpl. auto. }
  cbn [mbind option_bind]. eexists. split; [done|]. st_simpl. auto.
Qed.

Lemma ct_step_quiet e s :
  ct_wf s -> clo_print_commands s = false ->
  exists s' l, ct_step e s = Some s' /\ ct_wf s'
    /\ clo_print_commands s' = false
    /\ ct_out s' = ct_out s ++ l /\ Forall report_or_warning l
    /\ (length l <= 2)%nat.
Proof.
  intros Hwf Hpc.
  assert (Hacc : forall env addr size store s0, ct_wf s0 ->
            clo_print_commands s0 = false ->
            exists s' l, ct_on_access env addr size store s0 = Some s'
              /\ ct_wf s' /\ clo_print_commands s' = false
              /\ ct_out s' = ct_out s0 ++ l /\ Forall report_or_warning l
              /\ (length l <= 1)%nat).
  { intros env addr size store s0 Hwf0 Hpc0.
    destruct (ct_on_access_spec env addr size store s0 Hwf0)
      as (s' & Hrun & Hwf' & Hf & (l & Ho & Hl & Hr) & _).
    exists s', l. split; [done|]. split; [done|].
    split; [destruct Hf as (-> & _); done|]. split; [done|].
    split; [|done]. eapply Forall_impl; [exact Hr|]. intros m Hm. by left. }
  assert (Hst : forall env addr size,
            exists s' l, ct_on_store env addr size s = Some s' /\ ct_wf s'
              /\ clo_print_commands s' = false
              /\ ct_out s' = ct_out s ++ l /\ Forall report_or_warning l
              /\ (length l <= 2)%nat).
  { intros env addr size. unfold ct_on_store. cbv zeta.
    assert (H : exists s1 l1,
              (if read_u32 (mem env) addr =? MAGIC
               then ct_process_command env addr s else Some s) = Some s1
              /\ ct_wf s1 /\ clo_print_commands s1 = false
              /\ ct_out s1 = ct_out s ++ l1 /\ Forall report_or_warning l1
              /\ (length l1 <= 1)%nat).
    { destruct (read_u32 (mem env) addr =? MAGIC).
      - destruct (ct_process_command_quiet env addr s Hwf Hpc)
          as (s1 & Hcmd & Hpc1 & Ho).
        destruct (ct_process_command_spec env addr s Hwf)
          as (s1' & Hcmd' & Hwf1 & _).
        assert (s1' = s1) as -> by congruence.
        destruct Ho as [Ho|Ho].
        + exists s1, []. rewrite app_nil_r.
          split_and!; try done; cbn; lia.
        + exists s1, [MsgUnknownCommand].
          split_and!; try done; try (cbn; lia).
          apply Forall_singleton. by right.
      - exists s, []. rewrite app_nil_r. split_and!; try done; cbn; lia. }
    destruct H as (s1 & l1 & -> & Hwf1 & Hpc1 & Ho1 & Hr1 & Hl1).
    cbn [mbind option_bind].
    destruct (g_ct_active s1).
    - destruct (Hacc env addr size true s1 Hwf1 Hpc1)
        as (s' & l & Hrun & Hwf' & Hpc' & Ho & Hr & Hl).
      exists s', (l1 ++ l). split; [done|]. split; [done|]. split; [done|].
      split; [by rewrite Ho, Ho1, app_assoc|].
      split; [by apply Forall_app|]. rewrite length_app. lia.
    - exists s1, l1. split; [done|]. split; [done|]. split; [done|].
      split; [done|]. split; [done|]. lia. }
  unfold ct_step. destruct e as [env [addr size|addr size|addr size]];
    cbn [fst snd]; [|apply Hst..].
  unfold trace_load. destruct (g_ct_active s).
  - destruct (Hacc env addr size false s Hwf Hpc)
      as (s' & l & Hrun & Hwf' & Hpc' & Ho & Hr & Hl).
    exists s', l. split_and!; try done; lia.
  - exists s, []. rewrite app_nil_r. split_and!; try done; cbn; lia.
Qed.

Lemma ct_on_access_loop_nodes_le env base size store n : forall i s,
  match ct_on_access_loop env base size store n i s with
  | Some s' => (allocated_nodes s' <= allocated_nodes s + 3 * n)%nat
  | None => True
  end.
Proof.
  induction n as [|n IH]; intros i s; cbn [ct_on_access_loop]; [lia|].
  pose proof (ct_on_access_byte_nodes env base size store i s) as Hb.
  destruct (ct_on_access_byte env base size store i s) as [[[|] s1]|];
    [lia | | done].
  specialize (IH (i + 1) s1).
  destruct (ct_on_access_loop env base size store n (i + 1) s1); [lia | done].
Qed.

Lemma ct_on_access_nodes env base size store s s' :
  ct_on_access env base size store s = Some s' ->
  (allocated_nodes s <= allocated_nodes s'
   <= allocated_nodes s + 3 * Z.to_nat size)%nat.
Proof.
  unfold ct_on_access. intros H.
  pose proof (ct_on_access_loop_nodes env base size store (Z.to_nat size) 0 s).
  pose proof (ct_on_access_loop_nodes_le env base size store (Z.to_nat size) 0 s).
  rewrite H in *. lia.
Qed.

(** * Further properties of the detector *)

(** X1: in every state the detector can reach, [ct_get_page] returns a
    page that is allocated and not null, allocates at most three nodes,
    frees none and changes no owner id; asked again for any address with
    the same slot path it returns that page and changes nothing; and the
    page is reached by the addresses with that slot path and by no
    other. *)
Theorem ct_get_page_again (evs : list (ct_env * ct_event)) (pc : bool)
    (s : ct_state) (a : Z) :
  ct_run evs (ct_init pc) = Some s ->
  exists p s', ct_get_page a s = Some (p, s')
    /\ p <> 0 /\ is_Some (heap_page s' !! p)
    /\ (forall b, pkey b = pkey a -> ct_get_page b s' = Some (p, s'))
    /\ (forall b, page_of s' b = p <-> pkey b = pkey a)
    /\ (allocated_nodes s <= allocated_nodes s' <= allocated_nodes s + 3)%nat
    /\ (forall b, owner_of s' b = owner_of s b).
Proof.
  intros Hrun. apply ct_run_reach in Hrun.
  destruct (ct_get_page_spec a s Hrun)
    as (p & s' & pg & Hget & Hwf' & Hpage & Hpg & _ & Hown & _).
  pose proof (ct_get_page_nodes a s) as Hn. rewrite Hget in Hn.
  assert (Hp0 : p <> 0).
  { intros ->. rewrite (wf_nullp s' Hwf') in Hpg. done. }
  exists p, s'. split; [done|]. split; [done|]. split; [by eexists|].
  split; [|split; [|split; [done|done]]].
  - intros b Hb. rewrite <- Hpage, <- (page_of_pkey s' b a Hb).
    apply ct_get_page_hit; [done|].
    rewrite (page_of_pkey s' b a Hb). congruence.
  - intros b. split.
    + intros E. symmetry. apply (wf_injp s' Hwf'); congruence.
    + intros E. rewrite <- Hpage. by apply page_of_pkey.
Qed.

Lemma ct_get_page_again_witness :
  ct_run demo_start (ct_init false) = Some (state_after demo_start)
  /\ exists p s', ct_get_page 5000 (state_after demo_start) = Some (p, s')
       /\ p <> 0
       /\ ct_get_page 5001 s' = Some (p, s')
       /\ (page_of s' 9000 = p -> pkey 9000 = pkey 5000)
       /\ (allocated_nodes s' <= allocated_nodes (state_after demo_start) + 3)%nat.
Proof.
  assert (Hrun : ct_run demo_start (ct_init false)
                 = Some (state_after demo_start)) by (vm_compute; reflexivity).
  split; [exact Hrun|].
  destruct (ct_get_page_again demo_start false (state_after demo_start) 5000 Hrun)
    as (p & s' & Hget & Hp & _ & Hagain & Hiff & Hn & _).
  exists p, s'. split; [exact Hget|]. split; [exact Hp|].
  split; [apply Hagain; reflexivity|].
  split; [apply Hiff | apply Hn].
Defined.

(** X2: from the initial state every sequence of load, store and modify
    events runs to its end: no walk of the table meets a node pointer that
    is not allocated and no allocation list fails to end.  The state
    reached satisfies the page-table invariant. *)
Theorem ct_run_safe (pc : bool) (evs : list (ct_env * ct_event)) :
  exists s, ct_run evs (ct_init pc) = Some s /\ ct_wf s.
Proof. apply ct_run_wf, ct_init_wf. Qed.

(** X3: a load changes no owner id, and leaves the current worker, the
    tracking flag, the last command and the stack bottom as they were;
    while tracking is off it changes nothing at all. *)
Theorem load_keeps_owners (evs : list (ct_env * ct_event)) (pc : bool)
    (s : ct_state) (env : ct_env) (addr size : Z) :
  ct_run evs (ct_init pc) = Some s ->
  exists s', trace_load env addr size s = Some s'
    /\ (forall b, owner_of s' b = owner_of s b)
    /\ g_ct_active s' = g_ct_active s
    /\ g_ct_curr_thread s' = g_ct_curr_thread s
    /\ g_ct_last_cmd s' = g_ct_last_cmd s
    /\ g_ct_stackbot s' = g_ct_stackbot s
    /\ (g_ct_active s = false -> s' = s).
Proof.
  intros Hrun. apply ct_run_reach in Hrun. unfold trace_load.
  destruct (g_ct_active s) eqn:Hact; [|exists s; auto 10].
  destruct (ct_on_access_spec env addr size false s Hrun)
    as (s' & Hacc & _ & Hf & _ & Hown & _).
  exists s'. split; [done|].
  destruct Hf as (_ & Hc & Ha & Ht & Hb & _).
  split; [|split_and!; try done; congruence].
  intros b. by destruct (Hown b) as [E|(? & _)].
Qed.

Lemma load_keeps_owners_witness :
  ct_run demo_start (ct_init false) = Some (state_after demo_start)
  /\ owner_of (state_after demo_start) 2000 = 1
  /\ exists s', trace_load plain_env 0x2000000 1 (state_after demo_start) = Some s'
       /\ owner_of s' 2000 = 1 /\ owner_of s' 0x2000000 = 0
       /\ g_ct_curr_thread s' = 1.
Proof.
  assert (Hrun : ct_run demo_start (ct_init false)
                 = Some (state_after demo_start)) by (vm_compute; reflexivity).
  assert (H1 : owner_of (state_after demo_start) 2000 = 1)
    by (vm_compute; reflexivity).
  assert (H2 : owner_of (state_after demo_start) 0x2000000 = 0)
    by (vm_compute; reflexivity).
  assert (H3 : g_ct_curr_thread (state_after demo_start) = 1)
    by (vm_compute; reflexivity).
  split; [exact Hrun|]. split; [exact H1|].
  destruct (load_keeps_owners demo_start false (state_after demo_start)
              plain_env 0x2000000 1 Hrun)
    as (s' & Hload & Hown & _ & Hcur & _).
  exists s'. split; [exact Hload|].
  split; [rewrite Hown; exact H1|]. split; [rewrite Hown; exact H2|].
  rewrite Hcur. exact H3.
Defined.

(** X4: an access of at most 2^32 bytes reports nothing when each of its
    bytes is unowned, owned by the current worker, or suppressed (inside
    the stack window of the running thread or inside the last command
    object).  A store then leaves each of its bytes owned by the current
    worker's id, taken as a byte; a load leaves every owner as it was. *)
Theorem no_conflict_no_report (evs : list (ct_env * ct_event)) (pc : bool)
    (s : ct_state) (env : ct_env) (base size : Z) (store : bool) :
  ct_run evs (ct_init pc) = Some s ->
  size <= 2 ^ 32 ->
  (forall j, 0 <= j < size ->
     conflictb s (wrap64 (base + j)) = false
     \/ always_suppressed env s (wrap64 (base + j))) ->
  exists s', ct_on_access env base size store s = Some s'
    /\ ct_out s' = ct_out s
    /\ (store = true -> forall j, 0 <= j < size ->
          owner_of s' (wrap64 (base + j)) = to_uchar (g_ct_curr_thread s))
    /\ (store = false -> forall b, owner_of s' b = owner_of s b).
Proof.
  intros Hrun Hsz Hall. apply ct_run_reach in Hrun.
  destruct (ct_on_access_loop_silent env base size store (Z.to_nat size) 0 s)
    as (s' & Hacc & Ho); [done | lia | intros j Hj; apply Hall; lia |].
  destruct (ct_on_access_spec env base size store s Hrun)
    as (s'' & Hacc' & _ & _ & _ & Hown & Hwr).
  assert (s'' = s') as -> by (unfold ct_on_access in Hacc'; congruence).
  exists s'. split; [done|]. split; [done|]. split.
  - intros Hs j Hj. by apply Hwr.
  - intros Hs b. destruct (Hown b) as [E|(E & _)]; congruence.
Qed.

Lemma no_conflict_no_report_witness :
  ct_run demo_two_workers (ct_init false) = Some (state_after demo_two_workers)
  /\ g_ct_curr_thread (state_after demo_two_workers) = 2
  /\ owner_of (state_after demo_two_workers) 3000 = 2
  /\ owner_of (state_after demo_two_workers) 6000 = 0
  /\ exists s', ct_on_access plain_env 3000 4 false
                  (state_after demo_two_workers) = Some s'
       /\ ct_out s' = ct_out (state_after demo_two_workers)
       /\ owner_of s' 3000 = 2.
Proof.
  assert (Hrun : ct_run demo_two_workers (ct_init false)
                 = Some (state_after demo_two_workers))
    by (vm_compute; reflexivity).
  assert (H1 : owner_of (state_after demo_two_workers) 3000 = 2)
    by (vm_compute; reflexivity).
  split; [exact Hrun|]. split; [vm_compute; reflexivity|].
  split; [exact H1|]. split; [vm_compute; reflexivity|].
  destruct (no_conflict_no_report demo_two_workers false
              (state_after demo_two_workers) plain_env 3000 4 false Hrun)
    as (s' & Hacc & Hout & _ & Hown).
  - lia.
  - intros j Hj. left.
    assert (E : j = 0 \/ j = 1 \/ j = 2 \/ j = 3) by lia.
    destruct E as [-> | [-> | [-> | ->]]]; vm_compute; reflexivity.
  - exists s'. split; [exact Hacc|]. split; [exact Hout|].
    rewrite (Hown eq_refl). exact H1.
Defined.

(** X5: a conflict across a change of worker is reported.  With tracking
    on and a current worker W in 1..255, let a byte [a] that is unowned or
    owned by W be stored to; let a [thrd] command with argument N, N+1 in
    1..255 and other than W, be stored next, its object away from [a]; let
    [a], which lies outside the command object and not below the stack
    bottom, then be loaded or stored, no store to [a] finding the magic
    number there.  The three events add exactly one line to the output,
    the report that thread N accessed [a], owned by W-1; [a] stays owned
    by W and the current worker is N+1. *)
Theorem second_worker_reported (evs : list (ct_env * ct_event)) (pc : bool)
    (s : ct_state) (env1 env2 env3 : ct_env) (a cmd sz N : Z) (store : bool) :
  ct_run evs (ct_init pc) = Some s ->
  g_ct_active s = true ->
  1 <= g_ct_curr_thread s <= 255 ->
  0 <= a < 2 ^ 64 ->
  conflictb s a = false ->
  read_u32 (mem env1) a <> MAGIC ->
  read_u32 (mem env2) cmd = MAGIC ->
  tagged env2 cmd ->
  opcode_is env2 cmd "thrd" ->
  ct_cmd_int (mem env2) cmd 4 = N ->
  0 <= N < 255 ->
  N + 1 <> g_ct_curr_thread s ->
  0 <= cmd ->
  0 <= sz <= sizeof_ct_cmd ->
  cmd + sizeof_ct_cmd <= 2 ^ 64 ->
  (forall i, 0 <= i < sz -> ct_loc (cmd + i) <> ct_loc a) ->
  ~ (cmd <= a < cmd + sizeof_ct_cmd) ->
  g_ct_stackbot s <= a ->
  (store = true -> read_u32 (mem env3) a <> MAGIC) ->
  exists s3,
    ct_run [(env1, Store a 1); (env2, Store cmd sz);
            (env3, if store then Store a 1 else Load a 1)] s = Some s3
    /\ ct_out s3 = ct_out s ++ [MsgRace N a a 1 (g_ct_curr_thread s - 1)]
    /\ owner_of s3 a = g_ct_curr_thread s
    /\ g_ct_curr_thread s3 = N + 1.
Proof.
  intros Hrun Hact HW Ha Hnc Hm1 Hm2 Htag Hop HN HNr Hne Hcmd0 Hsz Hcmd1
    Hloc Hout Hbot Hm3.
  apply ct_run_reach in Hrun.
  set (W := g_ct_curr_thread s) in *.
  (* the first store *)
  assert (H1 : exists s1, ct_step (env1, Store a 1) s = Some s1 /\ ct_wf s1
             /\ ct_out s1 = ct_out s /\ owner_of s1 a = W
             /\ ctl_frame env1 s s1).
  { unfold ct_step, trace_store, ct_on_store. cbn [fst snd]. cbv zeta.
    assert (E : (read_u32 (mem env1) a =? MAGIC) = false) by by apply Z.eqb_neq.
    rewrite E. cbn [mbind option_bind]. rewrite Hact.
    destruct (ct_on_access_loop_silent env1 a 1 true (Z.to_nat 1) 0 s)
      as (s1 & Hacc & Ho); [done | lia | |].
    { intros j Hj. assert (j = 0) as -> by lia.
      rewrite Z.add_0_r, wrap64_small by done. by left. }
    destruct (ct_on_access_spec env1 a 1 true s Hrun)
      as (s1' & Hacc' & Hwf1 & Hf & _ & _ & Hwr).
    assert (s1' = s1) as -> by (unfold ct_on_access in Hacc'; congruence).
    exists s1. split; [done|]. split; [done|]. split; [done|].
    split; [|done].
    specialize (Hwr eq_refl Ho 0). rewrite Z.add_0_r, wrap64_small in Hwr by done.
    rewrite Hwr by lia. unfold to_uchar. apply Z.mod_small. unfold W. lia. }
  destruct H1 as (s1 & Hs1 & Hwf1 & Ho1 & Hown1 & Hf1).
  (* the command *)
  assert (H2 : exists s2, ct_step (env2, Store cmd sz) s1 = Some s2 /\ ct_wf s2
             /\ ct_out s2 = ct_out s /\ owner_of s2 a = W
             /\ g_ct_curr_thread s2 = N + 1 /\ g_ct_last_cmd s2 = cmd
             /\ g_ct_stackbot s2 = g_ct_stackbot s /\ g_ct_active s2 = true).
  { unfold ct_step, trace_store, ct_on_store. cbn [fst snd]. cbv zeta.
    rewrite Hm2, Z.eqb_refl, process_thrd by done.
    cbn [mbind option_bind]. rewrite HN.
    set (s1' := set_last_cmd cmd (set_curr_thread (to_Int (N + 1)) s1)).
    assert (Hact1 : g_ct_active s1' = true).
    { unfold s1'. st_simpl. destruct Hf1 as (_ & _ & -> & _). done. }
    rewrite Hact1.
    assert (Hwf1' : ct_wf s1') by (eapply same_table_wf; [|exact Hwf1]; done).
    destruct (ct_on_access_loop_quiet env2 cmd sz true (Z.to_nat sz) 0 s1')
      as (s2 & Hacc & Ho2); [done | |].
    { intros j Hj. right. unfold s1'. st_simpl.
      rewrite wrap64_small by (unfold sizeof_ct_cmd, MAX_CMD in *; lia).
      unfold sizeof_ct_cmd, MAX_CMD in *. lia. }
    destruct (ct_on_access_spec env2 cmd sz true s1' Hwf1')
      as (s2' & Hacc' & Hwf2 & Hf2 & _ & Hown2 & _).
    assert (s2' = s2) as -> by (unfold ct_on_access in Hacc'; congruence).
    exists s2. split; [done|]. split; [done|].
    split; [rewrite Ho2; unfold s1'; st_simpl; done|].
    destruct Hf2 as (_ & Hc2 & Ha2 & Ht2 & Hb2 & _).
    split; [|split; [|split; [|split; [|congruence]]]].
    - destruct (Hown2 a) as [E|(_ & _ & j & Hj & E)].
      + rewrite E. unfold s1'. rewrite <- Hown1. by apply same_table_owner.
      + exfalso. apply (Hloc j Hj).
        rewrite wrap64_small in E by (unfold sizeof_ct_cmd, MAX_CMD in *; lia).
        done.
    - rewrite Ht2. unfold s1'. st_simpl. apply to_Int_small. lia.
    - rewrite Hc2. unfold s1'. by st_simpl.
    - rewrite Hb2. unfold s1'. st_simpl. by destruct Hf1 as (_ & _ & _ & _ & -> & _). }
  destruct H2 as (s2 & Hs2 & Hwf2 & Ho2 & Hown2 & Hcur2 & Hlast2 & Hbot2 & Hact2).
  (* the access of the second worker *)
  assert (H3 : exists s3, ct_on_access env3 a 1 store s2 = Some s3
             /\ ct_out s3 = ct_out s ++ [MsgRace N a a 1 (W - 1)]
             /\ owner_of s3 a = W /\ g_ct_curr_thread s3 = N + 1).
  { destruct (ct_on_access_loop_first env3 a 1 store (Z.to_nat 1) 0 s2 0)
      as (s3 & Hacc & Ho3 & _ & Hown3); try done; try lia.
    - rewrite Z.add_0_r, wrap64_small by done. unfold conflictb.
      rewrite Hown2, Hcur2.
      assert (E0 : (W =? 0) = false) by (apply Z.eqb_neq; unfold W; lia).
      assert (E1 : (W =? N + 1) = false) by (apply Z.eqb_neq; unfold W; lia).
      by rewrite E0, E1.
    - rewrite Z.add_0_r, wrap64_small by done. unfold never_suppressed.
      rewrite Hbot2, Hlast2. split_and!; lia.
    - destruct (ct_on_access_spec env3 a 1 store s2 Hwf2)
        as (s3' & Hacc' & _ & Hf3 & _).
      assert (s3' = s3) as -> by (unfold ct_on_access in Hacc'; congruence).
      exists s3. split; [done|]. split; [|split].
      + rewrite Ho3, Ho2. unfold race_msg.
        rewrite Z.add_0_r, wrap64_small, Hown2, Hcur2 by done.
        rewrite !to_Int_small; [|unfold W; lia..|lia].
        by replace (N + 1 - 1) with N by lia.
      + rewrite Hown3; [done|]. intros j Hj. lia.
      + destruct Hf3 as (_ & _ & _ & -> & _). done. }
  destruct H3 as (s3 & Hs3 & Ho3 & Hown3 & Hcur3).
  exists s3. cbn [ct_run]. rewrite Hs1. cbn [mbind option_bind].
  rewrite Hs2. cbn [mbind option_bind].
  split; [|done].
  unfold ct_step. destruct store; cbn [fst snd].
  - unfold trace_store, ct_on_store. cbv zeta.
    assert (E : (read_u32 (mem env3) a =? MAGIC) = false)
      by (apply Z.eqb_neq; auto).
    rewrite E. cbn [mbind option_bind]. rewrite Hact2, Hs3. done.
  - unfold trace_load. rewrite Hact2, Hs3. done.
Qed.

Lemma second_worker_reported_witness :
  ct_run demo_start (ct_init false) = Some (state_after demo_start)
  /\ g_ct_curr_thread (state_after demo_start) = 1
  /\ exists s3,
       ct_run [(plain_env, Store 5000 1); (env_thrd1, Store 3000 4);
               (plain_env, Load 5000 1)] (state_after demo_start) = Some s3
       /\ ct_out s3 = ct_out (state_after demo_start) ++ [MsgRace 1 5000 5000 1 0]
       /\ owner_of s3 5000 = 1
       /\ g_ct_curr_thread s3 = 2.
Proof.
  assert (Hrun : ct_run demo_start (ct_init false)
                 = Some (state_after demo_start)) by (vm_compute; reflexivity).
  assert (HW : g_ct_curr_thread (state_after demo_start) = 1)
    by (vm_compute; reflexivity).
  split; [exact Hrun|]. split; [exact HW|].
  destruct (second_worker_reported demo_start false (state_after demo_start)
              plain_env env_thrd1 plain_env 5000 3000 4 1 false Hrun)
    as (s3 & Hrun3 & Hout & Hown & Hcur).
  - vm_compute; reflexivity.
  - rewrite HW. lia.
  - lia.
  - vm_compute; reflexivity.
  - vm_compute. discriminate.
  - vm_compute; reflexivity.
  - reflexivity.
  - reflexivity.
  - vm_compute; reflexivity.
  - lia.
  - rewrite HW. lia.
  - lia.
  - unfold sizeof_ct_cmd, MAX_CMD. lia.
  - unfold sizeof_ct_cmd, MAX_CMD. lia.
  - intros i Hi. assert (E : i = 0 \/ i = 1 \/ i = 2 \/ i = 3) by lia.
    destruct E as [-> | [-> | [-> | ->]]]; vm_compute; congruence.
  - unfold sizeof_ct_cmd, MAX_CMD. lia.
  - assert (E : g_ct_stackbot (state_after demo_start) = 0)
      by (vm_compute; reflexivity).
    rewrite E. lia.
  - discriminate.
  - exists s3. rewrite HW in Hout, Hown.
    split; [exact Hrun3|]. split; [exact Hout|]. split; [exact Hown | exact Hcur].
Defined.

(** X6: a store is taken for a command exactly when the memory at its
    address holds the magic number followed by the sixteen marker bytes,
    whatever the size of the store.  Then the last command becomes the
    address of the store.  Otherwise the store is handled as an access and
    nothing else: the last command, the tracking flag, the current worker
    and the stack bottom are unchanged, and what is printed, if anything,
    is a race report and no warning. *)
Theorem command_recognition (evs : list (ct_env * ct_event)) (pc : bool)
    (s : ct_state) (env : ct_env) (addr size : Z) :
  ct_run evs (ct_init pc) = Some s ->
  exists s', ct_on_store env addr size s = Some s'
    /\ (read_u32 (mem env) addr = MAGIC
        /\ begins_with (mem env) (addr + oft_const_magic) CONST_MAGIC ->
        g_ct_last_cmd s' = addr)
    /\ (~ (read_u32 (mem env) addr = MAGIC
           /\ begins_with (mem env) (addr + oft_const_magic) CONST_MAGIC) ->
        ct_on_store env addr size s
        = (if g_ct_active s then ct_on_access env addr size true s else Some s)
        /\ g_ct_last_cmd s' = g_ct_last_cmd s
        /\ g_ct_active s' = g_ct_active s
        /\ g_ct_curr_thread s' = g_ct_curr_thread s
        /\ g_ct_stackbot s' = g_ct_stackbot s
        /\ exists l, ct_out s' = ct_out s ++ l
             /\ Forall (fun m => is_race m = true) l).
Proof.
  intros Hrun. apply ct_run_reach in Hrun.
  destruct (ct_on_store_wf env addr size s Hrun) as (s' & Hst & Hwf').
  exists s'. split; [done|]. split.
  - intros [Hm Htag]. apply ct_str_is_iff in Htag.
    revert Hst. unfold ct_on_store. cbv zeta. rewrite Hm, Z.eqb_refl.
    destruct (ct_process_command_spec env addr s Hrun)
      as (s1 & Hcmd & Hwf1 & _).
    rewrite Hcmd. cbn [mbind option_bind].
    pose proof (process_last_cmd env addr s s1 Htag Hcmd) as Hl.
    destruct (g_ct_active s1); [|by intros [= <-]].
    intros Hacc.
    destruct (ct_on_access_spec env addr size true s1 Hwf1)
      as (s2 & Hacc' & _ & Hf & _).
    assert (s2 = s') as -> by congruence.
    destruct Hf as (_ & -> & _). done.
  - intros Hno.
    assert (E : ct_on_store env addr size s
                = (if g_ct_active s then ct_on_access env addr size true s
                   else Some s)).
    { unfold ct_on_store. cbv zeta.
      destruct (Z.eqb_spec (read_u32 (mem env) addr) MAGIC) as [Hm|Hm]; [|done].
      unfold ct_process_command. cbv zeta.
      destruct (ct_str_is (mem env) (addr + oft_const_magic) CONST_MAGIC)
        eqn:Htag; [|done].
      exfalso. apply Hno. split; [done|]. by apply ct_str_is_iff. }
    split; [done|]. rewrite E in Hst.
    destruct (g_ct_active s) eqn:Hact.
    + destruct (ct_on_access_spec env addr size true s Hrun)
        as (s2 & Hacc' & _ & Hf & (l & Ho & _ & Hr) & _).
      assert (s2 = s') as -> by congruence.
      destruct Hf as (_ & Hc & Ha & Ht & Hb & _).
      do 4 (split; [congruence|]). by exists l.
    + injection Hst as <-. do 4 (split; [done|]).
      exists []. by rewrite app_nil_r.
Qed.

Lemma command_recognition_witness :
  ct_run demo_inactive (ct_init false) = Some (state_after demo_inactive)
  /\ read_u32 (mem env_iter) 2000 = MAGIC
  /\ exists s', ct_on_store env_iter 2000 1 (state_after demo_inactive) = Some s'
       /\ g_ct_last_cmd s' = 2000.
Proof.
  assert (Hrun : ct_run demo_inactive (ct_init false)
                 = Some (state_after demo_inactive)) by (vm_compute; reflexivity).
  assert (Hm : read_u32 (mem env_iter) 2000 = MAGIC) by (vm_compute; reflexivity).
  split; [exact Hrun|]. split; [exact Hm|].
  destruct (command_recognition demo_inactive false (state_after demo_inactive)
              env_iter 2000 1 Hrun) as (s' & Hst & Hyes & _).
  exists s'. split; [exact Hst|]. apply Hyes. split; [exact Hm|].
  apply ct_str_is_iff. reflexivity.
Defined.

(** X7: no payload passes the check of [ct_str_is] against two of the six
    opcode names: the names differ in their first letter, so the order of
    the tests in [ct_process_command] decides nothing. *)
Theorem opcode_unambiguous (m : Z -> ascii) (v : Z) (n1 n2 : string) :
  n1 ∈ opcodes -> n2 ∈ opcodes ->
  ct_str_is m v n1 = true -> ct_str_is m v n2 = true -> n1 = n2.
Proof.
  unfold opcodes. intros H1 H2 E1 E2.
  repeat (apply elem_of_cons in H1 as [->|H1]); [..|by apply elem_of_nil in H1];
    repeat (apply elem_of_cons in H2 as [->|H2]);
    try done; try (by apply elem_of_nil in H2);
    apply ct_str_is_head in E1; apply ct_str_is_head in E2;
    rewrite E1 in E2; discriminate.
Qed.

Lemma opcode_unambiguous_witness :
  ("iter"%string ∈ opcodes)
  /\ ct_str_is (mem env_iteration) 1020 "iter" = true
  /\ forall n, n ∈ opcodes -> ct_str_is (mem env_iteration) 1020 n = true ->
       n = "iter"%string.
Proof.
  assert (Hin : "iter"%string ∈ opcodes)
    by (unfold opcodes; repeat first [by left | right]).
  assert (Hop : ct_str_is (mem env_iteration) 1020 "iter" = true)
    by reflexivity.
  split; [exact Hin|]. split; [exact Hop|].
  intros n Hn En.
  exact (opcode_unambiguous (mem env_iteration) 1020 n "iter" Hn Hin En Hop).
Defined.

(** X8: with [--print-commands] off, as it is by default, the output of
    any run holds nothing but race reports and unknown-command warnings,
    and at most two lines for each event. *)
Theorem quiet_without_print_commands (evs : list (ct_env * ct_event)) :
  exists s, ct_run evs (ct_init false) = Some s
    /\ Forall report_or_warning (ct_out s)
    /\ (length (ct_out s) <= 2 * length evs)%nat.
Proof.
  assert (H : forall evs s, ct_wf s -> clo_print_commands s = false ->
            exists s' l, ct_run evs s = Some s'
              /\ ct_out s' = ct_out s ++ l /\ Forall report_or_warning l
              /\ (length l <= 2 * length evs)%nat).
  { clear evs. induction evs as [|e evs IH]; intros s Hwf Hpc; cbn [ct_run].
    - exists s, []. rewrite app_nil_r. split_and!; try done; cbn; lia.
    - destruct (ct_step_quiet e s Hwf Hpc)
        as (s1 & l1 & -> & Hwf1 & Hpc1 & Ho1 & Hr1 & Hl1).
      cbn [mbind option_bind].
      destruct (IH s1 Hwf1 Hpc1) as (s' & l & Hrun & Ho & Hr & Hl).
      exists s', (l1 ++ l). split; [done|].
      split; [by rewrite Ho, Ho1, app_assoc|].
      split; [by apply Forall_app|]. rewrite length_app. cbn [length]. lia. }
  destruct (H evs (ct_init false) (ct_init_wf false) eq_refl)
    as (s & l & Hrun & Ho & Hr & Hl).
  exists s. split; [done|]. cbn in Ho. rewrite Ho. done.
Qed.



(** X10: an event that carries no [end_for] command frees no node of the
    page table and allocates at most three nodes for each byte it
    covers. *)
Theorem allocation_grows (evs : list (ct_env * ct_event)) (pc : bool)
    (s : ct_state) (e : ct_env * ct_event) :
  ct_run evs (ct_init pc) = Some s ->
  no_end_for e ->
  exists s', ct_step e s = Some s'
    /\ (allocated_nodes s <= allocated_nodes s'
        <= allocated_nodes s + 3 * Z.to_nat (event_size e))%nat.
Proof.
  intros Hrun Hne. apply ct_run_reach in Hrun.
  destruct (ct_step_wf e s Hrun) as (s' & Hst & _).
  exists s'. split; [done|]. revert Hst Hne.
  unfold ct_step, no_end_for, event_size.
  assert (Hst : forall env addr size, ~ is_end_for env addr ->
            ct_on_store env addr size s = Some s' ->
            (allocated_nodes s <= allocated_nodes s'
             <= allocated_nodes s + 3 * Z.to_nat size)%nat).
  { intros env addr size Hne. unfold ct_on_store. cbv zeta.
    assert (H : exists s1,
              (if read_u32 (mem env) addr =? MAGIC
               then ct_process_command env addr s else Some s) = Some s1
              /\ allocated_nodes s1 = allocated_nodes s).
    { destruct (Z.eqb_spec (read_u32 (mem env) addr) MAGIC) as [Hm|Hm];
        [|by exists s].
      destruct (ct_process_command_spec env addr s Hrun)
        as (s1 & Hcmd & _ & [Ht|[Htag Hop]] & _).
      - exists s1. split; [done|]. by apply same_table_nodes.
      - exfalso. by apply Hne. }
    destruct H as (s1 & -> & Hn1). cbn [mbind option_bind].
    destruct (g_ct_active s1).
    - intros Hacc. apply ct_on_access_nodes in Hacc. lia.
    - intros [= <-]. lia. }
  destruct e as [env [addr size|addr size|addr size]]; cbn [fst snd];
    [|intros; by eapply Hst..].
  unfold trace_load. destruct (g_ct_active s).
  - intros Hacc _. by apply ct_on_access_nodes in Hacc.
  - intros [= <-] _. lia.
Qed.

Lemma allocation_grows_witness :
  ct_run demo_start (ct_init false) = Some (state_after demo_start)
  /\ allocated_nodes (state_after demo_start) = 3%nat
  /\ exists s', ct_step (plain_env, Load 0x2000000 1) (state_after demo_start)
                = Some s'
       /\ (3 <= allocated_nodes s' <= 6)%nat.
Proof.
  assert (Hrun : ct_run demo_start (ct_init false)
                 = Some (state_after demo_start)) by (vm_compute; reflexivity).
  assert (Hn : allocated_nodes (state_after demo_start) = 3%nat)
    by (vm_compute; reflexivity).
  split; [exact Hrun|]. split; [exact Hn|].
  destruct (allocation_grows demo_start false (state_after demo_start)
              (plain_env, Load 0x2000000 1) Hrun)
    as (s' & Hst & Hle); [exact I|].
  exists s'. split; [exact Hst|]. rewrite Hn in Hle.
  unfold event_size in Hle. cbn [snd] in Hle.
  change (Z.to_nat 1) with 1%nat in Hle. lia.
Defined.

(** ** A modify against a load and a store *)

Lemma suppressed_stable env s t p :
  ctl_frame env s t -> ~ stale_window env s p ->
  suppressed env p t
  = ((stack_end env <=? p) && (p <? g_ct_stackbot s) || in_last_cmd p s).
Proof.
  unfold ctl_frame, stale_window, suppressed, ct_suppress, in_last_cmd,
    set_stackend.
  intros (_ & E1 & _ & _ & E2 & E3) Hst. cbv zeta. st_simpl. rewrite E1, E2.
  destruct (Z.leb_spec (g_ct_stackend t) p);
    destruct (Z.ltb_spec p (g_ct_stackbot s)); cbn [andb fst];
    destruct (Z.ltb_spec p (g_ct_stackend t)); cbn [andb fst orb]; try lia;
    destruct (Z.leb_spec (stack_end env) p); cbn [andb fst orb]; try done;
    lia.
Qed.

Lemma stop_stable env s t1 t2 p :
  ctl_frame env s t1 -> ctl_frame env s t2 -> ~ stale_window env s p ->
  owner_of t1 p = owner_of t2 p ->
  conflictb t1 p && negb (suppressed env p t1)
  = conflictb t2 p && negb (suppressed env p t2).
Proof.
  intros F1 F2 Hst Ho.
  rewrite (suppressed_stable env s t1 p F1 Hst),
    (suppressed_stable env s t2 p F2 Hst).
  unfold conflictb. rewrite Ho.
  destruct F1 as (_ & _ & _ & -> & _), F2 as (_ & _ & _ & -> & _). done.
Qed.

(** Two runs of the loop from states that agree on the owners: the same
    report or none, and the same owners at the end. *)
Lemma loop_lockstep env s base size store n : forall i t1 t2,
  ct_wf t1 -> ct_wf t2 -> ctl_frame env s t1 -> ctl_frame env s t2 ->
  (forall b, owner_of t1 b = owner_of t2 b) ->
  (forall j, i <= j < i + Z.of_nat n ->
     ~ stale_window env s (wrap64 (base + j))) ->
  exists t1' t2' l,
    ct_on_access_loop env base size store n i t1 = Some t1'
    /\ ct_on_access_loop env base size store n i t2 = Some t2'
    /\ ct_out t1' = ct_out t1 ++ l /\ ct_out t2' = ct_out t2 ++ l
    /\ (forall b, owner_of t1' b = owner_of t2' b).
Proof.
  induction n as [|n IH]; intros i t1 t2 W1 W2 F1 F2 Ho Hst.
  { exists t1, t2, []. by rewrite !app_nil_r. }
  destruct (ct_on_access_byte_spec env base size store i t1 W1)
    as (u1 & R1 & W1' & G1 & O1 & N1).
  destruct (ct_on_access_byte_spec env base size store i t2 W2)
    as (u2 & R2 & W2' & G2 & O2 & N2).
  assert (Hs : ~ stale_window env s (wrap64 (base + i))) by (apply Hst; lia).
  pose proof (stop_stable env s t1 t2 _ F1 F2 Hs (Ho _)) as Estop.
  assert (Ecur : g_ct_curr_thread t1 = g_ct_curr_thread t2).
  { destruct F1 as (_ & _ & _ & -> & _), F2 as (_ & _ & _ & -> & _). done. }
  cbn [ct_on_access_loop]. rewrite R1, R2, <- Estop.
  rewrite <- Estop in O2, N2.
  destruct (conflictb t1 (wrap64 (base + i))
            && negb (suppressed env (wrap64 (base + i)) t1)).
  - exists u1, u2, [race_msg base size (wrap64 (base + i))
                      (owner_of t1 (wrap64 (base + i))) t1].
    split; [done|]. split; [done|]. split; [done|]. split.
    + rewrite O2, <- Ho. unfold race_msg. by rewrite Ecur.
    + intros b. rewrite N1, N2. cbn [negb andb]. apply Ho.
  - destruct (IH (i + 1) u1 u2 W1' W2') as (t1' & t2' & l & Q1 & Q2 & P1 & P2 & P3).
    + exact (ctl_frame_trans env s t1 u1 F1 G1).
    + exact (ctl_frame_trans env s t2 u2 F2 G2).
    + intros b. rewrite N1, N2, Ecur, Ho. done.
    + intros j Hj. apply Hst. lia.
    + exists t1', t2', l. rewrite <- O1, <- O2. done.
Qed.

(** A run of the loop for a load against one for a store, from states that
    agree on the owners of the bytes still to come: the same report or
    none. *)
Lemma load_store_lockstep env s base size n : forall i t1 t2,
  ct_wf t1 -> ct_wf t2 -> ctl_frame env s t1 -> ctl_frame env s t2 ->
  Z.of_nat n <= 2 ^ 32 ->
  (forall j, i <= j < i + Z.of_nat n ->
     owner_of t1 (wrap64 (base + j)) = owner_of t2 (wrap64 (base + j))) ->
  (forall j, i <= j < i + Z.of_nat n ->
     ~ stale_window env s (wrap64 (base + j))) ->
  exists t1' t2' l,
    ct_on_access_loop env base size false n i t1 = Some t1'
    /\ ct_on_access_loop env base size true n i t2 = Some t2'
    /\ ct_out t1' = ct_out t1 ++ l /\ ct_out t2' = ct_out t2 ++ l
    /\ (length l <= 1)%nat.
Proof.
  induction n as [|n IH]; intros i t1 t2 W1 W2 F1 F2 Hn Ho Hst.
  { exists t1, t2, []. rewrite !app_nil_r. cbn. split_and!; try done; lia. }
  destruct (ct_on_access_byte_spec env base size false i t1 W1)
    as (u1 & R1 & W1' & G1 & O1 & N1).
  destruct (ct_on_access_byte_spec env base size true i t2 W2)
    as (u2 & R2 & W2' & G2 & O2 & N2).
  assert (Hs : ~ stale_window env s (wrap64 (base + i))) by (apply Hst; lia).
  assert (Ho0 : owner_of t1 (wrap64 (base + i)) = owner_of t2 (wrap64 (base + i)))
    by (apply Ho; lia).
  pose proof (stop_stable env s t1 t2 _ F1 F2 Hs Ho0) as Estop.
  assert (Ecur : g_ct_curr_thread t1 = g_ct_curr_thread t2).
  { destruct F1 as (_ & _ & _ & -> & _), F2 as (_ & _ & _ & -> & _). done. }
  cbn [ct_on_access_loop]. rewrite R1, R2, <- Estop.
  rewrite <- Estop in O2, N2.
  destruct (conflictb t1 (wrap64 (base + i))
            && negb (suppressed env (wrap64 (base + i)) t1)).
  - exists u1, u2, [race_msg base size (wrap64 (base + i))
                      (owner_of t1 (wrap64 (base + i))) t1].
    split; [done|]. split; [done|]. split; [done|]. split; [|cbn; lia].
    rewrite O2, <- Ho0. unfold race_msg. by rewrite Ecur.
  - destruct (IH (i + 1) u1 u2 W1' W2') as (t1' & t2' & l & Q1 & Q2 & P1 & P2 & P3).
    + exact (ctl_frame_trans env s t1 u1 F1 G1).
    + exact (ctl_frame_trans env s t2 u2 F2 G2).
    + lia.
    + intros j Hj. rewrite N1, N2. cbn [negb andb].
      rewrite bool_decide_eq_false_2; [apply Ho; lia|].
      replace (base + j) with (base + i + (j - i)) by lia.
      apply ct_loc_apart. lia.
    + intros j Hj. apply Hst. lia.
    + exists t1', t2', l. rewrite <- O1, <- O2. done.
Qed.

(** X11: merging a load and a store into one modify loses no report.  When
    the memory at the address does not hold the magic number, the access
    has at most 2^32 bytes and none of them lies in the stale part of the
    recorded stack window,
    [trace_modify] prints the report that [trace_load] followed by
    [trace_store] prints, once where they print it twice, or nothing where
    they print nothing; and both leave the same owner for every byte. *)
Theorem modify_for_load_and_store (evs : list (ct_env * ct_event)) (pc : bool)
    (s : ct_state) (env : ct_env) (addr size : Z) :
  ct_run evs (ct_init pc) = Some s ->
  read_u32 (mem env) addr <> MAGIC ->
  size <= 2 ^ 32 ->
  (forall j, 0 <= j < size -> ~ stale_window env s (wrap64 (addr + j))) ->
  exists s_l s_ls s_m l,
    trace_load env addr size s = Some s_l
    /\ trace_store env addr size s_l = Some s_ls
    /\ trace_modify env addr size s = Some s_m
    /\ ct_out s_m = ct_out s ++ l
    /\ ct_out s_ls = ct_out s ++ l ++ l
    /\ (length l <= 1)%nat
    /\ (forall b, owner_of s_ls b = owner_of s_m b).
Proof.
  intros Hrun Hmagic Hsz Hst. apply ct_run_reach in Hrun.
  apply Z.eqb_neq in Hmagic.
  unfold trace_store, trace_modify, ct_on_store, trace_load. cbv zeta.
  rewrite Hmagic. cbn [mbind option_bind].
  destruct (g_ct_active s) eqn:Hact.
  2: { exists s, s, s, []. rewrite Hact, !app_nil_r. cbn. auto 10. }
  destruct (ct_on_access_spec env addr size false s Hrun)
    as (s_l & Hl & Wl & Fl & _ & Ownl & _).
  assert (Hown : forall b, owner_of s_l b = owner_of s b).
  { intros b. destruct (Ownl b) as [E|(E & _)]; [done | discriminate]. }
  assert (Hact' : g_ct_active s_l = true).
  { destruct Fl as (_ & _ & -> & _). done. }
  destruct (load_store_lockstep env s addr size (Z.to_nat size) 0 s s)
    as (t1 & s_m & l & Q1 & Q2 & P1 & P2 & P3);
    [done | done | apply ctl_frame_refl | apply ctl_frame_refl | lia | done
    | intros j Hj; apply Hst; lia |].
  destruct (loop_lockstep env s addr size true (Z.to_nat size) 0 s_l s)
    as (s_ls & t2 & l' & Q3 & Q4 & P4 & P5 & P6);
    [done | done | done | apply ctl_frame_refl | done
    | intros j Hj; apply Hst; lia |].
  unfold ct_on_access in *.
  assert (t1 = s_l) as -> by congruence.
  assert (t2 = s_m) as -> by congruence.
  assert (l' = l) as -> by (rewrite P2 in P5; by apply app_inv_head in P5).
  exists s_l, s_ls, s_m, l. rewrite Hact'.
  split; [done|]. split; [done|]. split; [done|]. split; [done|].
  split; [by rewrite P4, P1, <- app_assoc|]. done.
Qed.

Lemma modify_for_load_and_store_witness :
  ct_run demo_two_workers (ct_init false) = Some (state_after demo_two_workers)
  /\ g_ct_curr_thread (state_after demo_two_workers) = 2
  /\ owner_of (state_after demo_two_workers) 5000 = 1
  /\ exists s_l s_ls s_m,
       trace_load plain_env 5000 2 (state_after demo_two_workers) = Some s_l
       /\ trace_store plain_env 5000 2 s_l = Some s_ls
       /\ trace_modify plain_env 5000 2 (state_after demo_two_workers) = Some s_m
       /\ ct_out s_m = ct_out (state_after demo_two_workers)
                       ++ [MsgRace 1 5000 5000 2 0]
       /\ ct_out s_ls = ct_out (state_after demo_two_workers)
                        ++ [MsgRace 1 5000 5000 2 0; MsgRace 1 5000 5000 2 0]
       /\ owner_of s_ls 5000 = owner_of s_m 5000.
Proof.
  assert (Hrun : ct_run demo_two_workers (ct_init false)
                 = Some (state_after demo_two_workers))
    by (vm_compute; reflexivity).
  assert (Hm : ct_out <$> trace_modify plain_env 5000 2
                            (state_after demo_two_workers)
               = Some (ct_out (state_after demo_two_workers)
                       ++ [MsgRace 1 5000 5000 2 0]))
    by (vm_compute; reflexivity).
  split; [exact Hrun|]. split; [vm_compute; reflexivity|].
  split; [vm_compute; reflexivity|].
  destruct (modify_for_load_and_store demo_two_workers false
              (state_after demo_two_workers) plain_env 5000 2 Hrun)
    as (s_l & s_ls & s_m & l & Hl & Hls & Hmod & Hout & Hout2 & _ & Hown).
  - vm_compute. discriminate.
  - lia.
  - intros j Hj [H1 _].
    assert (E : g_ct_stackbot (state_after demo_two_workers) = 0)
      by (vm_compute; reflexivity).
    assert (E' : g_ct_stackend (state_after demo_two_workers) = 0)
      by (vm_compute; reflexivity).
    rewrite E, E' in H1. lia.
  - rewrite Hmod in Hm.
    pose proof (f_equal (default []) Hm) as Hd.
    cbn [fmap option_fmap option_map default] in Hd.
    rewrite Hout in Hd. apply app_inv_head in Hd.
    rewrite Hd in Hout, Hout2. exists s_l, s_ls, s_m.
    split; [exact Hl|]. split; [exact Hls|]. split; [exact Hmod|].
    split; [exact Hout|]. split; [exact Hout2 | apply Hown].
Defined.

(** * The instrumentation pass: the buffer and the calls it yields *)

Section instrument_facts.
Import Instrument.
Context `{Vex}.

(** ** Lists of statements *)

Lemma omap_id_Some {A} (l : list A) : omap id (map Some l) = l.
Proof. induction l as [|x l IH]; cbn; [done | by rewrite IH]. Qed.

Lemma call_of_helper e : Forall (fun st => is_helper_call st = true) (call_of e).
Proof.
  unfold call_of, helper_call. destruct (helper_of (ekind e)) as [[n f]|].
  - by apply Forall_singleton.
  - apply Forall_nil_2.
Qed.

Lemma calls_helper l : Forall (fun st => is_helper_call st = true) (calls l).
Proof.
  induction l as [|e l IH]; cbn; [apply Forall_nil_2|].
  apply Forall_app. split; [apply call_of_helper | done].
Qed.

Lemma filter_all {A} (f : A -> bool) l :
  Forall (fun x => f x = true) l -> List.filter f l = l.
Proof.
  induction 1 as [|x l Hx _ IH]; cbn; [done|]. by rewrite Hx, IH.
Qed.

Lemma filter_none {A} (f : A -> bool) l :
  Forall (fun x => f x = true) l -> List.filter (fun x => negb (f x)) l = [].
Proof.
  induction 1 as [|x l Hx _ IH]; cbn; [done|]. by rewrite Hx.
Qed.

Lemma helper_calls_app l1 l2 :
  helper_calls (l1 ++ l2) = helper_calls l1 ++ helper_calls l2.
Proof. unfold helper_calls. by rewrite omap_app, List.filter_app. Qed.

Lemma guest_stmts_app l1 l2 :
  guest_stmts (l1 ++ l2) = guest_stmts l1 ++ guest_stmts l2.
Proof. unfold guest_stmts. by rewrite omap_app, List.filter_app. Qed.

Lemma helper_calls_calls evs : helper_calls (map Some (calls evs)) = calls evs.
Proof.
  unfold helper_calls. rewrite omap_id_Some. apply filter_all, calls_helper.
Qed.

Lemma guest_stmts_calls evs : guest_stmts (map Some (calls evs)) = [].
Proof.
  unfold guest_stmts. rewrite omap_id_Some. apply filter_none, calls_helper.
Qed.

Lemma calls_app l1 l2 : calls (l1 ++ l2) = calls l1 ++ calls l2.
Proof. unfold calls. by rewrite flat_map_app. Qed.

Lemma add_stmts_nil sb : add_stmts sb [] = sb.
Proof. destruct sb. unfold add_stmts. cbn. by rewrite app_nil_r. Qed.

Lemma add_stmts_app sb l1 l2 :
  add_stmts (add_stmts sb l1) l2 = add_stmts sb (l1 ++ l2).
Proof. unfold add_stmts. cbn. by rewrite map_app, app_assoc. Qed.

(** ** The array and its count *)

Lemma live_length g : buf_ok g -> length (live g) = Z.to_nat (events_used g).
Proof.
  intros [Hl Hu]. unfold live. rewrite length_take. unfold N_EVENTS in *. lia.
Qed.

Lemma live_put e g :
  buf_ok g -> events_used g < N_EVENTS ->
  buf_ok (put_event e g) /\ live (put_event e g) = live g ++ [e].
Proof.
  intros [Hl Hu] Hlt. unfold put_event, live, buf_ok. cbn.
  split; [split; [by rewrite length_insert | lia]|].
  replace (Z.to_nat (events_used g + 1)) with (S (Z.to_nat (events_used g)))
    by lia.
  rewrite (take_S_r _ _ e).
  - by rewrite take_insert_ge.
  - apply list_lookup_insert_eq. unfold N_EVENTS in *. lia.
Qed.

Lemma live_nil g : live {| events := events g; events_used := 0 |} = [].
Proof. done. Qed.

Lemma buf_ok_reset g : buf_ok g -> buf_ok {| events := events g; events_used := 0 |}.
Proof. intros [Hl Hu]. split; [done|]. cbn. unfold N_EVENTS. lia. Qed.

Lemma live_last g :
  buf_ok g -> 0 < events_used g ->
  events g !! Z.to_nat (events_used g - 1) = last (live g).
Proof.
  intros [Hl Hu] Hpos. unfold live. rewrite last_lookup, length_take.
  unfold N_EVENTS in *.
  replace (Init.Nat.pred (Z.to_nat (events_used g) `min` length (events g)))
    with (Z.to_nat (events_used g - 1)) by lia.
  rewrite lookup_take_lt by lia. done.
Qed.

Lemma live_set_last e g l d :
  buf_ok g -> live g = l ++ [d] ->
  buf_ok {| events := <[Z.to_nat (events_used g - 1) := e]> (events g);
            events_used := events_used g |}
  /\ live {| events := <[Z.to_nat (events_used g - 1) := e]> (events g);
             events_used := events_used g |} = l ++ [e].
Proof.
  intros Hok Hlive. pose proof (live_length g Hok) as Hlen.
  destruct Hok as [Hl Hu]. rewrite Hlive, length_app in Hlen. cbn in Hlen.
  split; [split; cbn; [by rewrite length_insert | done]|].
  unfold live in *. cbn.
  replace (Z.to_nat (events_used g)) with (S (Z.to_nat (events_used g - 1)))
    in * by lia.
  unfold N_EVENTS in *.
  rewrite (take_S_r _ _ e) by (apply list_lookup_insert_eq; lia).
  rewrite take_insert_ge by lia.
  assert (Hd : is_Some (events g !! Z.to_nat (events_used g - 1))).
  { apply lookup_lt_is_Some. lia. }
  destruct Hd as [d' Hd]. rewrite (take_S_r _ _ d' Hd) in Hlive.
  apply app_inj_tail in Hlive as [-> _]. done.
Qed.

(** ** flushEvents *)

Lemma flushEvents_from_spec g n : forall k sb,
  (k + n <= length (events g))%nat ->
  flushEvents_from n (Z.of_nat k) g sb
  = Some (add_stmts sb (calls (take n (drop k (events g))))).
Proof.
  induction n as [|n IH]; intros k sb Hk; cbn [flushEvents_from].
  - cbn. by rewrite add_stmts_nil.
  - rewrite Nat2Z.id.
    assert (Hev : is_Some (events g !! k)) by (apply lookup_lt_is_Some; lia).
    destruct Hev as [ev Hev]. rewrite Hev.
    replace (Z.of_nat k + 1) with (Z.of_nat (S k)) by lia.
    rewrite IH by lia.
    rewrite (drop_S _ _ _ Hev). cbn [take calls flat_map].
    fold (calls (take n (drop (S k) (events g)))).
    f_equal. rewrite <- add_stmts_app. f_equal.
    unfold call_of, helper_call, add_stmts, addStmtToIRSB.
    destruct (helper_of (ekind ev)) as [[hn hf]|]; cbn; [done|].
    destruct sb. cbn. by rewrite app_nil_r.
Qed.

Lemma flushEvents_spec g sb :
  buf_ok g ->
  flushEvents g sb
  = Some ({| events := events g; events_used := 0 |},
          add_stmts sb (calls (live g))).
Proof.
  intros [Hl Hu]. unfold flushEvents.
  rewrite (flushEvents_from_spec g _ 0%nat sb) by (unfold N_EVENTS in *; lia).
  by rewrite drop_0.
Qed.

(** ** Adding an event *)

Lemma add_event_spec e g sb :
  buf_ok g ->
  exists g',
    add_event e g sb
    = Some (g', if events_used g =? N_EVENTS
                then add_stmts sb (calls (live g)) else sb)
    /\ buf_ok g'
    /\ live g' = (if events_used g =? N_EVENTS then [e] else live g ++ [e]).
Proof.
  intros Hok. unfold add_event.
  destruct (Z.eqb_spec (events_used g) N_EVENTS) as [E|E].
  - rewrite flushEvents_spec by done. cbn [mbind option_bind].
    cbn [events_used]. change (0 <=? 0) with true.
    change (0 <? N_EVENTS) with true. cbn [andb tl_assert mbind option_bind].
    destruct (live_put e _ (buf_ok_reset g Hok)) as [Hok' Hl']; [done|].
    eexists. split; [reflexivity|]. split; [done|]. by rewrite Hl'.
  - cbn [mbind option_bind]. destruct Hok as [Hl Hu].
    assert (E1 : (0 <=? events_used g) = true) by (apply Z.leb_le; lia).
    assert (E2 : (events_used g <? N_EVENTS) = true) by (apply Z.ltb_lt; lia).
    rewrite E1, E2. cbn [andb tl_assert mbind option_bind].
    destruct (live_put e g) as [Hok' Hl']; [done | lia |].
    eexists. split; [reflexivity|]. done.
Qed.

(** ** The pending load *)

Lemma pend_snoc l e : pend (l ++ [e]) = if is_Dr e then Some e else None.
Proof. unfold pend. by rewrite last_snoc. Qed.

Lemma settled_snoc l e :
  settled (l ++ [e]) = if is_Dr e then calls l else calls l ++ call_of e.
Proof.
  unfold settled. rewrite pend_snoc. destruct (is_Dr e).
  - by rewrite removelast_last.
  - rewrite calls_app. cbn. by rewrite app_nil_r.
Qed.

Lemma pend_inv l d :
  pend l = Some d -> exists l0, l = l0 ++ [d] /\ is_Dr d = true.
Proof.
  destruct l as [|x l _] using rev_ind; [done|].
  rewrite pend_snoc. destruct (is_Dr x) eqn:E; [|done].
  intros [= <-]. by exists l.
Qed.

Lemma calls_settled l : calls l = settled l ++ flush_pending (pend l).
Proof.
  destruct l as [|x l _] using rev_ind; [done|].
  rewrite settled_snoc, pend_snoc, calls_app. cbn. rewrite app_nil_r.
  destruct (is_Dr x); cbn; [done | by rewrite app_nil_r].
Qed.

Lemma call_of_Ir e : ekind e = Event_Ir -> call_of e = [].
Proof. unfold call_of, helper_call. by intros ->. Qed.

(** ** One event, as the buffer sees it *)

Lemma stepped_nil g sb : buf_ok g -> stepped [] g sb g sb.
Proof.
  intros Hok. split; [done|]. split; [|done].
  exists []. by rewrite add_stmts_nil.
Qed.

Lemma stepped_trans its1 its2 g sb g1 sb1 g2 sb2 :
  stepped its1 g sb g1 sb1 -> stepped its2 g1 sb1 g2 sb2 ->
  stepped (its1 ++ its2) g sb g2 sb2.
Proof.
  intros (_ & (e1 & -> & He1) & H1) (Hok & (e2 & -> & He2) & H2).
  split; [done|]. split.
  - exists (e1 ++ e2). rewrite add_stmts_app. split; [done|].
    by apply Forall_app.
  - intros rest. rewrite H2, H1. by rewrite <- app_assoc.
Qed.

Lemma helper_calls_add sb ext :
  Forall (fun st => is_helper_call st = true) ext ->
  helper_calls (stmts (add_stmts sb ext)) = helper_calls (stmts sb) ++ ext.
Proof.
  intros He. unfold add_stmts. cbn [stmts]. rewrite helper_calls_app. f_equal.
  unfold helper_calls. rewrite omap_id_Some. by apply filter_all.
Qed.

Lemma stepped_flush g sb :
  buf_ok g ->
  stepped [It_exit] g sb {| events := events g; events_used := 0 |}
    (add_stmts sb (calls (live g))).
Proof.
  intros Hok. split; [by apply buf_ok_reset|]. split.
  - eexists. split; [done | apply calls_helper].
  - intros rest. rewrite helper_calls_add by apply calls_helper.
    rewrite live_nil. cbn [app notified]. unfold settled at 1. cbn.
    rewrite (calls_settled (live g)). by rewrite <- !app_assoc.
Qed.

Lemma stepped_add_gen e g sb :
  buf_ok g ->
  (forall rest,
     notified (pend (live g)) (It_event e :: rest)
     = flush_pending (pend (live g))
         ++ (if is_Dr e then notified (Some e) rest
             else call_of e ++ notified None rest)) ->
  exists g' sb', add_event e g sb = Some (g', sb')
    /\ stepped [It_event e] g sb g' sb'.
Proof.
  intros Hok Hnot.
  destruct (add_event_spec e g sb Hok) as (g' & Hrun & Hok' & Hl').
  eexists _, _. split; [exact Hrun|].
  assert (Hset : forall l rest,
            settled (l ++ [e]) ++ notified (pend (l ++ [e])) rest
            = calls l ++ (if is_Dr e then notified (Some e) rest
                          else call_of e ++ notified None rest)).
  { intros l rest. rewrite settled_snoc, pend_snoc.
    destruct (is_Dr e); [done | by rewrite <- app_assoc]. }
  split; [done|].
  destruct (events_used g =? N_EVENTS).
  - split; [eexists; split; [done | apply calls_helper]|].
    intros rest. rewrite helper_calls_add by apply calls_helper.
    rewrite Hl'. cbn [app]. rewrite Hnot.
    rewrite <- !app_assoc. f_equal.
    pose proof (Hset [] rest) as Hs. cbn [app calls flat_map] in Hs.
    rewrite Hs. by rewrite (calls_settled (live g)), <- !app_assoc.
  - split; [exists []; by rewrite add_stmts_nil|].
    intros rest. rewrite Hl'. cbn [app]. rewrite Hnot. f_equal.
    rewrite Hset. rewrite (calls_settled (live g)). by rewrite <- !app_assoc.
Qed.

Lemma stepped_add e g sb :
  buf_ok g -> ekind e <> Event_Dw -> ekind e <> Event_Dm ->
  exists g' sb', add_event e g sb = Some (g', sb')
    /\ stepped [It_event e] g sb g' sb'.
Proof.
  intros Hok Hw Hm. apply stepped_add_gen; [done|].
  intros rest. cbn [notified]. unfold is_Dr.
  destruct (ekind e) eqn:Ek; done.
Qed.

Lemma addEvent_Ir_stepped a isize g sb :
  buf_ok g ->
  VG_MIN_INSTR_SZB <= isize <= VG_MAX_INSTR_SZB \/ VG_CLREQ_SZB = isize ->
  exists g' sb', addEvent_Ir a isize g sb = Some (g', sb')
    /\ stepped [It_event {| ekind := Event_Ir; addr := a;
                            size := to_Int isize |}] g sb g' sb'.
Proof.
  intros Hok Hsz. unfold addEvent_Ir.
  assert (E : (VG_MIN_INSTR_SZB <=? isize) && (isize <=? VG_MAX_INSTR_SZB)
              || (VG_CLREQ_SZB =? isize) = true).
  { apply orb_true_iff. destruct Hsz as [Hsz|Hsz]; [left | right].
    - apply andb_true_iff. split; apply Z.leb_le; lia.
    - by apply Z.eqb_eq. }
  rewrite E. cbn [clo_trace_mem tl_assert mbind option_bind].
  by apply stepped_add.
Qed.

Lemma dsize_ok_true sz : dsize_ok sz -> (1 <=? sz) && (sz <=? MAX_DSIZE) = true.
Proof.
  intros [H1 H2]. apply andb_true_iff. split; by apply Z.leb_le.
Qed.

Lemma addEvent_Dr_stepped a sz g sb :
  buf_ok g -> isIRAtom a = true -> dsize_ok sz ->
  exists g' sb', addEvent_Dr a sz g sb = Some (g', sb')
    /\ stepped [It_event {| ekind := Event_Dr; addr := a; size := sz |}]
         g sb g' sb'.
Proof.
  intros Hok Ha Hsz. unfold addEvent_Dr.
  rewrite Ha, (dsize_ok_true sz Hsz).
  cbn [clo_trace_mem tl_assert mbind option_bind].
  by apply stepped_add.
Qed.

Lemma addEvent_Dw_stepped a sz g sb :
  buf_ok g -> isIRAtom a = true -> dsize_ok sz ->
  exists g' sb', addEvent_Dw a sz g sb = Some (g', sb')
    /\ stepped [It_event {| ekind := Event_Dw; addr := a; size := sz |}]
         g sb g' sb'.
Proof.
  intros Hok Ha Hsz. unfold addEvent_Dw.
  rewrite Ha, (dsize_ok_true sz Hsz).
  cbn [clo_trace_mem tl_assert mbind option_bind].
  set (e := {| ekind := Event_Dw; addr := a; size := sz |}).
  destruct (Z.ltb_spec 0 (events_used g)) as [Hpos|Hpos].
  - rewrite (live_last g Hok Hpos).
    pose proof (live_length g Hok) as Hlen.
    destruct (live g) as [|x l _] eqn:Hlive using rev_ind;
      [cbn in Hlen; lia|].
    rewrite last_snoc. cbn [mbind option_bind].
    destruct (ekind x) eqn:Ek;
      try (apply stepped_add_gen; [done|]; intros rest;
           rewrite Hlive, pend_snoc; unfold is_Dr; rewrite Ek; subst e;
           cbn [notified ekind flush_pending app]; done).
    destruct ((size x =? sz) && eqIRAtom (addr x) a) eqn:Ec.
    + destruct (live_set_last {| ekind := Event_Dm; addr := addr x;
                                 size := size x |} g l x Hok Hlive)
        as [Hok' Hl'].
      eexists _, _. split; [reflexivity|].
      split; [done|]. split; [exists []; by rewrite add_stmts_nil|].
      intros rest. rewrite Hl', Hlive. f_equal.
      rewrite !settled_snoc, !pend_snoc. unfold is_Dr. rewrite Ek.
      cbn [ekind notified app e size addr]. rewrite Ec.
      unfold call_of. cbn [ekind addr size]. by rewrite <- app_assoc.
    + apply stepped_add_gen; [done|]. intros rest.
      rewrite Hlive, pend_snoc. unfold is_Dr. rewrite Ek.
      subst e. cbn [notified ekind flush_pending app size addr]. by rewrite Ec.
  - cbn [mbind option_bind]. apply stepped_add_gen; [done|].
    intros rest. pose proof (live_length g Hok) as Hlen.
    destruct Hok as [_ Hu].
    assert (E : live g = []) by (apply length_zero_iff_nil; lia).
    rewrite E. subst e. unfold is_Dr.
    cbn [pend last notified ekind flush_pending app]. done.
Qed.

(** ** One statement *)

Lemma ran_nil te g sb : buf_ok g -> ran te [] g sb g sb.
Proof.
  intros Hok. split; [done|]. split; [done|]. split; [done|].
  split; [exists []; cbn; by rewrite app_nil_r|].
  split; [cbn; by rewrite app_nil_r | done].
Qed.

Lemma ran_trans te l1 l2 g sb g1 sb1 g2 sb2 :
  ran te l1 g sb g1 sb1 -> ran te l2 g1 sb1 g2 sb2 ->
  ran te (l1 ++ l2) g sb g2 sb2.
Proof.
  intros (_ & Ht1 & Hr1 & (e1 & He1) & Hg1 & H1)
         (Hok & Ht2 & Hr2 & (e2 & He2) & Hg2 & H2).
  split; [done|]. split; [congruence|]. split; [congruence|].
  split; [exists (e1 ++ e2); by rewrite He2, He1, map_app, app_assoc|].
  split; [by rewrite Hg2, Hg1, List.filter_app, app_assoc|].
  intros rest. rewrite H2, H1, flat_map_app. by rewrite <- app_assoc.
Qed.

Lemma guest_stmts_add sb ext :
  Forall (fun st => is_helper_call st = true) ext ->
  guest_stmts (stmts (add_stmts sb ext)) = guest_stmts (stmts sb).
Proof.
  intros He. unfold add_stmts. cbn [stmts]. rewrite guest_stmts_app.
  unfold guest_stmts at 2. rewrite omap_id_Some, (filter_none _ _ He).
  by rewrite app_nil_r.
Qed.

(** A statement of the block, copied after its events were dealt with. *)
Lemma stepped_ran te st g sb g' sb1 :
  stepped (stmt_items te st) g sb g' sb1 ->
  is_helper_call st = false -> is_NoOp st = false ->
  ran te [st] g sb g' (addStmtToIRSB sb1 st).
Proof.
  intros (Hok & (ext & -> & He) & Hst) Hh Hn.
  split; [done|]. split; [done|]. split; [done|].
  split.
  { exists (ext ++ [st]). cbn. by rewrite map_app, app_assoc. }
  split.
  { unfold addStmtToIRSB. cbn [stmts]. rewrite guest_stmts_app.
    fold (stmts (add_stmts sb ext)). rewrite (guest_stmts_add sb ext He).
    unfold guest_stmts at 2. cbn. by rewrite Hh, Hn. }
  intros rest. cbn [flat_map]. rewrite app_nil_r, <- Hst.
  f_equal. unfold addStmtToIRSB. cbn [stmts]. rewrite helper_calls_app.
  unfold helper_calls at 2. cbn. rewrite Hh. by rewrite app_nil_r.
Qed.

Lemma instrument_stmt_spec te st g sb :
  buf_ok g -> stmt_ok te st -> is_helper_call st = false ->
  is_NoOp st = false ->
  exists g' sb', instrument_stmt te st g sb = Some (g', sb')
    /\ ran te [st] g sb g' sb'.
Proof.
  intros Hok Hst Hh Hn.
  assert (Hplain : stmt_items te st = [] ->
            instrument_stmt te st g sb = Some (g, addStmtToIRSB sb st) ->
            exists g' sb', instrument_stmt te st g sb = Some (g', sb')
              /\ ran te [st] g sb g' sb').
  { intros Hit Hrun. eexists _, _. split; [exact Hrun|].
    apply stepped_ran; [|done..]. rewrite Hit. by apply stepped_nil. }
  assert (Hev : forall its g' sb1,
            stmt_items te st = its -> stepped its g sb g' sb1 ->
            instrument_stmt te st g sb = Some (g', addStmtToIRSB sb1 st) ->
            exists g' sb', instrument_stmt te st g sb = Some (g', sb')
              /\ ran te [st] g sb g' sb').
  { intros its g' sb1 Hit Hs Hrun. eexists _, _. split; [exact Hrun|].
    apply stepped_ran; [|done..]. by rewrite Hit. }
  destruct st as [|a len|r|r|r|tmp data|a data|[a hi lo r]|res a sd|d|r|r];
    try (by apply Hplain); try done.
  - (* Ist_IMark *)
    cbn [stmt_ok] in Hst.
    destruct (addEvent_Ir_stepped (mkIRExpr_HWord (wrap64 a)) (to_UInt len)
                g sb Hok Hst) as (g' & sb1 & Hrun & Hs).
    eapply Hev; [done | exact Hs |].
    cbn [instrument_stmt clo_trace_mem]. by rewrite Hrun.
  - (* Ist_WrTmp *)
    cbn [stmt_ok stmt_items instrument_stmt clo_trace_mem] in *.
    destruct (Iex_Load_of data) as [[ty a]|] eqn:El.
    + destruct Hst as [Ha Hsz].
      destruct (addEvent_Dr_stepped a (sizeofIRType ty) g sb Hok Ha Hsz)
        as (g' & sb1 & Hrun & Hs).
      eapply Hev; [reflexivity | exact Hs |]. by rewrite Hrun.
    + by apply Hplain.
  - (* Ist_Store *)
    cbn [stmt_ok] in Hst. destruct Hst as [Ha Hsz].
    destruct (addEvent_Dw_stepped a _ g sb Hok Ha Hsz)
      as (g' & sb1 & Hrun & Hs).
    eapply Hev; [done | exact Hs |].
    cbn [instrument_stmt clo_trace_mem]. by rewrite Hrun.
  - (* Ist_CAS *)
    cbn [stmt_ok] in Hst. destruct a as [a|]; [|done].
    destruct lo as [lo|]; [|done]. destruct Hst as [Ha Hsz].
    destruct (addEvent_Dr_stepped a _ g sb Hok Ha Hsz)
      as (g1 & sb1 & Hrun1 & Hs1).
    assert (Hok1 : buf_ok g1) by apply Hs1.
    destruct (addEvent_Dw_stepped a _ g1 sb1 Hok1 Ha Hsz)
      as (g2 & sb2 & Hrun2 & Hs2).
    eapply Hev; [done | exact (stepped_trans _ _ _ _ _ _ _ _ Hs1 Hs2) |].
    cbn [instrument_stmt clo_trace_mem mbind option_bind].
    fold (cas_size te hi lo). unfold cas_size in *.
    destruct hi; rewrite Hrun1; cbn [mbind option_bind]; by rewrite Hrun2.
  - (* Ist_LLSC *)
    cbn [stmt_ok] in Hst. destruct sd as [sd|]; destruct Hst as [Ha Hsz].
    + destruct (addEvent_Dw_stepped a _ g sb Hok Ha Hsz)
        as (g' & sb1 & Hrun & Hs).
      eapply Hev; [done | exact Hs |].
      cbn [instrument_stmt clo_trace_mem]. by rewrite Hrun.
    + destruct (addEvent_Dr_stepped a _ g sb Hok Ha Hsz)
        as (g' & sb1 & Hrun & Hs).
      eapply Hev; [done | exact Hs |].
      cbn [instrument_stmt clo_trace_mem]. by rewrite Hrun.
  - (* Ist_Exit *)
    eapply Hev; [done | exact (stepped_flush g sb Hok) |].
    cbn [instrument_stmt clo_trace_mem]. by rewrite flushEvents_spec.
Qed.

(** ** The two loops *)

Lemma omap_id_cons_Some {A} (x : A) l : omap id (Some x :: l) = x :: omap id l.
Proof. done. Qed.

Lemma omap_id_cons_None {A} (l : list (option A)) :
  omap id (None :: l) = omap id l.
Proof. done. Qed.

Lemma instrument_loop_spec te l : forall g sb,
  buf_ok g ->
  Forall (stmt_ok te) (omap id l) ->
  Forall (fun st => is_helper_call st = false) (omap id l) ->
  exists g' sb', instrument_loop te l g sb = Some (g', sb')
    /\ ran te (omap id l) g sb g' sb'.
Proof.
  induction l as [|o l IH]; intros g sb Hok Hst Hh.
  { eexists _, _. split; [done|]. by apply ran_nil. }
  destruct o as [st|]; [|by apply IH].
  rewrite omap_id_cons_Some in *.
  apply Forall_cons in Hst as [Hst1 Hst]. apply Forall_cons in Hh as [Hh1 Hh].
  destruct (is_NoOp st) eqn:Hn.
  - destruct st; try done. cbn [instrument_loop].
    destruct (IH g sb Hok Hst Hh) as (g' & sb' & Hrun & Hr).
    eexists _, _. split; [exact Hrun|].
    change (Ist_NoOp :: omap id l) with ([Ist_NoOp] ++ omap id l).
    eapply ran_trans; [|exact Hr].
    split; [done|]. split; [done|]. split; [done|].
    split; [exists []; cbn; by rewrite app_nil_r|].
    split; [cbn; by rewrite app_nil_r | done].
  - destruct (instrument_stmt_spec te st g sb Hok Hst1 Hh1 Hn)
      as (g1 & sb1 & Hrun1 & Hr1).
    assert (Hok1 : buf_ok g1) by apply Hr1.
    destruct (IH g1 sb1 Hok1 Hst Hh) as (g' & sb' & Hrun & Hr).
    exists g', sb'. split.
    + destruct st; try done; cbn [instrument_loop]; by rewrite Hrun1.
    + change (st :: omap id l) with ([st] ++ omap id l).
      by eapply ran_trans.
Qed.

Lemma instrument_loop_app te l1 l2 g sb :
  instrument_loop te (l1 ++ l2) g sb
  = match instrument_loop te l1 g sb with
    | Some (g1, sb1) => instrument_loop te l2 g1 sb1
    | None => None
    end.
Proof.
  revert g sb. induction l1 as [|o l1 IH]; intros g sb; [done|].
  destruct o as [st|]; [|apply IH].
  destruct st; cbn [instrument_loop app]; try apply IH;
    match goal with
    | |- context [instrument_stmt te ?s g sb] =>
        destruct (instrument_stmt te s g sb) as [[g1 sb1]|]; [apply IH | done]
    end.
Qed.

Lemma preamble_body l : preamble l ++ body l = l.
Proof.
  induction l as [|[st|] l IH]; cbn; [done | | by rewrite IH].
  destruct (is_IMark st); cbn; [done | by rewrite IH].
Qed.

Lemma copy_preamble_spec l sb :
  Forall is_Some (preamble l) ->
  copy_preamble l sb = Some (body l, add_stmts sb (omap id (preamble l))).
Proof.
  revert sb. induction l as [|[st|] l IH]; intros sb Hp; cbn in *.
  - by rewrite add_stmts_nil.
  - destruct (is_IMark st); [by rewrite add_stmts_nil|].
    apply Forall_cons in Hp as [_ Hp]. rewrite IH by done.
    do 2 f_equal. unfold add_stmts, addStmtToIRSB. cbn.
    by rewrite <- app_assoc.
  - apply Forall_cons in Hp as [[? [=]] _].
Qed.

Lemma map_Some_omap_id {A} (l : list (option A)) :
  Forall is_Some l -> map Some (omap id l) = l.
Proof.
  induction 1 as [|o l [x ->] _ IH]; cbn; [done | by rewrite IH].
Qed.

Lemma Forall_is_Some_map {A} (l : list A) : Forall is_Some (map Some l).
Proof.
  induction l as [|x l IH]; cbn; [apply Forall_nil_2|].
  apply Forall_cons. split; [by eexists | done].
Qed.

(** The preamble of a block that holds no helper call yet. *)
Lemma guest_all l :
  Forall (fun st => is_helper_call st = false) l ->
  List.filter (fun st => negb (is_helper_call st)) l = l
  /\ List.filter is_helper_call l = [].
Proof.
  induction 1 as [|x l Hx _ [IH1 IH2]]; cbn; [done|]. by rewrite Hx, IH1, IH2.
Qed.

(** ** The whole pass *)

Lemma lk_instrument_spec sbIn ty g :
  block_ok sbIn -> length (events g) = Z.to_nat N_EVENTS ->
  exists g' sbOut, lk_instrument sbIn ty ty g = Some (g', sbOut)
    /\ events_used g' = 0 /\ length (events g') = Z.to_nat N_EVENTS
    /\ tyenv sbOut = tyenv sbIn /\ sb_rest sbOut = sb_rest sbIn
    /\ guest_stmts (stmts sbOut) = kept (stmts sbIn)
    /\ helper_calls (stmts sbOut)
       = notified None (block_items (tyenv sbIn) (stmts sbIn))
    /\ Forall is_Some (stmts sbOut).
Proof.
  intros (Hpre & Hst & Hh) Hlen. unfold lk_instrument.
  rewrite bool_decide_eq_true_2 by done. cbn [negb]. cbv zeta.
  rewrite copy_preamble_spec by done. cbn [mbind option_bind clo_trace_mem].
  set (g0 := {| events := events g; events_used := 0 |}).
  set (sb0 := add_stmts (deepCopyIRSBExceptStmts sbIn)
                (omap id (preamble (stmts sbIn)))).
  assert (Hok0 : buf_ok g0) by (split; [done | cbn; unfold N_EVENTS; lia]).
  rewrite <- (preamble_body (stmts sbIn)), omap_app in Hh.
  apply Forall_app in Hh as [Hh1 Hh2].
  destruct (instrument_loop_spec (tyenv sbIn) (body (stmts sbIn)) g0 sb0
              Hok0 Hst Hh2)
    as (g1 & sb1 & Hrun & Hok1 & Ht & Hr & (ext & Hext) & Hg & Hc).
  rewrite Hrun. cbn [mbind option_bind].
  rewrite flushEvents_spec by done.
  eexists _, _. split; [reflexivity|]. split; [done|].
  split; [apply Hok1|]. split; [done|]. split; [done|].
  assert (Hs0 : stmts sb0 = map Some (omap id (preamble (stmts sbIn)))) by done.
  destruct (guest_all _ Hh1) as [Hg0 Hc0].
  split; [|split].
  - rewrite guest_stmts_add by apply calls_helper.
    rewrite Hg, Hs0. unfold guest_stmts at 1. by rewrite omap_id_Some, Hg0.
  - rewrite helper_calls_add by apply calls_helper.
    specialize (Hc []). rewrite app_nil_r in Hc. cbn [notified] in Hc.
    rewrite (calls_settled (live g1)), Hc, Hs0.
    unfold helper_calls at 1. rewrite omap_id_Some, Hc0. done.
  - unfold add_stmts. cbn [stmts]. rewrite Hext, Hs0.
    rewrite !Forall_app. split_and!; apply Forall_is_Some_map.
Qed.

(** ** Splitting a block *)

Lemma body_app l1 l2 :
  (body l1 <> [] /\ preamble (l1 ++ l2) = preamble l1
   /\ body (l1 ++ l2) = body l1 ++ l2)
  \/ (body l1 = [] /\ preamble l1 = l1
      /\ preamble (l1 ++ l2) = l1 ++ preamble l2
      /\ body (l1 ++ l2) = body l2).
Proof.
  induction l1 as [|[st|] l1 IH]; cbn.
  - by right.
  - destruct (is_IMark st); [by left|].
    destruct IH as [(? & -> & ->)|(? & -> & -> & ->)]; [by left | by right].
  - destruct IH as [(? & -> & ->)|(? & -> & -> & ->)]; [by left | by right].
Qed.

(** A load opens a new stretch of events: what came before it is notified
    as if the block ended there. *)
Lemma notified_load p its d rest :
  is_Dr d = true ->
  notified p (its ++ It_event d :: rest)
  = notified p its ++ notified None (It_event d :: rest).
Proof.
  intros Hd.
  assert (Hbase : forall q, notified q (It_event d :: rest)
            = flush_pending q ++ notified None (It_event d :: rest)).
  { intros q. cbn [notified]. unfold is_Dr in Hd. by destruct (ekind d). }
  set (R := notified None (It_event d :: rest)) in *.
  revert p. induction its as [|[e|] its IH]; intros p.
  - cbn [app]. by rewrite Hbase.
  - cbn [app notified].
    destruct (ekind e); rewrite ?IH, <- ?app_assoc; try done.
    destruct p as [q|]; [|by rewrite <- ?app_assoc].
    by destruct ((size q =? size e) && eqIRAtom (addr q) (addr e));
      rewrite <- ?app_assoc.
  - cbn [app notified]. by rewrite IH, <- app_assoc.
Qed.

(** ** What a flush may add *)

Lemma add_event_out e g sb g' sb' :
  buf_ok g -> add_event e g sb = Some (g', sb') ->
  exists ext, sb' = add_stmts sb ext /\ ext `prefix_of` calls (live g).
Proof.
  intros Hok Hrun.
  destruct (add_event_spec e g sb Hok) as (g'' & Hrun' & _).
  rewrite Hrun in Hrun'. injection Hrun' as _ ->.
  destruct (events_used g =? N_EVENTS).
  - by eexists.
  - exists []. split; [by rewrite add_stmts_nil | apply prefix_nil].
Qed.

Lemma addEvent_Ir_out a isize g sb g' sb' :
  buf_ok g -> addEvent_Ir a isize g sb = Some (g', sb') ->
  exists ext, sb' = add_stmts sb ext /\ ext `prefix_of` calls (live g).
Proof.
  intros Hok. unfold addEvent_Ir. cbn [clo_trace_mem tl_assert mbind option_bind].
  destruct ((VG_MIN_INSTR_SZB <=? isize) && (isize <=? VG_MAX_INSTR_SZB)
            || (VG_CLREQ_SZB =? isize)); cbn [tl_assert mbind option_bind];
    [|done].
  by apply add_event_out.
Qed.

Lemma addEvent_Dr_out a sz g sb g' sb' :
  buf_ok g -> addEvent_Dr a sz g sb = Some (g', sb') ->
  exists ext, sb' = add_stmts sb ext /\ ext `prefix_of` calls (live g).
Proof.
  intros Hok. unfold addEvent_Dr. cbn [clo_trace_mem tl_assert mbind option_bind].
  destruct (isIRAtom a); cbn [tl_assert mbind option_bind]; [|done].
  destruct ((1 <=? sz) && (sz <=? MAX_DSIZE));
    cbn [tl_assert mbind option_bind]; [|done].
  by apply add_event_out.
Qed.

Lemma addEvent_Dw_out a sz g sb g' sb' :
  buf_ok g -> addEvent_Dw a sz g sb = Some (g', sb') ->
  exists ext, sb' = add_stmts sb ext /\ ext `prefix_of` calls (live g).
Proof.
  intros Hok. unfold addEvent_Dw. cbn [clo_trace_mem tl_assert mbind option_bind].
  destruct (isIRAtom a); cbn [tl_assert mbind option_bind]; [|done].
  destruct ((1 <=? sz) && (sz <=? MAX_DSIZE));
    cbn [tl_assert mbind option_bind]; [|done].
  assert (Hsame : forall g0 : ev_state, Some (g0, sb) = Some (g', sb') ->
            exists ext, sb' = add_stmts sb ext
                        /\ ext `prefix_of` calls (live g)).
  { intros g0 [= _ <-]. exists [].
    split; [by rewrite add_stmts_nil | apply prefix_nil]. }
  destruct (0 <? events_used g); cbn [mbind option_bind];
    [|by apply add_event_out].
  destruct (events g !! Z.to_nat (events_used g - 1)) as [lastEvt|];
    cbn [mbind option_bind]; [|done].
  destruct (ekind lastEvt); try (by apply add_event_out).
  destruct ((size lastEvt =? sz) && eqIRAtom (addr lastEvt) a);
    [apply Hsame | by apply add_event_out].
Qed.

(** A store that follows a load of the same size at the same address is
    merged with it, and nothing is flushed. *)
Lemma addEvent_Dw_merge a sz g sb l d :
  buf_ok g -> isIRAtom a = true -> dsize_ok sz ->
  live g = l ++ [d] -> ekind d = Event_Dr ->
  (size d =? sz) && eqIRAtom (addr d) a = true ->
  exists g', addEvent_Dw a sz g sb = Some (g', sb).
Proof.
  intros Hok Ha Hsz Hlive Hk Hc. unfold addEvent_Dw.
  rewrite Ha, (dsize_ok_true sz Hsz).
  cbn [clo_trace_mem tl_assert mbind option_bind].
  pose proof (live_length g Hok) as Hlen.
  rewrite Hlive, length_app in Hlen. cbn in Hlen.
  assert (Hpos : 0 < events_used g) by lia.
  assert (E : (0 <? events_used g) = true) by by apply Z.ltb_lt.
  rewrite E, (live_last g Hok Hpos), Hlive, last_snoc.
  cbn [mbind option_bind]. rewrite Hk, Hc. by eexists.
Qed.

Lemma prefix_calls_app (ext : list IRStmt) l e :
  ext `prefix_of` calls l -> ext `prefix_of` calls (l ++ [e]).
Proof.
  intros Hp. rewrite calls_app. by apply prefix_app_r.
Qed.

Lemma instrument_stmt_out te st g sb g' sb' :
  buf_ok g -> stmt_ok te st -> eqIRAtom_refl ->
  instrument_stmt te st g sb = Some (g', sb') ->
  exists ext, sb' = addStmtToIRSB (add_stmts sb ext) st
    /\ ext `prefix_of` calls (live g).
Proof.
  intros Hok Hst Hrefl.
  assert (Hnone : Some (g, addStmtToIRSB sb st) = Some (g', sb') ->
            exists ext, sb' = addStmtToIRSB (add_stmts sb ext) st
                        /\ ext `prefix_of` calls (live g)).
  { intros [= _ <-]. exists [].
    split; [by rewrite add_stmts_nil | apply prefix_nil]. }
  assert (Hone : forall r : option (ev_state * IRSB),
            (forall g1 sb1, r = Some (g1, sb1) ->
               exists ext, sb1 = add_stmts sb ext
                           /\ ext `prefix_of` calls (live g)) ->
            ('(g1, sb1) ← r; Some (g1, addStmtToIRSB sb1 st)) = Some (g', sb') ->
            exists ext, sb' = addStmtToIRSB (add_stmts sb ext) st
                        /\ ext `prefix_of` calls (live g)).
  { intros [[g1 sb1]|] Hr; cbn [mbind option_bind]; [|done].
    intros [= _ <-]. destruct (Hr g1 sb1 eq_refl) as (ext & -> & Hp).
    by exists ext. }
  destruct st as [|a len|r|r|r|tmp data|a data|[a hi lo r]|res a sd|d|r|r];
    cbn [instrument_stmt clo_trace_mem]; try exact Hnone.
  - apply Hone. intros g1 sb1. by apply addEvent_Ir_out.
  - apply Hone. intros g1 sb1.
    destruct (Iex_Load_of data) as [[ty a]|]; [by apply addEvent_Dr_out|].
    intros [= _ <-]. exists [].
    split; [by rewrite add_stmts_nil | apply prefix_nil].
  - apply Hone. intros g1 sb1. by apply addEvent_Dw_out.
  - cbn [stmt_ok] in Hst. destruct a as [a|]; [|done].
    destruct lo as [lo|]; [|done]. destruct Hst as [Ha Hsz].
    cbn [mbind option_bind]. fold (cas_size te hi lo).
    replace (match hi with
             | Some _ => to_Int (sizeofIRType (typeOfIRExpr te lo) * 2)
             | None => sizeofIRType (typeOfIRExpr te lo)
             end) with (cas_size te hi lo) by done.
    apply Hone. intros g2 sb2.
    set (e := {| ekind := Event_Dr; addr := a; size := cas_size te hi lo |}).
    assert (Hdr : addEvent_Dr a (cas_size te hi lo) g sb = add_event e g sb).
    { unfold addEvent_Dr. rewrite Ha, (dsize_ok_true _ Hsz). done. }
    rewrite Hdr.
    destruct (add_event_spec e g sb Hok) as (g1 & Hrun1 & Hok1 & Hl1).
    rewrite Hrun1. cbn [mbind option_bind].
    assert (Hlive1 : exists l, live g1 = l ++ [e]).
    { rewrite Hl1. destruct (events_used g =? N_EVENTS);
        [by exists [] | by eexists]. }
    destruct Hlive1 as (l & Hlive1).
    destruct (addEvent_Dw_merge a (cas_size te hi lo) g1
                (if events_used g =? N_EVENTS
                 then add_stmts sb (calls (live g)) else sb)
                l e Hok1 Ha Hsz Hlive1 eq_refl) as (g2' & Hrun2).
    { cbn [size addr e]. rewrite Z.eqb_refl. by apply Hrefl. }
    rewrite Hrun2. intros [= _ <-].
    destruct (events_used g =? N_EVENTS).
    + by eexists.
    + exists []. split; [by rewrite add_stmts_nil | apply prefix_nil].
  - apply Hone. intros g1 sb1.
    destruct sd; [by apply addEvent_Dw_out | by apply addEvent_Dr_out].
  - apply Hone. intros g1 sb1. rewrite flushEvents_spec by done.
    intros [= _ <-]. by eexists.
Qed.

(** ** Calls come after the accesses they report *)

Lemma helper_no_items te st : is_helper_call st = true -> stmt_items te st = [].
Proof. by destruct st as [| | | | | | | | |[]| |]. Qed.

Lemma helper_not_IMark st : is_helper_call st = true -> is_IMark st = false.
Proof. by destruct st. Qed.

Lemma body_helpers hs :
  Forall (fun st => is_helper_call st = true) hs -> body (map Some hs) = [].
Proof.
  induction 1 as [|h hs Hh _ IH]; cbn; [done|].
  by rewrite (helper_not_IMark h Hh).
Qed.

Lemma items_helpers te hs :
  Forall (fun st => is_helper_call st = true) hs ->
  flat_map (stmt_items te) hs = [].
Proof.
  induction 1 as [|h hs Hh _ IH]; cbn; [done|].
  by rewrite (helper_no_items te h Hh), IH.
Qed.

Lemma block_items_add_helpers te l hs :
  Forall (fun st => is_helper_call st = true) hs ->
  block_items te (l ++ map Some hs) = block_items te l.
Proof.
  intros Hh. unfold block_items.
  destruct (body_app l (map Some hs)) as [(_ & _ & ->)|(-> & _ & _ & ->)].
  - rewrite omap_app, flat_map_app, omap_id_Some, (items_helpers te hs Hh).
    by rewrite app_nil_r.
  - by rewrite (body_helpers hs Hh).
Qed.

Lemma block_items_snoc te l st :
  body l <> [] \/ is_IMark st = true ->
  block_items te (l ++ [Some st]) = block_items te l ++ stmt_items te st.
Proof.
  intros Hb. unfold block_items.
  destruct (body_app l [Some st]) as [(_ & _ & ->)|(He & _ & _ & ->)].
  - rewrite omap_app, flat_map_app. cbn. by rewrite app_nil_r.
  - destruct Hb as [Hb|Hb]; [done|]. rewrite He. cbn [body]. rewrite Hb.
    cbn. by rewrite app_nil_r.
Qed.

Lemma body_app_nonempty l l' : body l <> [] -> body (l ++ l') <> [].
Proof.
  intros Hb. destruct (body_app l l') as [(_ & _ & ->)|(He & _)]; [|done].
  intros E. apply app_eq_nil in E as [E _]. done.
Qed.

Lemma body_snoc_IMark l st : is_IMark st = true -> body (l ++ [Some st]) <> [].
Proof.
  intros Hi. destruct (body_app l [Some st]) as [(Hb & _ & ->)|(_ & _ & _ & ->)].
  - intros E. apply app_eq_nil in E as [E _]. done.
  - cbn. by rewrite Hi.
Qed.

Lemma late_snoc te out st :
  late te out ->
  helper_calls (out ++ [Some st])
    `prefix_of` notified None (block_items te (out ++ [Some st])) ->
  late te (out ++ [Some st]).
Proof.
  intros Hl Hw pre suf E.
  destruct suf as [|x suf _] using rev_ind.
  - rewrite app_nil_r in E. by subst pre.
  - rewrite app_assoc in E. apply app_inj_tail in E as [E _].
    by apply (Hl pre suf).
Qed.

Lemma late_add_helpers te out ext :
  late te out ->
  Forall (fun st => is_helper_call st = true) ext ->
  (forall e1 e2, ext = e1 ++ e2 ->
     helper_calls out ++ e1 `prefix_of` notified None (block_items te out)) ->
  late te (out ++ map Some ext).
Proof.
  intros Hl. induction ext as [|h ext IH] using rev_ind; intros Hh Hp.
  { cbn. by rewrite app_nil_r. }
  apply Forall_app in Hh as [Hh1 Hh2].
  rewrite map_app, app_assoc. cbn [map]. apply late_snoc.
  - apply IH; [done|]. intros e1 e2 E. apply (Hp e1 (e2 ++ [h])).
    by rewrite E, app_assoc.
  - rewrite <- app_assoc. change ([Some h]) with (map Some [h]).
    rewrite <- map_app.
    assert (Hall : Forall (fun st => is_helper_call st = true) (ext ++ [h]))
      by by apply Forall_app.
    rewrite (block_items_add_helpers te out _ Hall).
    rewrite helper_calls_app. unfold helper_calls at 2.
    rewrite omap_id_Some, (filter_all _ _ Hall).
    apply (Hp (ext ++ [h]) []). by rewrite app_nil_r.
Qed.

Lemma accounted_calls te g sb :
  accounted te g sb ->
  notified None (block_items te (stmts sb))
  = helper_calls (stmts sb) ++ calls (live g).
Proof.
  intros Ha. specialize (Ha []). rewrite app_nil_r in Ha. cbn [notified] in Ha.
  by rewrite Ha, (calls_settled (live g)).
Qed.

Lemma prefix_helpers (ext : list IRStmt) l :
  ext `prefix_of` calls l -> Forall (fun st => is_helper_call st = true) ext.
Proof.
  intros [k Hk]. pose proof (calls_helper l) as Hc. rewrite Hk in Hc.
  by apply Forall_app in Hc as [Hc _].
Qed.

Lemma late_flush te g sb ext :
  accounted te g sb -> late te (stmts sb) ->
  ext `prefix_of` calls (live g) ->
  late te (stmts (add_stmts sb ext)).
Proof.
  intros Ha Hl Hp. unfold add_stmts. cbn [stmts].
  apply late_add_helpers; [done | by eapply prefix_helpers|].
  intros e1 e2 E. rewrite (accounted_calls te g sb Ha).
  apply prefix_app. etrans; [|exact Hp]. rewrite E. by apply prefix_app_r.
Qed.

Lemma instrument_stmt_late te st g sb g' sb' :
  buf_ok g -> stmt_ok te st -> is_helper_call st = false ->
  is_NoOp st = false -> eqIRAtom_refl ->
  body (stmts sb) <> [] \/ is_IMark st = true ->
  accounted te g sb -> late te (stmts sb) ->
  instrument_stmt te st g sb = Some (g', sb') ->
  buf_ok g' /\ accounted te g' sb' /\ late te (stmts sb')
  /\ body (stmts sb') <> [].
Proof.
  intros Hok Hst Hh Hn Hrefl Hb Ha Hl Hrun.
  destruct (instrument_stmt_spec te st g sb Hok Hst Hh Hn)
    as (g1 & sb1 & Hrun1 & Hok' & _ & _ & _ & _ & Heq).
  assert (g1 = g' /\ sb1 = sb') as [-> ->] by (split; congruence).
  destruct (instrument_stmt_out te st g sb g' sb' Hok Hst Hrefl Hrun)
    as (ext & -> & Hp).
  pose proof (prefix_helpers ext _ Hp) as Hext.
  assert (Hitems : block_items te (stmts (addStmtToIRSB (add_stmts sb ext) st))
                   = block_items te (stmts sb) ++ stmt_items te st).
  { unfold addStmtToIRSB, add_stmts. cbn [stmts].
    rewrite block_items_snoc.
    - by rewrite block_items_add_helpers.
    - destruct Hb as [Hb|Hb]; [left | by right]. by apply body_app_nonempty. }
  assert (Ha' : accounted te g' (addStmtToIRSB (add_stmts sb ext) st)).
  { intros rest. rewrite Hitems, <- app_assoc, Ha, Heq.
    cbn [flat_map]. by rewrite app_nil_r. }
  split; [done|]. split; [done|]. split.
  - change (late te (stmts (add_stmts sb ext) ++ [Some st])). apply late_snoc.
    + by apply (late_flush te g sb ext).
    + change (stmts (add_stmts sb ext) ++ [Some st])
        with (stmts (addStmtToIRSB (add_stmts sb ext) st)).
      rewrite (accounted_calls te g' _ Ha'). by apply prefix_app_r.
  - unfold addStmtToIRSB, add_stmts. cbn [stmts].
    destruct Hb as [Hb|Hb].
    + by do 2 apply body_app_nonempty.
    + by apply body_snoc_IMark.
Qed.

Lemma instrument_loop_late te l : forall g sb g' sb',
  buf_ok g ->
  Forall (stmt_ok te) (omap id l) ->
  Forall (fun st => is_helper_call st = false) (omap id l) ->
  eqIRAtom_refl ->
  body (stmts sb) <> [] \/ body l = l ->
  accounted te g sb -> late te (stmts sb) ->
  instrument_loop te l g sb = Some (g', sb') ->
  buf_ok g' /\ accounted te g' sb' /\ late te (stmts sb').
Proof.
  induction l as [|o l IH]; intros g sb g' sb' Hok Hst Hh Hrefl Hb Ha Hl.
  { by intros [= <- <-]. }
  assert (Hb' : body (stmts sb) <> [] -> body (stmts sb) <> [] \/ body l = l)
    by tauto.
  destruct o as [st|].
  2: { cbn [instrument_loop]. apply IH; try done. apply Hb'.
       destruct Hb as [Hb|Hb]; [done|]. exfalso. cbn in Hb.
       pose proof (f_equal length Hb) as E.
       pose proof (f_equal length (preamble_body l)) as E'.
       rewrite length_app in E'. cbn in E. lia. }
  rewrite omap_id_cons_Some in *.
  apply Forall_cons in Hst as [Hst1 Hst]. apply Forall_cons in Hh as [Hh1 Hh].
  assert (Hfirst : body (stmts sb) <> [] \/ is_IMark st = true).
  { destruct Hb as [Hb|Hb]; [by left | right]. cbn in Hb.
    destruct (is_IMark st); [done|]. exfalso.
    pose proof (f_equal length Hb) as E.
    pose proof (f_equal length (preamble_body l)) as E'.
    rewrite length_app in E'. cbn in E. lia. }
  destruct (is_NoOp st) eqn:Hn.
  { destruct st; try done. cbn [instrument_loop]. apply IH; try done.
    apply Hb'. by destruct Hfirst. }
  intros Hrun.
  assert (Hrun' : match instrument_stmt te st g sb with
                  | Some (g1, sb1) => instrument_loop te l g1 sb1
                  | None => None
                  end = Some (g', sb')).
  { by destruct st. }
  destruct (instrument_stmt te st g sb) as [[g1 sb1]|] eqn:Hs; [|done].
  destruct (instrument_stmt_late te st g sb g1 sb1) as (Hok1 & Ha1 & Hl1 & Hb1);
    try done.
  apply (IH g1 sb1); try done. by left.
Qed.

(** * Properties of the instrumentation pass *)

(** X12: on a block that meets the assertions of the pass, and whatever an
    earlier block has left in the buffer, [lk_instrument] returns: no
    assertion fails, the index [events_used] never leaves the array, and
    the buffer is empty at the end.  The block returned has the type
    environment and the end of the block given, and no null statement. *)
Theorem lk_instrument_returns (sbIn : IRSB) (ty : IRType) (g : ev_state) :
  block_ok sbIn -> length (events g) = Z.to_nat N_EVENTS ->
  exists g' sbOut, lk_instrument sbIn ty ty g = Some (g', sbOut)
    /\ events_used g' = 0 /\ length (events g') = Z.to_nat N_EVENTS
    /\ tyenv sbOut = tyenv sbIn /\ sb_rest sbOut = sb_rest sbIn
    /\ Forall is_Some (stmts sbOut).
Proof.
  intros Hb Hl.
  destruct (lk_instrument_spec sbIn ty g Hb Hl)
    as (g' & sbOut & Hrun & Hu & Hl' & Ht & Hr & _ & _ & Hs).
  by exists g', sbOut.
Qed.

(** X13: the statements of the block returned that are not helper calls
    are the statements of the block given, in their order: all of those
    before the first instruction mark, and from there on all but the
    no-ops and the null pointers. *)
Theorem statements_kept (sbIn : IRSB) (ty : IRType) (g : ev_state) :
  block_ok sbIn -> length (events g) = Z.to_nat N_EVENTS ->
  exists g' sbOut, lk_instrument sbIn ty ty g = Some (g', sbOut)
    /\ guest_stmts (stmts sbOut) = kept (stmts sbIn).
Proof.
  intros Hb Hl.
  destruct (lk_instrument_spec sbIn ty g Hb Hl)
    as (g' & sbOut & Hrun & _ & _ & _ & _ & Hg & _).
  by exists g', sbOut.
Qed.

(** X14: the helper calls of the block returned are, in their order, the
    calls that the comment above [events] asks for: one call for every
    load and every store from the first instruction mark on, a store that
    comes right after a load of the same size at the same address being
    merged with it into one call of [trace_modify], and no call for an
    instruction mark.  Flushing a full buffer changes none of this. *)
Theorem calls_as_notified (sbIn : IRSB) (ty : IRType) (g : ev_state) :
  block_ok sbIn -> length (events g) = Z.to_nat N_EVENTS ->
  exists g' sbOut, lk_instrument sbIn ty ty g = Some (g', sbOut)
    /\ helper_calls (stmts sbOut)
       = notified None (block_items (tyenv sbIn) (stmts sbIn)).
Proof.
  intros Hb Hl.
  destruct (lk_instrument_spec sbIn ty g Hb Hl)
    as (g' & sbOut & Hrun & _ & _ & _ & _ & _ & Hc & _).
  by exists g', sbOut.
Qed.

(** X15: the accesses that precede an exit of the block are notified before
    that exit: the statements of the block returned that precede the exit
    hold the calls due for the statements given before it, all of them,
    and hold those statements. *)
Theorem exit_after_its_events (sbIn : IRSB) (ty : IRType) (g : ev_state)
    (l1 l2 : list (option IRStmt)) (r : IRRest) :
  block_ok sbIn -> length (events g) = Z.to_nat N_EVENTS ->
  stmts sbIn = l1 ++ Some (Ist_Exit r) :: l2 ->
  exists g' sbOut out1 out2,
    lk_instrument sbIn ty ty g = Some (g', sbOut)
    /\ stmts sbOut = out1 ++ Some (Ist_Exit r) :: out2
    /\ helper_calls out1 = notified None (block_items (tyenv sbIn) l1)
    /\ guest_stmts out1 = kept l1.
Proof.
  intros (Hpre & Hst & Hh) Hlen Hsplit. unfold lk_instrument.
  rewrite bool_decide_eq_true_2 by done. cbn [negb]. cbv zeta.
  rewrite copy_preamble_spec by done. cbn [mbind option_bind clo_trace_mem].
  set (g0 := {| events := events g; events_used := 0 |}).
  assert (Hok0 : buf_ok g0) by (split; [done | cbn; unfold N_EVENTS; lia]).
  rewrite Hsplit in Hpre, Hst, Hh |- *.
  rewrite omap_app, omap_id_cons_Some in Hh.
  apply Forall_app in Hh as [Hh1 Hh2]. apply Forall_cons in Hh2 as [_ Hh2].
  destruct (guest_all _ Hh1) as [Hg1 Hc1].
  destruct (body_app l1 (Some (Ist_Exit r) :: l2))
    as [(Hne & Ep & Eb)|(He & Epl & Ep & Eb)].
  - (* the exit comes after the first instruction mark *)
    rewrite Ep, Eb in *. clear Ep Eb.
    set (sb0 := add_stmts (deepCopyIRSBExceptStmts sbIn) (omap id (preamble l1))).
    rewrite omap_app, omap_id_cons_Some in Hst.
    apply Forall_app in Hst as [Hst1 Hst2]. apply Forall_cons in Hst2 as [_ Hst2].
    assert (Hhb : Forall (fun st => is_helper_call st = false)
                    (omap id (body l1)) /\
                  Forall (fun st => is_helper_call st = false)
                    (omap id (preamble l1))).
    { rewrite <- (preamble_body l1), omap_app in Hh1.
      apply Forall_app in Hh1. tauto. }
    destruct Hhb as [Hhb Hhp].
    rewrite instrument_loop_app.
    destruct (instrument_loop_spec (tyenv sbIn) (body l1) g0 sb0 Hok0 Hst1 Hhb)
      as (g1 & sb1 & Hrun1 & Hok1 & _ & _ & _ & Hg & Hc).
    rewrite Hrun1. cbn [instrument_loop instrument_stmt clo_trace_mem].
    rewrite flushEvents_spec by done. cbn [mbind option_bind].
    set (sbE := add_stmts sb1 (calls (live g1))).
    assert (Hhl2 : Forall (fun st => is_helper_call st = false) (omap id l2)).
    { done. }
    destruct (instrument_loop_spec (tyenv sbIn) l2
                {| events := events g1; events_used := 0 |}
                (addStmtToIRSB sbE (Ist_Exit r)) (buf_ok_reset g1 Hok1)
                Hst2 Hhl2)
      as (g2 & sb2 & Hrun2 & Hok2 & _ & _ & (ext & Hext) & _).
    rewrite Hrun2. cbn [mbind option_bind].
    rewrite flushEvents_spec by done.
    eexists _, _, (stmts sbE), (map Some ext ++ map Some (calls (live g2))).
    split; [reflexivity|]. split; [|split].
    + unfold add_stmts at 1. cbn [stmts]. rewrite Hext.
      unfold addStmtToIRSB. cbn [stmts]. by rewrite <- !app_assoc.
    + unfold sbE. rewrite helper_calls_add by apply calls_helper.
      specialize (Hc []). rewrite app_nil_r in Hc. cbn [notified] in Hc.
      rewrite (calls_settled (live g1)), Hc.
      unfold sb0, add_stmts. cbn [stmts deepCopyIRSBExceptStmts app].
      unfold helper_calls at 1. rewrite omap_id_Some.
      destruct (guest_all _ Hhp) as [_ ->]. done.
    + unfold sbE. rewrite guest_stmts_add by apply calls_helper.
      rewrite Hg. unfold sb0, add_stmts. cbn [stmts deepCopyIRSBExceptStmts app].
      unfold guest_stmts at 1. rewrite omap_id_Some.
      destruct (guest_all _ Hhp) as [-> _]. done.
  - (* the exit belongs to the preamble *)
    rewrite Ep, Eb in *. clear Ep Eb.
    cbn [preamble is_IMark] in Hpre |- *.
    apply Forall_app in Hpre as [Hpre1 Hpre2].
    set (sb0 := add_stmts _ _).
    assert (Hs0 : stmts sb0
              = l1 ++ Some (Ist_Exit r) :: map Some (omap id (preamble l2))).
    { unfold sb0, add_stmts. cbn [stmts deepCopyIRSBExceptStmts app].
      rewrite omap_app, map_app, omap_id_cons_Some.
      by rewrite (map_Some_omap_id l1 Hpre1). }
    cbn [body is_IMark] in Hst |- *.
    assert (Hhb : Forall (fun st => is_helper_call st = false)
                    (omap id (body l2))).
    { rewrite <- (preamble_body l2), omap_app in Hh2.
      apply Forall_app in Hh2. tauto. }
    destruct (instrument_loop_spec (tyenv sbIn) (body l2) g0 sb0 Hok0 Hst Hhb)
      as (g1 & sb1 & Hrun1 & Hok1 & _ & _ & (ext & Hext) & _).
    rewrite Hrun1. cbn [mbind option_bind].
    rewrite flushEvents_spec by done.
    eexists _, _, l1,
      (map Some (omap id (preamble l2)) ++ map Some ext
         ++ map Some (calls (live g1))).
    split; [reflexivity|]. split; [|split].
    + unfold add_stmts at 1. cbn [stmts]. rewrite Hext, Hs0.
      by rewrite <- !app_assoc.
    + unfold helper_calls, block_items. rewrite Hc1, He. done.
    + unfold guest_stmts, kept. rewrite Hg1, Epl, He. cbn.
      by rewrite app_nil_r.
Qed.

(** X16: a compare-and-swap that follows an instruction mark yields one
    call of [trace_modify] for its address, with the size of the low data
    word, doubled when there is a high word, provided the library finds
    the address equal to itself.  The calls before it are those due for
    the statements before it, the calls after it those due for the
    statements after it. *)
Theorem cas_is_one_modify (sbIn : IRSB) (ty : IRType) (g : ev_state)
    (l1 l2 : list (option IRStmt)) (a lo : IRExpr) (hi : option IRExpr)
    (r : IRRest) :
  block_ok sbIn -> length (events g) = Z.to_nat N_EVENTS ->
  stmts sbIn = l1 ++ Some (Ist_CAS (mkIRCAS (Some a) hi (Some lo) r)) :: l2 ->
  body l1 <> [] ->
  eqIRAtom a a = true ->
  exists g' sbOut, lk_instrument sbIn ty ty g = Some (g', sbOut)
    /\ helper_calls (stmts sbOut)
       = notified None (block_items (tyenv sbIn) l1)
         ++ helper_call Event_Dm a (cas_size (tyenv sbIn) hi lo)
         ++ notified None (flat_map (stmt_items (tyenv sbIn)) (omap id l2)).
Proof.
  intros Hb Hlen Hsplit Hne Heq.
  destruct (lk_instrument_spec sbIn ty g Hb Hlen)
    as (g' & sbOut & Hrun & _ & _ & _ & _ & _ & Hc & _).
  exists g', sbOut. split; [done|]. rewrite Hc, Hsplit.
  unfold block_items.
  destruct (body_app l1 (Some (Ist_CAS (mkIRCAS (Some a) hi (Some lo) r)) :: l2))
    as [(_ & _ & ->)|(He & _)]; [|done].
  rewrite omap_app, omap_id_cons_Some, flat_map_app.
  cbn [flat_map stmt_items app].
  rewrite notified_load by done. f_equal.
  cbn [notified ekind flush_pending app size addr].
  by rewrite Z.eqb_refl, Heq.
Qed.

(** X17: a helper call never comes before the statement whose access it
    reports: however many statements of the block returned are taken from
    its start, the helper calls among them open the list of the calls due
    for the statements among them.  This needs the library to find an
    atom equal to itself. *)
Theorem calls_follow_accesses (sbIn : IRSB) (ty : IRType) (g : ev_state) :
  block_ok sbIn -> length (events g) = Z.to_nat N_EVENTS ->
  eqIRAtom_refl ->
  exists g' sbOut, lk_instrument sbIn ty ty g = Some (g', sbOut)
    /\ late (tyenv sbIn) (stmts sbOut).
Proof.
  intros Hb Hlen Hrefl.
  destruct (lk_instrument_spec sbIn ty g Hb Hlen) as (g' & sbOut & Hrun & _).
  exists g', sbOut. split; [done|].
  destruct Hb as (Hpre & Hst & Hh).
  revert Hrun. unfold lk_instrument.
  rewrite bool_decide_eq_true_2 by done. cbn [negb]. cbv zeta.
  rewrite copy_preamble_spec by done. cbn [mbind option_bind clo_trace_mem].
  set (g0 := {| events := events g; events_used := 0 |}).
  set (sb0 := add_stmts (deepCopyIRSBExceptStmts sbIn)
                (omap id (preamble (stmts sbIn)))).
  assert (Hok0 : buf_ok g0) by (split; [done | cbn; unfold N_EVENTS; lia]).
  assert (Hs0 : stmts sb0 = preamble (stmts sbIn)).
  { unfold sb0, add_stmts. cbn [stmts deepCopyIRSBExceptStmts app].
    by apply map_Some_omap_id. }
  rewrite <- (preamble_body (stmts sbIn)), omap_app in Hh.
  apply Forall_app in Hh as [Hh1 Hh2].
  assert (Hbp : forall l, body (preamble l) = []).
  { intros l. induction l as [|[st|] l IH]; cbn; [done | | done].
    destruct (is_IMark st) eqn:E; cbn; [done | by rewrite E]. }
  assert (Hbb : forall l, body (body l) = body l).
  { intros l. induction l as [|[st|] l IH]; cbn; [done | | done].
    destruct (is_IMark st) eqn:E; cbn; [by rewrite E | done]. }
  assert (Hhc0 : forall pre suf, stmts sb0 = pre ++ suf -> helper_calls pre = []).
  { intros pre suf E. destruct (guest_all _ Hh1) as [_ Hc].
    rewrite <- Hs0, E, omap_app, List.filter_app in Hc.
    by apply app_eq_nil in Hc as [Hc _]. }
  assert (Ha0 : accounted (tyenv sbIn) g0 sb0).
  { intros rest. unfold block_items.
    rewrite (Hhc0 (stmts sb0) []) by by rewrite app_nil_r.
    by rewrite Hs0, Hbp. }
  assert (Hl0 : late (tyenv sbIn) (stmts sb0)).
  { intros pre suf E. rewrite (Hhc0 pre suf E). apply prefix_nil. }
  destruct (instrument_loop (tyenv sbIn) (body (stmts sbIn)) g0 sb0)
    as [[g1 sb1]|] eqn:Hloop; cbn [mbind option_bind]; [|done].
  destruct (instrument_loop_late (tyenv sbIn) (body (stmts sbIn)) g0 sb0 g1 sb1)
    as (Hok1 & Ha1 & Hl1); try done; [by right|].
  rewrite flushEvents_spec by done. intros [= _ <-].
  by apply (late_flush (tyenv sbIn) g1 sb1).
Qed.

(** ** What an earlier block has left in the buffer *)

Lemma same_live_used g1 g2 : same_live g1 g2 -> events_used g1 = events_used g2.
Proof.
  intros (H1 & H2 & E).
  pose proof (live_length g1 H1) as L1. pose proof (live_length g2 H2) as L2.
  rewrite E in L1. destruct H1 as [_ ?], H2 as [_ ?]. lia.
Qed.

Lemma agree_bind (r1 r2 : option (ev_state * IRSB))
    (k : ev_state * IRSB -> option (ev_state * IRSB)) :
  agree r1 r2 ->
  (forall g1 g2 sb, same_live g1 g2 -> agree (k (g1, sb)) (k (g2, sb))) ->
  agree (r1 ≫= k) (r2 ≫= k).
Proof.
  destruct r1 as [[g1 sb1]|], r2 as [[g2 sb2]|]; cbn; try done.
  intros [-> Hs] Hk. by apply Hk.
Qed.

Lemma agree_assert (b : bool) (k1 k2 : option (ev_state * IRSB)) :
  agree k1 k2 -> agree (tl_assert b ≫= λ _, k1) (tl_assert b ≫= λ _, k2).
Proof. by destruct b. Qed.

Lemma agree_add_stmt g1 g2 sb st :
  same_live g1 g2 ->
  agree (Some (g1, addStmtToIRSB sb st)) (Some (g2, addStmtToIRSB sb st)).
Proof. done. Qed.

Lemma flushEvents_agree g1 g2 sb :
  same_live g1 g2 -> agree (flushEvents g1 sb) (flushEvents g2 sb).
Proof.
  intros (H1 & H2 & E).
  rewrite (flushEvents_spec g1 sb H1), (flushEvents_spec g2 sb H2). cbn.
  rewrite E. split; [done|].
  split; [by apply buf_ok_reset|]. split; [by apply buf_ok_reset|]. done.
Qed.

Lemma add_event_agree e g1 g2 sb :
  same_live g1 g2 -> agree (add_event e g1 sb) (add_event e g2 sb).
Proof.
  intros Hs. pose proof (same_live_used g1 g2 Hs) as Hu.
  destruct Hs as (H1 & H2 & E).
  destruct (add_event_spec e g1 sb H1) as (g1' & -> & B1 & L1).
  destruct (add_event_spec e g2 sb H2) as (g2' & -> & B2 & L2).
  cbn. rewrite <- Hu, <- E. split; [done|].
  split; [done|]. split; [done|]. rewrite L1, L2, <- Hu, E. done.
Qed.

Lemma addEvent_Ir_agree a isize g1 g2 sb :
  same_live g1 g2 ->
  agree (addEvent_Ir a isize g1 sb) (addEvent_Ir a isize g2 sb).
Proof.
  intros Hs. unfold addEvent_Ir.
  do 2 apply agree_assert. by apply add_event_agree.
Qed.

Lemma addEvent_Dr_agree a dsize g1 g2 sb :
  same_live g1 g2 ->
  agree (addEvent_Dr a dsize g1 sb) (addEvent_Dr a dsize g2 sb).
Proof.
  intros Hs. unfold addEvent_Dr.
  do 3 apply agree_assert. by apply add_event_agree.
Qed.

Lemma addEvent_Dw_agree a dsize g1 g2 sb :
  same_live g1 g2 ->
  agree (addEvent_Dw a dsize g1 sb) (addEvent_Dw a dsize g2 sb).
Proof.
  intros Hs. pose proof (same_live_used g1 g2 Hs) as Hu.
  pose proof Hs as (H1 & H2 & E).
  unfold addEvent_Dw. do 3 apply agree_assert.
  rewrite <- Hu.
  destruct (0 <? events_used g1) eqn:Hpos; cbn.
  2: { by apply add_event_agree. }
  apply Z.ltb_lt in Hpos.
  pose proof (live_last g2 H2) as LL2. rewrite <- Hu, <- E in LL2.
  rewrite (live_last g1 H1 Hpos), (LL2 Hpos).
  destruct (live g1) as [|x l] eqn:El using rev_ind.
  { pose proof (live_length g1 H1) as L. rewrite El in L. cbn in L. lia. }
  clear IHl. rewrite last_snoc. cbn.
  destruct (ekind x); try by apply add_event_agree.
  destruct ((size x =? dsize) && eqIRAtom (addr x) a);
    [|by apply add_event_agree].
  cbn. split; [done|].
  destruct (live_set_last {| ekind := Event_Dm; addr := addr x; size := size x |}
              g1 l x H1 El) as [B1 L1].
  assert (El2 : live g2 = l ++ [x]) by congruence.
  destruct (live_set_last {| ekind := Event_Dm; addr := addr x; size := size x |}
              g2 l x H2 El2) as [B2 L2].
  rewrite <- Hu in B2, L2.
  split; [done|]. split; [done|]. congruence.
Qed.

Lemma agree_then_add (r1 r2 : option (ev_state * IRSB)) st :
  agree r1 r2 ->
  agree ('(g, sbOut) ← r1; Some (g, addStmtToIRSB sbOut st))
        ('(g, sbOut) ← r2; Some (g, addStmtToIRSB sbOut st)).
Proof.
  destruct r1 as [[g1 sb1]|], r2 as [[g2 sb2]|]; cbn; try done.
  by intros [-> Hs].
Qed.

Lemma instrument_stmt_agree te st g1 g2 sb :
  same_live g1 g2 ->
  agree (instrument_stmt te st g1 sb) (instrument_stmt te st g2 sb).
Proof.
  intros Hs. destruct st; cbn [instrument_stmt]; try done.
  - apply agree_then_add. cbn. by apply addEvent_Ir_agree.
  - apply agree_then_add. cbn.
    destruct (Iex_Load_of data) as [[ty a]|]; [by apply addEvent_Dr_agree|done].
  - apply agree_then_add. cbn. by apply addEvent_Dw_agree.
  - destruct details as [[a|] hi [lo|] r]; cbn; try done.
    apply agree_then_add.
    apply agree_bind; [by apply addEvent_Dr_agree|].
    intros g1' g2' sb' Hs'. by apply addEvent_Dw_agree.
  - apply agree_then_add. destruct storedata; cbn;
      [by apply addEvent_Dw_agree | by apply addEvent_Dr_agree].
  - apply agree_then_add. cbn. by apply flushEvents_agree.
Qed.

Lemma instrument_loop_agree te l : forall g1 g2 sb,
  same_live g1 g2 ->
  agree (instrument_loop te l g1 sb) (instrument_loop te l g2 sb).
Proof.
  induction l as [|[st|] l IH]; intros g1 g2 sb Hs; cbn [instrument_loop].
  - done.
  - pose proof (instrument_stmt_agree te st g1 g2 sb Hs) as Ha.
    destruct st; try by apply IH.
    all: destruct (instrument_stmt te _ g1 sb) as [[g1' sb1]|],
           (instrument_stmt te _ g2 sb) as [[g2' sb2]|]; try done;
         destruct Ha as [-> Hs']; by apply IH.
  - by apply IH.
Qed.

(** X18: the block [lk_instrument] returns does not depend on what an
    earlier block has left in the static buffer, neither on the events in
    it nor on [events_used]: from two buffers of [N_EVENTS] slots the pass
    fails on both or returns the same block on both. *)
Theorem stale_buffer_ignored (sbIn : IRSB) (gWordTy hWordTy : IRType)
    (g1 g2 : ev_state) :
  length (events g1) = Z.to_nat N_EVENTS ->
  length (events g2) = Z.to_nat N_EVENTS ->
  snd <$> lk_instrument sbIn gWordTy hWordTy g1
  = snd <$> lk_instrument sbIn gWordTy hWordTy g2.
Proof.
  intros L1 L2. unfold lk_instrument.
  destruct (negb (bool_decide (gWordTy = hWordTy))); [done|].
  destruct (copy_preamble (stmts sbIn) (deepCopyIRSBExceptStmts sbIn))
    as [[rest sb0]|]; [|done].
  cbn.
  assert (Hs : same_live {| events := events g1; events_used := 0 |}
                         {| events := events g2; events_used := 0 |}).
  { split; [|split; [|done]]; (split; [done|]); cbn; unfold N_EVENTS; lia. }
  pose proof (instrument_loop_agree (tyenv sbIn) rest _ _ sb0 Hs) as Ha.
  destruct (instrument_loop (tyenv sbIn) rest
              {| events := events g1; events_used := 0 |} sb0) as [[g1' sb1]|],
           (instrument_loop (tyenv sbIn) rest
              {| events := events g2; events_used := 0 |} sb0) as [[g2' sb2]|];
    try done.
  destruct Ha as [-> Hs']. cbn.
  pose proof (flushEvents_agree g1' g2' sb2 Hs') as Hf.
  destruct (flushEvents g1' sb2) as [[? ?]|], (flushEvents g2' sb2) as [[? ?]|];
    try done.
  destruct Hf as [-> _]. done.
Qed.

End instrument_facts.

(** ** The pass on a concrete block *)

Section instrument_witnesses.
Import Instrument.
#[local] Existing Instance demo_vex.

Lemma demo_block_ok : block_ok demo_block.
Proof.
  unfold block_ok, dsize_ok. split; [|split].
  - cbn. apply Forall_cons. split; [by eexists | apply Forall_nil_2].
  - cbn. repeat (apply Forall_cons; split); try apply Forall_nil_2;
      first [ exact I
            | left; vm_compute; split; discriminate
            | split; [reflexivity | vm_compute; split; discriminate] ].
  - cbn. repeat (apply Forall_cons; split; [done|]). apply Forall_nil_2.
Qed.

Lemma demo_eqIRAtom_refl : eqIRAtom_refl.
Proof.
  intros [t|c|ty a|off]; cbn; try done; intros _; apply Z.eqb_refl.
Qed.

Lemma lk_instrument_returns_witness :
  block_ok demo_block
  /\ length (events demo_buffer) = Z.to_nat N_EVENTS
  /\ events_used demo_buffer = 3
  /\ exists g' sbOut, lk_instrument demo_block 8 8 demo_buffer = Some (g', sbOut)
       /\ events_used g' = 0
       /\ tyenv sbOut = tyenv demo_block
       /\ Forall is_Some (stmts sbOut).
Proof.
  split; [exact demo_block_ok|]. split; [reflexivity|]. split; [reflexivity|].
  destruct (lk_instrument_returns demo_block 8 demo_buffer demo_block_ok eq_refl)
    as (g' & sbOut & Hrun & Hu & _ & Ht & _ & Hs).
  exists g', sbOut. split; [exact Hrun|]. split; [exact Hu|].
  split; [exact Ht | exact Hs].
Defined.

Lemma statements_kept_witness :
  exists g' sbOut, lk_instrument demo_block 8 8 demo_buffer = Some (g', sbOut)
    /\ guest_stmts (stmts sbOut)
       = [ Ist_Put 0;
           Ist_IMark 0x400000 3;
           Ist_WrTmp 1 (D_Load 4 (D_RdTmp 0));
           Ist_Store (D_RdTmp 0) (D_RdTmp 1);
           Ist_IMark 0x400003 2;
           Ist_WrTmp 2 (D_Load 4 (D_RdTmp 0));
           Ist_Exit 7;
           Ist_IMark 0x400005 4;
           Ist_Store (D_RdTmp 0) (D_RdTmp 2);
           Ist_CAS (mkIRCAS (Some (D_RdTmp 3)) None (Some (D_RdTmp 1)) 0);
           Ist_IMark 0x400009 5;
           Ist_WrTmp 4 (D_Load 8 (D_RdTmp 5));
           Ist_WrTmp 6 (D_Load 2 (D_RdTmp 7));
           Ist_WrTmp 8 (D_Load 1 (D_RdTmp 9)) ].
Proof.
  destruct (statements_kept demo_block 8 demo_buffer demo_block_ok eq_refl)
    as (g' & sbOut & Hrun & Hg).
  exists g', sbOut. split; [exact Hrun|]. rewrite Hg. reflexivity.
Defined.

Lemma calls_as_notified_witness :
  exists g' sbOut, lk_instrument demo_block 8 8 demo_buffer = Some (g', sbOut)
    /\ helper_calls (stmts sbOut)
       = [ demo_call "trace_modify" Fn_trace_modify (D_RdTmp 0) 4;
           demo_call "trace_load" Fn_trace_load (D_RdTmp 0) 4;
           demo_call "trace_store" Fn_trace_store (D_RdTmp 0) 4;
           demo_call "trace_modify" Fn_trace_modify (D_RdTmp 3) 4;
           demo_call "trace_load" Fn_trace_load (D_RdTmp 5) 8;
           demo_call "trace_load" Fn_trace_load (D_RdTmp 7) 2;
           demo_call "trace_load" Fn_trace_load (D_RdTmp 9) 1 ].
Proof.
  destruct (calls_as_notified demo_block 8 demo_buffer demo_block_ok eq_refl)
    as (g' & sbOut & Hrun & Hc).
  exists g', sbOut. split; [exact Hrun|]. rewrite Hc. reflexivity.
Defined.

Lemma exit_after_its_events_witness :
  stmts demo_block = demo_before_exit ++ Some (Ist_Exit 7) :: demo_after_exit
  /\ exists g' sbOut out1 out2,
       lk_instrument demo_block 8 8 demo_buffer = Some (g', sbOut)
       /\ stmts sbOut = out1 ++ Some (Ist_Exit 7) :: out2
       /\ helper_calls out1
          = [ demo_call "trace_modify" Fn_trace_modify (D_RdTmp 0) 4;
              demo_call "trace_load" Fn_trace_load (D_RdTmp 0) 4 ].
Proof.
  split; [reflexivity|].
  destruct (exit_after_its_events demo_block 8 demo_buffer
              demo_before_exit demo_after_exit 7 demo_block_ok eq_refl eq_refl)
    as (g' & sbOut & out1 & out2 & Hrun & Hs & Hc & _).
  exists g', sbOut, out1, out2. split; [exact Hrun|]. split; [exact Hs|].
  rewrite Hc. reflexivity.
Defined.

Lemma cas_is_one_modify_witness :
  stmts demo_block
  = demo_before_cas
      ++ Some (Ist_CAS (mkIRCAS (Some (D_RdTmp 3)) None (Some (D_RdTmp 1)) 0))
      :: demo_after_cas
  /\ exists g' sbOut, lk_instrument demo_block 8 8 demo_buffer = Some (g', sbOut)
       /\ helper_calls (stmts sbOut)
          = [ demo_call "trace_modify" Fn_trace_modify (D_RdTmp 0) 4;
              demo_call "trace_load" Fn_trace_load (D_RdTmp 0) 4;
              demo_call "trace_store" Fn_trace_store (D_RdTmp 0) 4 ]
            ++ [ demo_call "trace_modify" Fn_trace_modify (D_RdTmp 3) 4 ]
            ++ [ demo_call "trace_load" Fn_trace_load (D_RdTmp 5) 8;
                 demo_call "trace_load" Fn_trace_load (D_RdTmp 7) 2;
                 demo_call "trace_load" Fn_trace_load (D_RdTmp 9) 1 ].
Proof.
  split; [reflexivity|].
  destruct (cas_is_one_modify demo_block 8 demo_buffer
              demo_before_cas demo_after_cas (D_RdTmp 3) (D_RdTmp 1) None 0
              demo_block_ok eq_refl eq_refl)
    as (g' & sbOut & Hrun & Hc); [discriminate | reflexivity |].
  exists g', sbOut. split; [exact Hrun|]. rewrite Hc. reflexivity.
Defined.

Lemma calls_follow_accesses_witness :
  block_ok demo_block /\ eqIRAtom_refl
  /\ exists g' sbOut, lk_instrument demo_block 8 8 demo_buffer = Some (g', sbOut)
       /\ late (tyenv demo_block) (stmts sbOut).
Proof.
  split; [exact demo_block_ok|]. split; [exact demo_eqIRAtom_refl|].
  exact (calls_follow_accesses demo_block 8 demo_buffer demo_block_ok eq_refl
           demo_eqIRAtom_refl).
Defined.

Lemma stale_buffer_ignored_witness :
  length (events demo_buffer) = Z.to_nat N_EVENTS
  /\ length (events demo_buffer_start) = Z.to_nat N_EVENTS
  /\ snd <$> lk_instrument demo_block 8 8 demo_buffer
     = snd <$> lk_instrument demo_block 8 8 demo_buffer_start.
Proof.
  split; [reflexivity|]. split; [reflexivity|].
  apply stale_buffer_ignored; reflexivity.
Defined.

End instrument_witnesses.
